(** * Processing/add_eval.py: Stockfish evaluation of a moves DataFrame

    A shallow embedding of [is_valid_fen] and [add_eval].  Python values are
    a small sum type, a DataFrame is an ordered list of labelled rows, the
    interpreter state (object store, standard output, the engine process)
    is threaded through a state-and-exception monad, and the three
    libraries the module imports (python-chess, stockfish, the pandas date
    parsers) are an interface the development is parametric in. *)

From Stdlib Require Import ZArith PrimFloat SpecFloat FloatOps FloatAxioms.
From stdpp Require Import gmap strings list fin_maps pretty.

Open Scope Z_scope.

(** ** Python exceptions and results *)

Record Exception := { exc_class : string; exc_msg : string }.

Definition ValueError (msg : string) : Exception :=
  {| exc_class := "ValueError"; exc_msg := msg |}.
Definition KeyError (key : string) : Exception :=
  {| exc_class := "KeyError"; exc_msg := key |}.
Definition TypeError (msg : string) : Exception :=
  {| exc_class := "TypeError"; exc_msg := msg |}.
Definition AttributeError (msg : string) : Exception :=
  {| exc_class := "AttributeError"; exc_msg := msg |}.
Definition OverflowError (msg : string) : Exception :=
  {| exc_class := "OverflowError"; exc_msg := msg |}.

(** The outcome of evaluating a Python expression: a value, or an
    exception on its way up. *)
Inductive Res (A : Type) : Type :=
| Ok (a : A)
| Raise (e : Exception).
Arguments Ok {A} a.
Arguments Raise {A} e.

#[global] Instance Res_ret : MRet Res := λ A a, Ok a.
#[global] Instance Res_bind : MBind Res := λ A B f r,
  match r with
  | Ok a => f a
  | Raise e => Raise e
  end.

(** [try: body / except: handler] around an expression. *)
Definition Res_try_except {A} (body : Res A) (handler : Exception → Res A) : Res A :=
  match body with
  | Ok a => Ok a
  | Raise e => handler e
  end.

(** ** Values held in DataFrame cells *)

Inductive Month :=
| Jan | Feb | Mar | Apr | May | Jun | Jul | Aug | Sep | Oct | Nov | Dec.

Definition month_num (m : Month) : Z :=
  match m with
  | Jan => 1 | Feb => 2 | Mar => 3 | Apr => 4 | May => 5 | Jun => 6
  | Jul => 7 | Aug => 8 | Sep => 9 | Oct => 10 | Nov => 11 | Dec => 12
  end.

(** [pandas.Timestamp], to the day. *)
Record Timestamp := { ts_year : Z; ts_month : Month; ts_day : Z }.

(** [pandas.Period] of frequency ['M']. *)
Record Period := { p_year : Z; p_month : Month }.

(** Periods are compared through their ordinal: months since 1970-01. *)
Definition ordinal (p : Period) : Z :=
  (p_year p - 1970) * 12 + (month_num (p_month p) - 1).

Definition Period_ge (p q : Period) : bool := ordinal q <=? ordinal p.
Definition Period_le (p q : Period) : bool := ordinal p <=? ordinal q.

Inductive Value :=
| VNone
| VStr (s : string)
| VInt (z : Z)
| VFloat (f : float)
| VTimestamp (t : Timestamp)
| VNaT
| VPeriod (p : Period).

(** ** DataFrames *)

(** One row: the cell of every column.  [iterrows] hands rows out in this
    shape, paired with their index label. *)
Record DataFrame := {
  columns : list string;
  rows : list (Z * gmap string Value);
}.

(** A missing cell reads as the null value. *)
Definition cell (c : string) (row : gmap string Value) : Value :=
  default VNone (row !! c).

Definition column_values (c : string) (df : DataFrame) : list Value :=
  map (λ ir, cell c ir.2) (rows df).

(** [df[c] = vals] on a frame of matching length: an existing column is
    overwritten, a new one is appended on the right. *)
Definition set_column (c : string) (vals : list Value) (df : DataFrame) : DataFrame :=
  {| columns := if bool_decide (c ∈ columns df) then columns df else columns df ++ [c];
     rows := zip_with (λ ir v, (ir.1, <[c := v]> ir.2)) (rows df) vals |}.

(** [df[mask]]: the rows whose mask entry is true, labels kept. *)
Fixpoint select_rows {A} (mask : list bool) (l : list A) : list A :=
  match mask, l with
  | b :: mask', x :: l' => if b then x :: select_rows mask' l' else select_rows mask' l'
  | _, _ => []
  end.

Definition drop_column (c : string) (df : DataFrame) : DataFrame :=
  {| columns := filter (λ c', c' ≠ c) (columns df);
     rows := map (λ ir, (ir.1, delete c ir.2)) (rows df) |}.

(** [reset_index(drop=True)]: labels become 0, 1, 2, ... *)
Definition relabel (rs : list (Z * gmap string Value)) : list (Z * gmap string Value) :=
  imap (λ i ir, (Z.of_nat i, ir.2)) rs.

(** ** The engine's answer and the evaluation written to the frame *)

(** What [Stockfish.get_evaluation] returns: [{"type": "cp" | "mate",
    "value": int}]. *)
Record Evaluation := { ev_type : string; ev_value : Z }.

(** Python's [int -> float] conversion: round to nearest, ties to even;
    an integer beyond the double range raises [OverflowError]. *)
Definition int_to_float (z : Z) : Res float :=
  match binary_normalize 53 1024 z 0 false with
  | S754_infinity _ => Raise (OverflowError "int too large to convert to float")
  | sf => Ok (SF2Prim sf)
  end.

(** [value / 100.0] *)
Definition truediv_100 (value : Z) : Res float :=
  f ← int_to_float value; mret (PrimFloat.div f 100%float).

(** Lines 87-90: the value extracted from an engine answer. *)
Definition extract_value (evaluation : Evaluation) : Res Value :=
  if String.eqb (ev_type evaluation) "cp"
  then q ← truediv_100 (ev_value evaluation); mret (VFloat q)
  else mret (VStr ("M" +:+ pretty (ev_value evaluation))).

(** ** What [v / 100.0] is measured against *)

(** The finite binary64 number [x = (-1)^s * m * 2^e] against the exact
    fraction [v / 100]: the sign is that of [v], the mantissa is normal,
    [m * 2^e] lies within half a unit in the last place of [|v| / 100],
    that is [2 * |100 * m - |v| * 2^(-e)| <= 100], and on a tie the
    mantissa is even.  Zero answers to [v = 0] only. *)
Definition nearest_hundredth (v : Z) (x : spec_float) : bool :=
  match x with
  | S754_zero s => (v =? 0) && negb s
  | S754_finite s m e =>
      let err := 2 * Z.abs (100 * Zpos m - Z.abs v * 2 ^ (- e)) in
      Bool.eqb s (v <? 0) && (e <=? 0)
        && (2 ^ 52 <=? Zpos m) && (Zpos m <? 2 ^ 53)
        && (err <=? 100) && (negb (err =? 100) || Z.even (Zpos m))
  | _ => false
  end.

(** The position of an exact quotient [q + rho / delta] above the
    integer [q], as a rounding location records it. *)
Definition loc_spec (l : location) (rho delta : Z) : Prop :=
  match l with
  | loc_Exact => rho = 0
  | loc_Inexact Lt => 0 < rho ∧ 2 * rho < delta
  | loc_Inexact Eq => 2 * rho = delta
  | loc_Inexact Gt => delta < 2 * rho ∧ rho < delta
  end.

(** The binary64 number 100.0 *)
Definition hundred : spec_float := S754_finite false 7036874417766400 (-46).

(** ** The imported libraries *)

Class Libraries := {
  (** python-chess *)
  Board : Type;
  chess_Board : string → Res Board;
  Board_is_valid : Board → Res bool;
  (** stockfish: the state of the engine process behind a handle *)
  Engine : Type;
  Stockfish : string → Z → Res Engine;
  set_fen_position : Engine → string → Engine * Res unit;
  get_evaluation : Engine → Engine * Res Evaluation;
  (** pandas: the scalar parser behind [to_datetime], and [Period(s, freq='M')] *)
  parse_datetime : Value → Res Timestamp;
  pd_Period : string → Res Period;
  (** what [x[:50]] raises on the scalar [iterrows] hands out for a cell
      that is no [str]: [TypeError] for a Python object (a row of dtype
      object), [IndexError] for a numpy scalar (a row of numeric dtype) *)
  subscript_error : Value → Exception;
}.

Definition STOCK_PATH : string :=
  "C:\Tools\stockfish\stockfish-windows-x86-64-avx2.exe".

(** Lines 18-24. *)
Definition is_valid_fen `{Libraries} (fen : string) : Res bool :=
  Res_try_except
    (board ← chess_Board fen; Board_is_valid board)
    (λ _, Ok false).

(** ** Interpreter state *)

(** Calls made on the engine handle, in order; kept alongside the state so
    that "the engine was not invoked" is a statement about a run. *)
Inductive EngineCall :=
| CallInit (path : string) (depth : Z)
| CallSetFen (fen : string)
| CallGetEval.

(** References to DataFrame objects. *)
Abbreviation loc := nat.

Section Program.
Context `{Libraries}.

Record World := {
  heap : gmap nat DataFrame;      (* the DataFrame objects alive *)
  stdout : list string;           (* one entry per [print] *)
  engine : option Engine;         (* the process behind [stockfish] *)
  engine_log : list EngineCall;
}.

Definition M (A : Type) : Type := World → World * Res A.

#[global] Instance M_ret : MRet M := λ A a w, (w, Ok a).
#[global] Instance M_bind : MBind M := λ A B f m w,
  match m w with
  | (w', Ok a) => f a w'
  | (w', Raise e) => (w', Raise e)
  end.

Definition raise {A} (e : Exception) : M A := λ w, (w, Raise e).
Definition lift {A} (r : Res A) : M A := λ w, (w, r).

(** [try: body / except Exception as e: handler e] *)
Definition try_except {A} (body : M A) (handler : Exception → M A) : M A := λ w,
  match body w with
  | (w', Ok a) => (w', Ok a)
  | (w', Raise e) => handler e w'
  end.

Definition print (s : string) : M unit := λ w,
  ({| heap := heap w; stdout := stdout w ++ [s];
      engine := engine w; engine_log := engine_log w |}, Ok ()).

(** *** The object store *)

Definition with_heap (h : gmap nat DataFrame) (w : World) : World :=
  {| heap := h; stdout := stdout w; engine := engine w; engine_log := engine_log w |}.

Definition alloc (d : DataFrame) : M loc := λ w,
  let l := fresh (dom (heap w)) in
  (with_heap (<[l := d]> (heap w)) w, Ok l).

Definition load (l : loc) : M DataFrame := λ w,
  match heap w !! l with
  | Some d => (w, Ok d)
  | None => (w, Raise (AttributeError "dangling reference"))
  end.

Definition store (l : loc) (d : DataFrame) : M unit := λ w,
  (with_heap (<[l := d]> (heap w)) w, Ok ()).

(** *** pandas *)

(** [df.copy()]: a new object with the same content. *)
Definition DataFrame_copy (df : loc) : M loc :=
  d ← load df; alloc d.

(** [df[c]] *)
Definition getitem (df : loc) (c : string) : M (list Value) :=
  d ← load df;
  if bool_decide (c ∈ columns d) then mret (column_values c d)
  else raise (KeyError c).

(** [df[c] = vals]: mutates the object [df] refers to. *)
Definition setitem (df : loc) (c : string) (vals : list Value) : M unit :=
  d ← load df;
  if bool_decide (length vals = length (rows d)) then store df (set_column c vals d)
  else raise (ValueError "Length of values does not match length of index").

(** [df[mask]]: a new object. *)
Definition getitem_mask (df : loc) (mask : list bool) : M loc :=
  d ← load df;
  alloc {| columns := columns d; rows := select_rows mask (rows d) |}.

(** [df.drop(columns=[c])]: a new object. *)
Definition drop (df : loc) (c : string) : M loc :=
  d ← load df;
  if bool_decide (c ∈ columns d) then alloc (drop_column c d)
  else raise (KeyError c).

(** [df.reset_index(drop=True)]: a new object. *)
Definition reset_index (df : loc) : M loc :=
  d ← load df;
  alloc {| columns := columns d; rows := relabel (rows d) |}.

(** One element of [pd.to_datetime(series)]: nulls become [NaT],
    timestamps stay, anything else goes through the parser. *)
Definition to_datetime_scalar (v : Value) : Res Value :=
  match v with
  | VNone | VNaT => Ok VNaT
  | VTimestamp t => Ok (VTimestamp t)
  | _ => t ← parse_datetime v; mret (VTimestamp t)
  end.

Definition to_datetime (vals : list Value) : Res (list Value) :=
  mapM to_datetime_scalar vals.

(** One element of [series.dt.to_period('M')]. *)
Definition to_period_M (v : Value) : Res Value :=
  match v with
  | VTimestamp t => Ok (VPeriod {| p_year := ts_year t; p_month := ts_month t |})
  | VNaT => Ok VNaT
  | _ => Raise (AttributeError "Can only use .dt accessor with datetimelike values")
  end.

(** One element of [series >= p] and of [series <= p]; a comparison with
    [NaT] is false. *)
Definition ge_period (p : Period) (v : Value) : bool :=
  match v with
  | VPeriod q => Period_ge q p
  | _ => false
  end.

Definition le_period (p : Period) (v : Value) : bool :=
  match v with
  | VPeriod q => Period_le q p
  | _ => false
  end.

(** *** stockfish *)

Definition log_call (c : EngineCall) (e : option Engine) (w : World) : World :=
  {| heap := heap w; stdout := stdout w;
     engine := e; engine_log := engine_log w ++ [c] |}.

(** [Stockfish(path=path, depth=depth)] *)
Definition Stockfish_new (path : string) (depth : Z) : M unit := λ w,
  match Stockfish path depth with
  | Ok e => (log_call (CallInit path depth) (Some e) w, Ok ())
  | Raise x => (log_call (CallInit path depth) (engine w) w, Raise x)
  end.

(** [stockfish.set_fen_position(fen)] *)
Definition stockfish_set_fen_position (fen : string) : M unit := λ w,
  match engine w with
  | Some e =>
      let '(e', r) := set_fen_position e fen in
      (log_call (CallSetFen fen) (Some e') w, r)
  | None => (w, Raise (AttributeError "no engine process"))
  end.

(** [stockfish.get_evaluation()] *)
Definition stockfish_get_evaluation : M Evaluation := λ w,
  match engine w with
  | Some e =>
      let '(e', r) := get_evaluation e in
      (log_call CallGetEval (Some e') w, r)
  | None => (w, Raise (AttributeError "no engine process"))
  end.

(** ** add_eval *)

(** Lines 49-63, entered when a bound is given. *)
Definition date_filter (df : loc) (start_date end_date : option string) : M loc :=
  d ← load df;
  if negb (bool_decide ("date" ∈ columns d))
  then raise (ValueError "DataFrame must have 'date' column for date filtering")
  else
    dates ← getitem df "date";
    ts ← lift (to_datetime dates);
    setitem df "date" ts;;
    dates' ← getitem df "date";
    year_month ← lift (mapM to_period_M dates');
    setitem df "year_month" year_month;;
    df ← match start_date with
         | Some s =>
             start_period ← lift (pd_Period s);
             ym ← getitem df "year_month";
             getitem_mask df (map (ge_period start_period) ym)
         | None => mret df
         end;
    df ← match end_date with
         | Some s =>
             end_period ← lift (pd_Period s);
             ym ← getitem df "year_month";
             getitem_mask df (map (le_period end_period) ym)
         | None => mret df
         end;
    df ← drop df "year_month";
    reset_index df.

(** The variables the loop assigns. *)
Record Locals := { evals : list Value; invalid_count : Z }.

Definition append_eval (v : Value) (st : Locals) : Locals :=
  {| evals := evals st ++ [v]; invalid_count := invalid_count st |}.

(** [row['fen']] *)
Definition row_getitem (row : gmap string Value) (c : string) : Res Value :=
  match row !! c with
  | Some v => Ok v
  | None => Raise (KeyError c)
  end.

(** A [fen] that is no [str] is rejected by [is_valid_fen] (its bare
    [except] turns whatever [chess.Board] raises into [False], and
    [chess.Board(None)] is an empty board, which is not valid); the slice
    [fen[:50]] of the message then raises before anything is printed or
    appended: the call aborts at this row.  Which exception the slice
    raises depends on the scalar the row holds, see [subscript_error]. *)
Definition as_str (v : Value) : Res string :=
  match v with
  | VStr s => Ok s
  | _ => Raise (subscript_error v)
  end.

(** Lines 82-96. *)
Definition try_evaluate (index : Z) (fen : string) (st : Locals) : M Locals :=
  try_except
    (stockfish_set_fen_position fen;;
     evaluation ← stockfish_get_evaluation;
     eval_value ← lift (extract_value evaluation);
     mret (append_eval eval_value st))
    (λ e,
      print ("Error at position " +:+ pretty index +:+ ": " +:+ exc_msg e);;
      mret (append_eval VNone st)).

(** Lines 73-100: one iteration. *)
Definition loop_body (total : Z) (st : Locals) (ir : Z * gmap string Value) : M Locals :=
  let '(index, row) := ir in
  v ← lift (row_getitem row "fen");
  fen ← lift (as_str v);
  valid ← lift (is_valid_fen fen);
  if negb valid then
    print ("Invalid FEN at position " +:+ pretty index +:+ ": "
             +:+ String.substring 0 50 fen +:+ "...");;
    mret {| evals := evals st ++ [VNone]; invalid_count := invalid_count st + 1 |}
  else
    st' ← try_evaluate index fen st;
    (if bool_decide ((index + 1) `mod` 50 = 0)
     then print ("Evaluated " +:+ pretty (index + 1) +:+ "/" +:+ pretty total
                   +:+ " positions... (" +:+ pretty (invalid_count st') +:+ " invalid)")
     else mret ());;
    mret st'.

(** [for index, row in df.iterrows(): ...] *)
Fixpoint for_iterrows (body : Locals → Z * gmap string Value → M Locals)
    (rs : list (Z * gmap string Value)) (st : Locals) : M Locals :=
  match rs with
  | [] => mret st
  | ir :: rs' => st' ← body st ir; for_iterrows body rs' st'
  end.

Definition newline : string := String (Ascii.ascii_of_nat 10) "".

Definition is_not_None {A} (o : option A) : bool :=
  match o with Some _ => true | None => false end.

(** Lines 46-106. *)
Definition add_eval (move_df : loc) (depth : Z) (start_date end_date : option string)
    : M loc :=
  df ← DataFrame_copy move_df;
  df ← (if is_not_None start_date || is_not_None end_date
        then date_filter df start_date end_date
        else mret df);
  Stockfish_new STOCK_PATH depth;;
  d ← load df;
  let total := Z.of_nat (length (rows d)) in
  st ← for_iterrows (loop_body total) (rows d) {| evals := []; invalid_count := 0 |};
  setitem df "eval" (evals st);;
  print (newline +:+ "Completed: " +:+ pretty total +:+ " positions");;
  print ("Invalid FENs: " +:+ pretty (invalid_count st));;
  mret df.

(** ** What a run is measured against *)

(** The specification's evaluation values and their encoding in the
    [eval] column. *)
Inductive EvaluationValue :=
| Score (pawns : float)
| MateIn (plies : Z)
| Unavailable.

Definition serialize (v : EvaluationValue) : Value :=
  match v with
  | Score q => VFloat q
  | MateIn m => VStr ("M" +:+ pretty m)
  | Unavailable => VNone
  end.

Definition valid_fen (fen : string) : bool :=
  match is_valid_fen fen with
  | Ok b => b
  | Raise _ => false
  end.

Definition has_fen (ir : Z * gmap string Value) : bool :=
  match ir.2 !! "fen" with
  | Some (VStr _) => true
  | _ => false
  end.

Definition fen_of (ir : Z * gmap string Value) : string :=
  match ir.2 !! "fen" with
  | Some (VStr s) => s
  | _ => ""
  end.

(** What happens to one record: its position is rejected by the
    validator, or the exchange with the engine raises, or the engine
    answers. *)
Inductive Outcome :=
| Invalid
| Failed (e : Exception)
| Answered (ev : Evaluation).

(** One exchange with the engine: set the position, ask for the
    evaluation. *)
Definition ask (e : Engine) (fen : string) : Engine * Res Evaluation :=
  let '(e1, r1) := set_fen_position e fen in
  match r1 with
  | Ok _ => get_evaluation e1
  | Raise x => (e1, Raise x)
  end.

Definition exchange (e : Engine) (fen : string) : Outcome :=
  match (ask e fen).2 with
  | Ok ev => Answered ev
  | Raise x => Failed x
  end.

(** The outcomes of a sequence of positions handed to the validator and
    the engine one after the other, the engine starting in state [e]. *)
Fixpoint outcomes (e : Engine) (fens : list string) : list Outcome :=
  match fens with
  | [] => []
  | fen :: fens' =>
      if valid_fen fen
      then exchange e fen :: outcomes (ask e fen).1 fens'
      else Invalid :: outcomes e fens'
  end.

(** The engine state a sequence of positions leaves behind. *)
Fixpoint engine_after (e : Engine) (fens : list string) : Engine :=
  match fens with
  | [] => e
  | fen :: fens' =>
      if valid_fen fen then engine_after (ask e fen).1 fens' else engine_after e fens'
  end.

Definition evaluation_value (o : Outcome) : EvaluationValue :=
  match o with
  | Answered ev =>
      if String.eqb (ev_type ev) "cp" then
        match truediv_100 (ev_value ev) with
        | Ok q => Score q
        | Raise _ => Unavailable
        end
      else MateIn (ev_value ev)
  | _ => Unavailable
  end.

Definition is_Invalid (o : Outcome) : bool :=
  match o with Invalid => true | _ => false end.

(** The calls of one exchange: the position is set, and the evaluation
    is requested unless setting the position already raised. *)
Definition exchange_calls (x : string * bool) : list EngineCall :=
  CallSetFen x.1 :: (if x.2 then [CallGetEval] else []).

(** The date column after [pd.to_datetime]. *)
Definition parsed_date (ir : Z * gmap string Value) : Value :=
  match to_datetime_scalar (cell "date" ir.2) with
  | Ok v => v
  | Raise _ => VNaT
  end.

Definition date_parses (ir : Z * gmap string Value) : bool :=
  match to_datetime_scalar (cell "date" ir.2) with
  | Ok _ => true
  | Raise _ => false
  end.

Definition period_of (v : Value) : Value :=
  match to_period_M v with
  | Ok p => p
  | Raise _ => VNaT
  end.

Definition bound_parses (o : option string) : bool :=
  match o with
  | Some s => match pd_Period s with Ok _ => true | Raise _ => false end
  | None => true
  end.

Definition bound_of (o : option string) : option Period :=
  match o with
  | Some s => match pd_Period s with Ok p => Some p | Raise _ => None end
  | None => None
  end.

(** The two masks of lines 58 and 61, on one row. *)
Definition passes (start_date end_date : option string) (ir : Z * gmap string Value) : bool :=
  match bound_of start_date with
  | Some p => ge_period p (period_of (parsed_date ir))
  | None => true
  end
  &&
  match bound_of end_date with
  | Some p => le_period p (period_of (parsed_date ir))
  | None => true
  end.

(** A surviving row as line 63 leaves it. *)
Definition converted (ir : Z * gmap string Value) : Z * gmap string Value :=
  (ir.1, delete "year_month" (<["date" := parsed_date ir]> ir.2)).

(** The rows the loop iterates over. *)
Definition survivors (start_date end_date : option string) (d : DataFrame)
    : list (Z * gmap string Value) :=
  if is_not_None start_date || is_not_None end_date
  then relabel (map converted (List.filter (passes start_date end_date) (rows d)))
  else rows d.

(** What line 102 makes of the frame the loop ran over. *)
Definition enriched (cols : list string) (rs : list (Z * gmap string Value))
    (e0 : Engine) : DataFrame :=
  set_column "eval"
    (map (λ o, serialize (evaluation_value o)) (outcomes e0 (map fen_of rs)))
    {| columns := cols; rows := rs |}.

(** When a bound is given: the frame has a [date] column, every date
    converts and the bounds parse. *)
Definition date_ready (start_date end_date : option string) (d : DataFrame) : bool :=
  if is_not_None start_date || is_not_None end_date
  then bool_decide ("date" ∈ columns d) && forallb date_parses (rows d)
       && bound_parses start_date && bound_parses end_date
  else true.

(** Year-month order as the specification words it: by year, then by
    month. *)
Definition ym_leb (a b : Z * Month) : bool :=
  (a.1 <? b.1) || ((a.1 =? b.1) && (month_num a.2 <=? month_num b.2)).

Definition year_month (v : Value) : option (Z * Month) :=
  match v with
  | VTimestamp t => Some (ts_year t, ts_month t)
  | _ => None
  end.

(** "The record's year-month falls within [start, end], inclusive; an
    omitted bound leaves that side open." *)
Definition spec_retained (start_ end_ : option Period) (ir : Z * gmap string Value) : bool :=
  match year_month (parsed_date ir) with
  | Some ym =>
      match start_ with Some p => ym_leb (p_year p, p_month p) ym | None => true end
      && match end_ with Some p => ym_leb ym (p_year p, p_month p) | None => true end
  | None => false
  end.

(** The input rows that survive lines 49-63, as they were. *)
Definition kept (start_date end_date : option string) (d : DataFrame)
    : list (Z * gmap string Value) :=
  if is_not_None start_date || is_not_None end_date
  then List.filter (passes start_date end_date) (rows d)
  else rows d.

(** The cells an input row carries into the loop. *)
Definition carried (start_date end_date : option string)
    (ir : Z * gmap string Value) : gmap string Value :=
  if is_not_None start_date || is_not_None end_date
  then (converted ir).2
  else ir.2.

(** The evaluation of the [i]-th surviving record: its position is
    validated, and an accepted position is exchanged with the engine in
    the state the records before it left. *)
Definition evaluation_at (e0 : Engine) (fens : list string) (i : nat) (fen : string)
    : EvaluationValue :=
  evaluation_value
    (if valid_fen fen then exchange (engine_after e0 (take i fens)) fen else Invalid).

(** ** Statements about runs *)

(** [returns m w Q]: from world [w] the computation [m] returns normally,
    with a value and a final world that satisfy [Q]. *)
Definition returns {A} (m : M A) (w : World) (Q : A → World → Prop) : Prop :=
  ∃ a w', m w = (w', Ok a) ∧ Q a w'.

(** [raises m w Q]: from world [w] the computation [m] ends in an
    exception, which with the final world satisfies [Q]. *)
Definition raises {A} (m : M A) (w : World) (Q : Exception → World → Prop) : Prop :=
  ∃ e w', m w = (w', Raise e) ∧ Q e w'.

(** From [w0] to [w] nothing was printed, the engine was left alone, no
    object other than [df] was changed and none disappeared. *)
Definition frame (df : loc) (w0 w : World) : Prop :=
  stdout w = stdout w0 ∧ engine w = engine w0 ∧ engine_log w = engine_log w0 ∧
  (∀ l, l ≠ df → is_Some (heap w0 !! l) → heap w !! l = heap w0 !! l) ∧
  (∀ l, heap w !! l = None → heap w0 !! l = None).

(** The engine was not touched between [w0] and [w]: no call was made on
    a handle and the process is as it was. *)
Definition engine_untouched (w0 w : World) : Prop :=
  engine_log w = engine_log w0 ∧ engine w = engine w0.

(** A row after lines 53 and 54. *)
Definition dated (ir : Z * gmap string Value) : Z * gmap string Value :=
  (ir.1, <["year_month" := period_of (parsed_date ir)]> (<["date" := parsed_date ir]> ir.2)).

(** ** What a run prints and what the returned frame looks like *)

(** The exception the [except] clause caught for a record, if any: the
    exchange raised, or the answer did not convert. *)
Definition failure_of (o : Outcome) : option Exception :=
  match o with
  | Failed x => Some x
  | Answered ev =>
      match extract_value ev with
      | Ok _ => None
      | Raise x => Some x
      end
  | Invalid => None
  end.

(** Line 77. *)
Definition invalid_line (ir : Z * gmap string Value) : string :=
  "Invalid FEN at position " +:+ pretty ir.1 +:+ ": "
    +:+ String.substring 0 50 (fen_of ir) +:+ "...".

(** Line 95. *)
Definition error_line (index : Z) (x : Exception) : string :=
  "Error at position " +:+ pretty index +:+ ": " +:+ exc_msg x.

(** Line 100. *)
Definition progress_line (index total invalid : Z) : string :=
  "Evaluated " +:+ pretty (index + 1) +:+ "/" +:+ pretty total
    +:+ " positions... (" +:+ pretty invalid +:+ " invalid)".

(** Lines 103 and 104. *)
Definition summary_lines (total invalid : Z) : list string :=
  [ newline +:+ "Completed: " +:+ pretty total +:+ " positions";
    "Invalid FENs: " +:+ pretty invalid ].

(** What the loop prints for the rows [rs], the engine starting in state
    [e] and [invalid] positions having been rejected so far. *)
Fixpoint loop_output (total : Z) (e : Engine) (invalid : Z)
    (rs : list (Z * gmap string Value)) : list string :=
  match rs with
  | [] => []
  | ir :: rs' =>
      if valid_fen (fen_of ir) then
        match failure_of (exchange e (fen_of ir)) with
        | Some x => [error_line ir.1 x]
        | None => []
        end
        ++ (if bool_decide ((ir.1 + 1) `mod` 50 = 0)
            then [progress_line ir.1 total invalid]
            else [])
        ++ loop_output total (ask e (fen_of ir)).1 invalid rs'
      else invalid_line ir :: loop_output total e (invalid + 1) rs'
  end.

(** The columns of the frame the loop runs over. *)
Definition loop_columns (start_date end_date : option string) (d : DataFrame)
    : list string :=
  if is_not_None start_date || is_not_None end_date
  then filter (λ c, c ≠ "year_month") (columns d)
  else columns d.

(** The number of rejected positions among [fens]. *)
Definition rejected (fens : list string) : Z :=
  Z.of_nat (length (List.filter (λ fen, negb (valid_fen fen)) fens)).
(** Lines 68-106: what [add_eval] does with the frame [df], whose rows
    are [rs], once the engine is started. *)
Definition evaluate_rows (df : loc) (rs : list (Z * gmap string Value)) : M loc :=
  let total := Z.of_nat (length rs) in
  st ← for_iterrows (loop_body total) rs {| evals := []; invalid_count := 0 |};
  setitem df "eval" (evals st);;
  print (newline +:+ "Completed: " +:+ pretty total +:+ " positions");;
  print ("Invalid FENs: " +:+ pretty (invalid_count st));;
  mret df.
(** Lines 56-63: the two optional masks, then the scratch column is
    dropped and the index reset. *)
Definition filter_bounds (df : loc) (start_date end_date : option string) : M loc :=
  df ← match start_date with
       | Some s =>
           start_period ← lift (pd_Period s);
           ym ← getitem df "year_month";
           getitem_mask df (map (ge_period start_period) ym)
       | None => mret df
       end;
  df ← match end_date with
       | Some s =>
           end_period ← lift (pd_Period s);
           ym ← getitem df "year_month";
           getitem_mask df (map (le_period end_period) ym)
       | None => mret df
       end;
  df ← drop df "year_month";
  reset_index df.

(** The index label the loop sees for the [i]-th surviving record [ir]:
    its position after a date filter (line 63 resets the index), its
    input label otherwise. *)
Definition label_of (start_date end_date : option string) (i : nat)
    (ir : Z * gmap string Value) : Z :=
  if is_not_None start_date || is_not_None end_date then Z.of_nat i else ir.1.

End Program.

(** ** Stand-ins for the libraries, for running the program on examples *)

Module Doubles.

Definition START_FEN : string :=
  "rnbqkbnr/pppppppp/8/8/8/8/PPPPPPPP/RNBQKBNR w KQkq - 0 1".
(** A position with mate on the board in three for the opponent. *)
Definition MATE_FEN : string :=
  "6k1/5ppp/8/8/8/8/5PPP/3r2K1 w - - 0 1".
(** Parses, but has no kings. *)
Definition EMPTY_FEN : string := "8/8/8/8/8/8/8/8 w - - 0 1".
(** A legal position on which the engine double breaks. *)
Definition CRASH_FEN : string :=
  "rnbqkbnr/pppppppp/8/8/4P3/8/PPPP1PPP/RNBQKBNR b KQkq e3 0 1".

Definition digit (c : Ascii.ascii) : option Z :=
  let n := Z.of_nat (Ascii.nat_of_ascii c) in
  if bool_decide (48 ≤ n ≤ 57) then Some (n - 48) else None.

Fixpoint digits (acc : Z) (s : string) : option Z :=
  match s with
  | EmptyString => Some acc
  | String c s' => d ← digit c; digits (10 * acc + d) s'
  end.

Definition month_of_Z (z : Z) : option Month :=
  match z with
  | 1 => Some Jan | 2 => Some Feb | 3 => Some Mar | 4 => Some Apr
  | 5 => Some May | 6 => Some Jun | 7 => Some Jul | 8 => Some Aug
  | 9 => Some Sep | 10 => Some Oct | 11 => Some Nov | 12 => Some Dec
  | _ => None
  end.

(** "YYYY-MM" *)
Definition iso_period (s : string) : option Period :=
  if bool_decide (String.length s = 7%nat ∧ String.substring 4 1 s = "-") then
    y ← digits 0 (String.substring 0 4 s);
    m ← digits 0 (String.substring 5 2 s) ≫= month_of_Z;
    Some {| p_year := y; p_month := m |}
  else None.

(** "YYYY-MM-DD" *)
Definition iso_date (s : string) : option Timestamp :=
  if bool_decide (String.length s = 10%nat ∧ String.substring 7 1 s = "-") then
    p ← iso_period (String.substring 0 7 s);
    d ← digits 0 (String.substring 8 2 s);
    if bool_decide (1 ≤ d ≤ 31)
    then Some {| ts_year := p_year p; ts_month := p_month p; ts_day := d |}
    else None
  else None.

Definition or_raise {A} (e : Exception) (o : option A) : Res A :=
  match o with Some a => Ok a | None => Raise e end.

(** Slicing a Python object that is no [str], as the rows of a frame
    with a string column hold them. *)
Definition not_subscriptable (v : Value) : Exception :=
  TypeError ("'" +:+ match v with
                     | VNone => "NoneType"
                     | VStr _ => "str"
                     | VInt _ => "int"
                     | VFloat _ => "float"
                     | VTimestamp _ => "Timestamp"
                     | VNaT => "NaTType"
                     | VPeriod _ => "Period"
                     end +:+ "' object is not subscriptable").

(** The engine double: its state is the position last set; it answers by
    table and breaks on [CRASH_FEN]. *)
#[export] Instance libs : Libraries := {|
  Board := string;
  chess_Board fen :=
    if bool_decide (fen ∈ [START_FEN; MATE_FEN; EMPTY_FEN; CRASH_FEN])
    then Ok fen else Raise (ValueError "invalid fen");
  Board_is_valid board := Ok (bool_decide (board ≠ EMPTY_FEN));
  Engine := string;
  Stockfish path depth := Ok "";
  set_fen_position e fen := (fen, Ok ());
  get_evaluation e :=
    (e, if bool_decide (e = CRASH_FEN) then Raise (ValueError "engine process died")
        else if bool_decide (e = MATE_FEN)
             then Ok {| ev_type := "mate"; ev_value := -3 |}
             else Ok {| ev_type := "cp"; ev_value := 250 |});
  parse_datetime v :=
    match v with
    | VStr s => or_raise (ValueError "Unknown datetime string format") (iso_date s)
    | _ => Raise (TypeError "not convertible to datetime")
    end;
  pd_Period s := or_raise (ValueError "Unknown datetime string format") (iso_period s);
  subscript_error := not_subscriptable;
|}.

Definition empty_world : World :=
  {| heap := ∅; stdout := []; engine := None; engine_log := [] |}.

(** A world holding one frame, at reference 0. *)
Definition world_with (d : DataFrame) : World :=
  {| heap := {[ 0%nat := d ]}; stdout := []; engine := None; engine_log := [] |}.

Definition move (fen date : string) (ply : Z) : gmap string Value :=
  {[ "fen" := VStr fen; "date" := VStr date; "ply" := VInt ply ]}.

Definition moves : DataFrame :=
  {| columns := ["fen"; "date"; "ply"];
     rows := [ (0, move START_FEN "2023-12-31" 1);
               (1, move MATE_FEN "2024-01-01" 2);
               (2, move "not a fen" "2024-01-15" 3);
               (3, move CRASH_FEN "2024-02-29" 4);
               (4, move EMPTY_FEN "2024-03-01" 5);
               (5, move START_FEN "2024-03-02" 6) ] |}.

(** A frame without a [date] column. *)
Definition undated : DataFrame :=
  {| columns := ["fen"; "ply"];
     rows := [ (0, {[ "fen" := VStr START_FEN; "ply" := VInt 1 ]}) ] |}.

(** A frame one of whose dates does not parse. *)
Definition misdated : DataFrame :=
  {| columns := ["fen"; "date"; "ply"];
     rows := [ (0, move START_FEN "2024-01-01" 1);
               (1, move MATE_FEN "yesterday" 2) ] |}.

(** Fifty records labelled 0 to 49: the starting position 49 times, then
    [last]. *)
Definition fifty (last : string) : DataFrame :=
  {| columns := ["fen"];
     rows := imap (λ i fen, (Z.of_nat i, {[ "fen" := VStr fen ]}))
                  (replicate 49 START_FEN ++ [last]) |}.

(** A frame with no rows and no [fen] column. *)
Definition no_moves : DataFrame :=
  {| columns := ["date"; "ply"]; rows := [] |}.

(** A frame without a [fen] column. *)
Definition unpositioned : DataFrame :=
  {| columns := ["date"; "ply"];
     rows := [ (0, {[ "date" := VStr "2024-01-01"; "ply" := VInt 1 ]}) ] |}.

(** A frame whose second position is missing (a null cell). *)
Definition holed : DataFrame :=
  {| columns := ["fen"; "ply"];
     rows := [ (0, {[ "fen" := VStr START_FEN; "ply" := VInt 1 ]});
               (1, {[ "fen" := VNone; "ply" := VInt 2 ]});
               (2, {[ "fen" := VStr START_FEN; "ply" := VInt 3 ]}) ] |}.

(** A frame that already has [eval] and [year_month] columns, with labels
    that do not start at 0. *)
Definition annotated : DataFrame :=
  {| columns := ["fen"; "eval"; "date"; "year_month"];
     rows := [ (7, {[ "fen" := VStr START_FEN; "eval" := VStr "old";
                      "date" := VStr "2024-01-01"; "year_month" := VStr "2024-01" ]});
               (9, {[ "fen" := VStr "not a fen"; "eval" := VStr "old";
                      "date" := VStr "2024-02-01"; "year_month" := VStr "2024-02" ]}) ] |}.

(** Libraries like [libs], but with an engine that starts as [start] says
    and answers every request as [answer] says. *)
Definition libs_with (start : Res string) (answer : Res Evaluation) : Libraries := {|
  Board := string;
  chess_Board fen :=
    if bool_decide (fen ∈ [START_FEN; MATE_FEN; EMPTY_FEN; CRASH_FEN])
    then Ok fen else Raise (ValueError "invalid fen");
  Board_is_valid board := Ok (bool_decide (board ≠ EMPTY_FEN));
  Engine := string;
  Stockfish path depth := start;
  set_fen_position e fen := (fen, Ok ());
  get_evaluation e := (e, answer);
  parse_datetime v :=
    match v with
    | VStr s => or_raise (ValueError "Unknown datetime string format") (iso_date s)
    | _ => Raise (TypeError "not convertible to datetime")
    end;
  pd_Period s := or_raise (ValueError "Unknown datetime string format") (iso_period s);
  subscript_error := not_subscriptable;
|}.

(** The engine executable is not there. *)
Definition absent_engine : Libraries :=
  libs_with (Raise {| exc_class := "FileNotFoundError"; exc_msg := "No such file" |})
            (Ok {| ev_type := "cp"; ev_value := 0 |}).

(** The engine process starts and dies. *)
Definition dead_engine : Libraries :=
  libs_with (Ok "") (Raise {| exc_class := "BrokenPipeError"; exc_msg := "Broken pipe" |}).

(** A frame none of whose positions is legal. *)
Definition garbled : DataFrame :=
  {| columns := ["fen"];
     rows := [ (0, {[ "fen" := VStr "not a fen" ]});
               (1, {[ "fen" := VStr EMPTY_FEN ]}) ] |}.

Definition world_of (L : Libraries) (d : DataFrame) : @World L :=
  {| heap := {[ 0%nat := d ]}; stdout := []; engine := None; engine_log := [] |}.

End Doubles.


(** * Ingestion/download_pgn.py: the archive download

    [download_pgn] asks the archive list of a player, downloads every
    month and writes one file.  The network, the file system and
    [pathlib] are an interface; the string methods are defined.  A Python
    [str] is modelled by a Rocq string whose characters are its code
    points, so a [str] with a code point above 255 is outside the
    model. *)

Module DownloadPgn.

(** ** The [str] methods used *)

Definition code (c : Ascii.ascii) : Z := Z.of_nat (Ascii.nat_of_ascii c).

(** [c.isspace()] for a code point below 256. *)
Definition isspace (c : Ascii.ascii) : bool :=
  let n := code c in
  ((9 <=? n) && (n <=? 13)) || ((28 <=? n) && (n <=? 32)) || (n =? 133) || (n =? 160).

(** [c.lower()] for a code point below 256: A-Z, and the capital letters
    of U+00C0-U+00DE (U+00D7, the multiplication sign, is no letter). *)
Definition lower_char (c : Ascii.ascii) : Ascii.ascii :=
  let n := code c in
  if ((65 <=? n) && (n <=? 90)) || ((192 <=? n) && (n <=? 222) && negb (n =? 215))
  then Ascii.ascii_of_nat (Z.to_nat (n + 32))
  else c.

(** [s.lower()] *)
Fixpoint str_lower (s : string) : string :=
  match s with
  | EmptyString => EmptyString
  | String c s' => String (lower_char c) (str_lower s')
  end.

(** [s.lstrip()] *)
Fixpoint lstrip (s : string) : string :=
  match s with
  | EmptyString => EmptyString
  | String c s' => if isspace c then lstrip s' else s
  end.

Definition is_empty (s : string) : bool :=
  match s with EmptyString => true | String _ _ => false end.

(** [s.rstrip()] *)
Fixpoint rstrip (s : string) : string :=
  match s with
  | EmptyString => EmptyString
  | String c s' =>
      let r := rstrip s' in
      if isspace c && is_empty r then EmptyString else String c r
  end.

(** [s.strip()] *)
Definition strip (s : string) : string := rstrip (lstrip s).

(** [sep.join(l)] *)
Fixpoint join (sep : string) (l : list string) : string :=
  match l with
  | [] => ""
  | [x] => x
  | x :: l' => x +:+ sep +:+ join sep l'
  end.

(** [s.split(sep)] for a one-character separator: the pieces between
    the separators, empty ones included; never an empty list. *)
Fixpoint split (sep : Ascii.ascii) (s : string) : list string :=
  match s with
  | EmptyString => [""]
  | String c s' =>
      if bool_decide (c = sep) then "" :: split sep s'
      else match split sep s' with
           | piece :: pieces => String c piece :: pieces
           | [] => [String c ""]
           end
  end.

(** The character [/]. *)
Definition slash : Ascii.ascii := Ascii.ascii_of_nat 47.

(** [l[-n:]] *)
Definition last_n {A} (n : nat) (l : list A) : list A :=
  skipn (List.length l - n)%nat l.

Definition IndexError (msg : string) : Exception :=
  {| exc_class := "IndexError"; exc_msg := msg |}.

(** [l[i]] for [i >= 0] *)
Definition getitem_list {A} (l : list A) (i : nat) : Res A :=
  match l !! i with
  | Some x => Ok x
  | None => Raise (IndexError "list index out of range")
  end.

Definition newline : string := String (Ascii.ascii_of_nat 10) "".

(** ** The services [download_pgn] uses *)

Class Services := {
  (** the network and the file system *)
  Outside : Type;
  (** requests *)
  Response : Type;
  requests_get : Outside → string → Outside * Res Response;
  response_text : Response → string;
  (** [response.json()['archives']] *)
  response_archives : Response → Res (list string);
  (** pathlib *)
  Path : Type;
  (** [Path(__file__).resolve().parents[1]] *)
  project_root : Path;
  (** [path / name] *)
  joinpath : Path → string → Path;
  (** [str(path)] *)
  path_str : Path → string;
  (** [path.mkdir(parents=True, exist_ok=True)] *)
  mkdir : Outside → Path → Outside * Res unit;
  (** [with open(path, 'w', encoding='utf-8') as f: f.write(content)] *)
  write_file : Outside → Path → string → Outside * Res unit;
}.

Section Program.
Context `{Services}.

(** What the call does to the outside, in order.  (Every request carries
    the same fixed [User-Agent] header.) *)
Inductive Event :=
| Mkdir (path : Path)
| Get (url : string)
| Write (path : Path) (content : string).

Record State := {
  outside : Outside;
  printed : list string;     (* one entry per [print] *)
  events : list Event;
}.

Definition D (A : Type) : Type := State → State * Res A.

#[export] Instance D_ret : MRet D := λ A a st, (st, Ok a).
#[export] Instance D_bind : MBind D := λ A B f m st,
  match m st with
  | (st', Ok a) => f a st'
  | (st', Raise e) => (st', Raise e)
  end.

Definition lift {A} (r : Res A) : D A := λ st, (st, r).

Definition print (line : string) : D unit := λ st,
  ({| outside := outside st; printed := printed st ++ [line]; events := events st |},
   Ok ()).

Definition effect {A} (ev : Event) (op : Outside → Outside * Res A) : D A := λ st,
  let '(o, r) := op (outside st) in
  ({| outside := o; printed := printed st; events := events st ++ [ev] |}, r).

(** [requests.get(url, headers=headers)] *)
Definition get (url : string) : D Response :=
  effect (Get url) (λ o, requests_get o url).

(** Lines 33-40: one month. *)
Definition download_month (n : nat) (all_pgn : list string) (i : nat)
    (archive_url : string) : D (list string) :=
  let month := last_n 2%nat (split slash archive_url) in
  m0 ← lift (getitem_list month 0%nat);
  m1 ← lift (getitem_list month 1%nat);
  print ("[" +:+ pretty i +:+ "/" +:+ pretty n +:+ "] Downloading "
           +:+ m0 +:+ "/" +:+ m1 +:+ "...");;
  let pgn_url := archive_url +:+ "/pgn" in
  response ← get pgn_url;
  if negb (is_empty (strip (response_text response)))
  then mret (all_pgn ++ [response_text response])
  else mret all_pgn.

(** [for i, archive_url in enumerate(archives, i): ...] *)
Fixpoint for_archives (n : nat) (i : nat) (archives : list string)
    (all_pgn : list string) : D (list string) :=
  match archives with
  | [] => mret all_pgn
  | archive_url :: archives' =>
      all_pgn' ← download_month n all_pgn i archive_url;
      for_archives n (S i) archives' all_pgn'
  end.

(** Lines 43-45, and lines 29-31 of Pipelines/pgn_to_duckdb_test.py: the
    stem of the file name. *)
Definition file_stem (username : string) : string :=
  let username := str_lower username in
  if (8 <? String.length username)%nat then String.substring 0 8 username else username.

(** Line 47. *)
Definition file_content (all_pgn : list string) : string :=
  rstrip (join (newline +:+ newline) all_pgn) +:+ newline.

(** Lines 11-52. *)
Definition download_pgn (username : string) : D unit :=
  let username := str_lower username in
  let output_dir := joinpath (joinpath project_root "Data") "Bronze" in
  effect (Mkdir output_dir) (λ o, mkdir o output_dir);;
  let url := "https://api.chess.com/pub/player/" +:+ username +:+ "/games/archives" in
  response ← get url;
  archives ← lift (response_archives response);
  let archives := rev archives in
  all_pgn ← for_archives (List.length archives) 1%nat archives [];
  let output_file := joinpath output_dir (file_stem username +:+ ".pgn") in
  let content := file_content all_pgn in
  effect (Write output_file content) (λ o, write_file o output_file content);;
  print ("Saved to " +:+ path_str output_file).

(** The stem the pipeline script computes for the file it then reads
    (Pipelines/pgn_to_duckdb_test.py, lines 29-31). *)
Definition pipeline_stem (username : string) : string :=
  let username := str_lower username in
  if (8 <? String.length username)%nat then String.substring 0 8 username else username.

(** ** What a download is measured against *)

(** The requests for the months [archives], one after the other, from
    the outside [o]: the responses, or the first exception. *)
Fixpoint fetch (o : Outside) (archives : list string) : Outside * Res (list Response) :=
  match archives with
  | [] => (o, Ok [])
  | archive_url :: archives' =>
      match requests_get o (archive_url +:+ "/pgn") with
      | (o1, Ok r) =>
          match fetch o1 archives' with
          | (o2, Ok rs) => (o2, Ok (r :: rs))
          | (o2, Raise x) => (o2, Raise x)
          end
      | (o1, Raise x) => (o1, Raise x)
      end
  end.

(** The archive URL has a slash: [split('/')] gives at least two pieces. *)
Definition has_slash (url : string) : bool :=
  bool_decide (2 ≤ List.length (split slash url))%nat.

Definition is_blank (text : string) : bool := is_empty (strip text).

(** The texts kept by line 39. *)
Definition kept_texts (rs : list Response) : list string :=
  List.filter (λ text, negb (is_blank text)) (map response_text rs).

Definition is_Get (ev : Event) : bool :=
  match ev with Get _ => true | _ => false end.

Definition is_Write (ev : Event) : bool :=
  match ev with Write _ _ => true | _ => false end.

Definition requested (evs : list Event) : list string :=
  omap (λ ev, match ev with Get url => Some url | _ => None end) evs.

(** Line 34 for the [i]-th of [n] months. *)
Definition month_line (n i : nat) (archive_url : string) : string :=
  let month := last_n 2%nat (split slash archive_url) in
  "[" +:+ pretty i +:+ "/" +:+ pretty n +:+ "] Downloading "
    +:+ default "" (month !! 0%nat) +:+ "/" +:+ default "" (month !! 1%nat) +:+ "...".

Fixpoint month_lines (n i : nat) (archives : list string) : list string :=
  match archives with
  | [] => []
  | archive_url :: archives' => month_line n i archive_url :: month_lines n (S i) archives'
  end.

(** No character of [s] is a slash. *)
Fixpoint slash_free (s : string) : bool :=
  match s with
  | EmptyString => true
  | String c s' => negb (bool_decide (c = slash)) && slash_free s'
  end.

(** [line 16]: the directory the file goes to. *)
Definition output_dir : Path := joinpath (joinpath project_root "Data") "Bronze".

(** Line 20: the address of the archive list. *)
Definition archives_url (username : string) : string :=
  "https://api.chess.com/pub/player/" +:+ str_lower username +:+ "/games/archives".

(** Lines 43-46: the file the games go to. *)
Definition output_file (username : string) : Path :=
  joinpath output_dir (file_stem (str_lower username) +:+ ".pgn").

(** Line 52. *)
Definition saved_line (username : string) : string :=
  "Saved to " +:+ path_str (output_file username).

(** The requests of the loop for the months [archives]. *)
Definition month_requests (archives : list string) : list Event :=
  map (λ archive_url, Get (archive_url +:+ "/pgn")) archives.

(** The last character of a string, if any. *)
Fixpoint last_char (s : string) : option Ascii.ascii :=
  match s with
  | EmptyString => None
  | String c EmptyString => Some c
  | String _ s' => last_char s'
  end.

End Program.

End DownloadPgn.

(** ** Stand-ins for the network and the file system *)

Module DownloadDoubles.
Import DownloadPgn.

Definition ARCHIVES_URL : string :=
  "https://api.chess.com/pub/player/magnus/games/archives".
Definition JANUARY : string := "https://api.chess.com/pub/player/magnus/games/2024/01".
Definition FEBRUARY : string := "https://api.chess.com/pub/player/magnus/games/2024/02".
Definition MARCH : string := "https://api.chess.com/pub/player/magnus/games/2024/03".

Definition ConnectionError : Exception :=
  {| exc_class := "ConnectionError"; exc_msg := "Max retries exceeded" |}.

(** A site with three months for the player magnus, the second one
    without games. *)
Definition site (url : string) : Res (string * Res (list string)) :=
  if bool_decide (url = ARCHIVES_URL)
  then Ok ("", Ok [JANUARY; FEBRUARY; MARCH])
  else if bool_decide (url = JANUARY +:+ "/pgn")
  then Ok ("1. e4 e5 1-0" +:+ newline, Raise (ValueError "no JSON"))
  else if bool_decide (url = FEBRUARY +:+ "/pgn")
  then Ok ("  " +:+ newline, Raise (ValueError "no JSON"))
  else if bool_decide (url = MARCH +:+ "/pgn")
  then Ok ("1. d4 d5 0-1" +:+ newline +:+ newline, Raise (ValueError "no JSON"))
  else Raise ConnectionError.

(** The same site with March unreachable. *)
Definition flaky_site (url : string) : Res (string * Res (list string)) :=
  if bool_decide (url = MARCH +:+ "/pgn") then Raise ConnectionError else site url.

(** A site that lists an archive without a slash. *)
Definition odd_site (url : string) : Res (string * Res (list string)) :=
  if bool_decide (url = ARCHIVES_URL)
  then Ok ("", Ok ["latest"; JANUARY])
  else site url.

(** A site that knows no such player. *)
Definition empty_site (url : string) : Res (string * Res (list string)) :=
  if bool_decide (url = ARCHIVES_URL)
  then Ok ("", Raise (KeyError "archives"))
  else Raise ConnectionError.

(** A player with no archive. *)
Definition new_player_site (url : string) : Res (string * Res (list string)) :=
  if bool_decide (url = ARCHIVES_URL) then Ok ("", Ok []) else Raise ConnectionError.

(** The outside is the number of operations made so far; paths are lists
    of components. *)
Definition services (web : string → Res (string * Res (list string))) : Services := {|
  Outside := nat;
  Response := string * Res (list string);
  requests_get o url := (S o, web url);
  response_text r := r.1;
  response_archives r := r.2;
  Path := list string;
  project_root := [""; "srv"; "chess"];
  joinpath p name := p ++ [name];
  path_str p := join "/" p;
  mkdir o p := (S o, Ok ());
  write_file o p content := (S o, Ok ());
|}.

Definition start (S : Services) (o : @Outside S) : @State S :=
  {| outside := o; printed := []; events := [] |}.

End DownloadDoubles.

(** * The quotient by 100.0

    [truediv_100] against the exact fraction: the double nearest to an
    integer below 2^53 is that integer, and the binary64 quotient by 100
    is rounded to nearest, ties to even. *)

Lemma digits2_size p : digits2_pos p = Pos.size p.
Proof. induction p; cbn; congruence. Qed.

Lemma size_bounds p : 2 ^ (Zpos (Pos.size p) - 1) <= Zpos p < 2 ^ Zpos (Pos.size p).
Proof.
  split.
  - pose proof (Pos.size_le p) as H.
    assert (2 ^ Zpos (Pos.size p) <= 2 * Zpos p) as H'.
    { change (2 * Zpos p) with (Zpos p~0). 
      change 2 with (Zpos 2) at 1. rewrite <- Pos2Z.inj_pow. lia. }
    replace (Zpos (Pos.size p)) with (Z.succ (Zpos (Pos.size p) - 1)) in H' by lia.
    rewrite Z.pow_succ_r in H' by lia. lia.
  - pose proof (Pos.size_gt p) as H.
    change 2 with (Zpos 2). rewrite <- Pos2Z.inj_pow. lia.
Qed.

Lemma size_unique p n : 2 ^ (n - 1) <= Zpos p < 2 ^ n -> Zpos (Pos.size p) = n.
Proof.
  intros [Hlo Hhi]. pose proof (size_bounds p) as [Hlo' Hhi'].
  destruct (Z.lt_trichotomy (Zpos (Pos.size p)) n) as [Hlt|[Heq|Hgt]]; [|assumption|].
  - assert (2 ^ Zpos (Pos.size p) <= 2 ^ (n - 1)) by (apply Z.pow_le_mono_r; lia). lia.
  - assert (2 ^ n <= 2 ^ (Zpos (Pos.size p) - 1)) by (apply Z.pow_le_mono_r; lia). lia.
Qed.

Lemma loc_of_record_of_loc m l : loc_of_shr_record (shr_record_of_loc m l) = l.
Proof. destruct l as [|[]]; reflexivity. Qed.

Lemma shr_m_record_of_loc m l : shr_m (shr_record_of_loc m l) = m.
Proof. destruct l as [|[]]; reflexivity. Qed.

Lemma fexp_53 e : -1074 <= e -> fexp 53 1024 (53 + e) = e.
Proof. intros He. unfold fexp, SpecFloat.emin. lia. Qed.

Lemma fexp_54 e : -1074 <= e -> fexp 53 1024 (54 + e) = e + 1.
Proof. intros He. unfold fexp, SpecFloat.emin. lia. Qed.

Lemma Zdigits2_pos q n : 2 ^ (n - 1) <= Zpos q < 2 ^ n -> Zdigits2 (Zpos q) = n.
Proof. intros H. cbn. rewrite digits2_size. apply size_unique; assumption. Qed.

(** No shift is needed for a mantissa of 53 bits. *)
Lemma shr_fexp_53 q e l :
  2 ^ 52 <= Zpos q < 2 ^ 53 -> -1074 <= e ->
  shr_fexp 53 1024 (Zpos q) e l = (shr_record_of_loc (Zpos q) l, e).
Proof.
  intros Hq He. unfold shr_fexp. rewrite (Zdigits2_pos q 53) by assumption.
  rewrite fexp_53 by assumption. rewrite Z.sub_diag; reflexivity.
Qed.

Lemma shr_fexp_54 q e l :
  2 ^ 53 <= Zpos q < 2 ^ 54 -> -1074 <= e ->
  shr_fexp 53 1024 (Zpos q) e l = (shr_1 (shr_record_of_loc (Zpos q) l), e + 1).
Proof.
  intros Hq He. unfold shr_fexp. rewrite (Zdigits2_pos q 54) by assumption.
  rewrite fexp_54 by assumption. replace (e + 1 - e) with 1 by lia. reflexivity.
Qed.


Lemma round_53_fits s q e :
  2 ^ 52 <= Zpos q < 2 ^ 53 -> -1074 <= e -> e <= 971 ->
  (let '(mrs, e'') := shr_fexp 53 1024 (Zpos q) e loc_Exact in
   match shr_m mrs with
   | Z0 => S754_zero s
   | Zpos m => if Z.leb e'' (1024 - 53) then S754_finite s m e'' else S754_infinity s
   | Zneg _ => S754_nan
   end) = S754_finite s q e.
Proof.
  intros Hq He He'. rewrite shr_fexp_53 by assumption. cbn [shr_m shr_record_of_loc].
  destruct (Z.leb_spec e (1024 - 53)); [reflexivity|lia].
Qed.

Lemma round_53 s q e l N delta rho :
  2 ^ 52 <= Zpos q < 2 ^ 53 -> -1074 <= e -> e + 1 <= 971 ->
  0 < delta -> N = Zpos q * delta + rho -> loc_spec l rho delta ->
  exists m j,
    binary_round_aux 53 1024 s (Zpos q) e l = S754_finite s m (e + j) /\
    0 <= j <= 1 /\
    2 ^ 52 <= Zpos m < 2 ^ 53 /\
    2 * Z.abs (delta * Zpos m * 2 ^ j - N) <= delta * 2 ^ j /\
    (2 * Z.abs (delta * Zpos m * 2 ^ j - N) = delta * 2 ^ j -> Z.even (Zpos m) = true).
Proof.
  intros Hq He He' Hdelta HN Hl.
  unfold binary_round_aux. rewrite shr_fexp_53 by assumption.
  rewrite shr_m_record_of_loc, loc_of_record_of_loc.
  assert (round_nearest_even (Zpos q) l = Zpos q \/
          (round_nearest_even (Zpos q) l = Zpos q + 1 /\
           (l = loc_Inexact Gt \/ (l = loc_Inexact Eq /\ Z.even (Zpos q) = false))))
    as [Hm|[Hm Hup]].
  { destruct l as [|[]]; cbn [round_nearest_even]; auto.
    destruct (Z.even (Zpos q)) eqn:Heven; auto. }
  - rewrite Hm. fold (1024 - 53).
    rewrite (round_53_fits s q e) by (assumption || lia).
    exists q, 0. rewrite Z.add_0_r. split; [reflexivity|]. split; [lia|]. split; [assumption|].
    change (2 ^ 0) with 1. rewrite !Z.mul_1_r.
    assert (l <> loc_Inexact Gt /\ (l = loc_Inexact Eq -> Z.even (Zpos q) = true)) as [HGt HEq].
    { destruct l as [|[]]; cbn [round_nearest_even] in Hm; split; try congruence; try lia.
      intros _. destruct (Z.even (Zpos q)); [reflexivity|lia]. }
    destruct l as [|[]]; cbn [loc_spec] in Hl; try congruence.
    + split; [lia|]. intros; lia.
    + split; [lia|]. intros _. apply HEq; reflexivity.
    + split; [lia|]. intros; lia.
  - rewrite Hm.
    assert (rho < delta /\ delta <= 2 * rho) as Hrho.
    { destruct Hup as [->|[-> _]]; cbn [loc_spec] in Hl; lia. }
    destruct (Z.eq_dec (Zpos q + 1) (2 ^ 53)) as [Hcarry|Hno].
    + rewrite Hcarry. change (2 ^ 53) with (Zpos 9007199254740992).
      rewrite shr_fexp_54 by (assumption || lia). cbn [shr_m shr_record_of_loc shr_1].
      change (1024 - 53) with 971.
      destruct (Z.leb_spec (e + 1) 971); [|lia].
      exists 4503599627370496%positive, 1. split; [reflexivity|]. split; [lia|].
      split; [lia|]. change (2 ^ 1) with 2.
      assert (Zpos q = 2 ^ 53 - 1) as Hq' by lia. rewrite HN, Hq'.
      split; [lia|]. intros _. reflexivity.
    + assert (exists q', Zpos q + 1 = Zpos q') as [q' Hq'] by (exists (q + 1)%positive; lia).
      rewrite Hq'. fold (1024 - 53).
      rewrite (round_53_fits s q' e) by lia.
      exists q', 0. rewrite Z.add_0_r. split; [reflexivity|]. split; [lia|]. split; [lia|].
      change (2 ^ 0) with 1. rewrite !Z.mul_1_r, <- Hq', HN.
      split; [lia|]. intros Htie.
      destruct Hup as [->|[-> Heven]]; cbn [loc_spec] in Hl; [lia|].
      rewrite Z.even_add, Heven. reflexivity.
Qed.

Lemma binary_round_aux_53 s p e l :
  2 ^ 52 <= Zpos p < 2 ^ 53 -> -1074 <= e ->
  binary_round_aux 53 1024 s (Zpos p) e l
  = (let '(mrs, e'') :=
       shr_fexp 53 1024 (round_nearest_even (Zpos p) l) e loc_Exact in
     match shr_m mrs with
     | Z0 => S754_zero s
     | Zpos m => if Z.leb e'' (1024 - 53) then S754_finite s m e'' else S754_infinity s
     | Zneg _ => S754_nan
     end).
Proof.
  intros Hp He. unfold binary_round_aux. rewrite shr_fexp_53 by assumption.
  rewrite shr_m_record_of_loc, loc_of_record_of_loc. reflexivity.
Qed.

Lemma round_54 s q e l N delta rho :
  2 ^ 53 <= Zpos q < 2 ^ 54 -> -1074 <= e -> e + 2 <= 971 ->
  0 < delta -> N = Zpos q * delta + rho -> loc_spec l rho delta ->
  exists m j,
    binary_round_aux 53 1024 s (Zpos q) e l = S754_finite s m (e + j) /\
    1 <= j <= 2 /\
    2 ^ 52 <= Zpos m < 2 ^ 53 /\
    2 * Z.abs (delta * Zpos m * 2 ^ j - N) <= delta * 2 ^ j /\
    (2 * Z.abs (delta * Zpos m * 2 ^ j - N) = delta * 2 ^ j -> Z.even (Zpos m) = true).
Proof.
  intros Hq He He' Hdelta HN Hl.
  assert (exists p l' rho',
            binary_round_aux 53 1024 s (Zpos q) e l
            = binary_round_aux 53 1024 s (Zpos p) (e + 1) l' /\
            2 ^ 52 <= Zpos p < 2 ^ 53 /\
            N = Zpos p * (2 * delta) + rho' /\
            loc_spec l' rho' (2 * delta)) as (p & l' & rho' & Heq & Hp & HN' & Hl').
  { destruct q as [p|p|]; [| |lia].
    - assert (2 ^ 52 <= Zpos p < 2 ^ 53) as Hp by lia.
      exists p, (loc_of_shr_record (shr_1 (shr_record_of_loc (Zpos p~1) l))), (delta + rho).
      split; [|split; [assumption|split; [lia|]]].
      + rewrite (binary_round_aux_53 s p (e + 1)) by (assumption || lia).
        unfold binary_round_aux at 1. rewrite shr_fexp_54 by (assumption || lia).
        destruct l as [|[]]; reflexivity.
      + destruct l as [|[]]; cbn [loc_spec loc_of_shr_record shr_1 shr_record_of_loc orb] in Hl |- *; lia.
    - assert (2 ^ 52 <= Zpos p < 2 ^ 53) as Hp by lia.
      exists p, (loc_of_shr_record (shr_1 (shr_record_of_loc (Zpos p~0) l))), rho.
      split; [|split; [assumption|split; [lia|]]].
      + rewrite (binary_round_aux_53 s p (e + 1)) by (assumption || lia).
        unfold binary_round_aux at 1. rewrite shr_fexp_54 by (assumption || lia).
        destruct l as [|[]]; reflexivity.
      + destruct l as [|[]]; cbn [loc_spec loc_of_shr_record shr_1 shr_record_of_loc orb] in Hl |- *; lia. }
  destruct (round_53 s p (e + 1) l' N (2 * delta) rho') as (m & j & Hrun & Hj & Hm & Hbound & Htie);
    try (assumption || lia).
  exists m, (j + 1). rewrite Heq, Hrun. split; [f_equal; lia|]. split; [lia|].
  split; [assumption|].
  rewrite Z.pow_add_r by lia. change (2 ^ 1) with 2.
  replace (delta * Zpos m * (2 ^ j * 2)) with (2 * delta * Zpos m * 2 ^ j) by lia.
  replace (delta * (2 ^ j * 2)) with (2 * delta * 2 ^ j) by lia.
  split; assumption.
Qed.

Lemma iter_xO_pow p k : Zpos (Pos.iter xO p k) = Zpos p * 2 ^ Zpos k.
Proof.
  induction k as [|k IH] using Pos.peano_ind.
  - cbn [Pos.iter]. rewrite Pos2Z.inj_xO. lia.
  - rewrite Pos.iter_succ, Pos2Z.inj_xO, IH, Pos2Z.inj_succ, Z.pow_succ_r by lia. lia.
Qed.

(** The double nearest to an integer below 2^53 is that integer. *)
Lemma normalize_int s p :
  Zpos p < 2 ^ 53 ->
  exists m1 k,
    binary_round 53 1024 s p 0 = S754_finite s m1 (- k) /\
    0 <= k <= 52 /\
    Zpos m1 = Zpos p * 2 ^ k /\
    2 ^ 52 <= Zpos m1 < 2 ^ 53.
Proof.
  intros Hp. pose proof (size_bounds p) as [Hlo Hhi].
  assert (1 <= Zpos (Pos.size p) <= 53) as Hsize.
  { split; [lia|]. destruct (Z.le_gt_cases (Zpos (Pos.size p)) 53) as [|Hgt]; [assumption|].
    assert (2 ^ 53 <= 2 ^ (Zpos (Pos.size p) - 1)) by (apply Z.pow_le_mono_r; lia). lia. }
  unfold binary_round. rewrite digits2_size, Z.add_0_r.
  assert (fexp 53 1024 (Zpos (Pos.size p)) = Zpos (Pos.size p) - 53) as ->
    by (unfold fexp, SpecFloat.emin; lia).
  unfold shl_align. rewrite Z.sub_0_r.
  destruct (Zpos (Pos.size p) - 53) as [|d|d] eqn:Hd; [|lia|].
  - assert (2 ^ 52 <= Zpos p < 2 ^ 53) as Hp'.
    { replace (Zpos (Pos.size p)) with 53 in Hlo by lia. split; [exact Hlo|assumption]. }
    exists p, 0. split; [|split; [lia|split; [lia|assumption]]].
    rewrite binary_round_aux_53 by (assumption || lia). cbn [round_nearest_even].
    apply round_53_fits; (assumption || lia).
  - assert (Zpos (Pos.iter xO p d) = Zpos p * 2 ^ Zpos d) as Hm by apply iter_xO_pow.
    assert (Zpos (Pos.size p) = 53 - Zpos d) as Hsz by lia.
    assert (2 ^ 52 <= Zpos (Pos.iter xO p d) < 2 ^ 53) as Hp'.
    { rewrite Hm. rewrite Hsz in Hlo, Hhi.
      assert (2 ^ 52 = 2 ^ (53 - Zpos d - 1) * 2 ^ Zpos d) as ->
        by (rewrite <- Z.pow_add_r by lia; f_equal; lia).
      assert (2 ^ 53 = 2 ^ (53 - Zpos d) * 2 ^ Zpos d) as ->
        by (rewrite <- Z.pow_add_r by lia; f_equal; lia).
      assert (0 < 2 ^ Zpos d) by (apply Z.pow_pos_nonneg; lia).
      split; [apply Z.mul_le_mono_nonneg_r; lia|apply Z.mul_lt_mono_pos_r; lia]. }
    exists (Pos.iter xO p d), (Zpos d).
    split; [|split; [lia|split; assumption]].
    change (- Zpos d) with (Zneg d).
    rewrite binary_round_aux_53 by (assumption || lia). cbn [round_nearest_even].
    apply round_53_fits; (assumption || lia).
Qed.

Lemma new_location_spec delta r :
  Z.even delta = true -> 0 <= r < delta -> loc_spec (new_location delta r) r delta.
Proof.
  intros Heven Hr. unfold new_location, new_location_even. rewrite Heven.
  destruct (Z.eqb_spec r 0) as [->|Hr0]; [reflexivity|].
  destruct (Z.compare_spec (2 * r) delta); cbn [loc_spec]; lia.
Qed.

Lemma SFdiv_core_53 m1 e1 m2 e2 :
  2 ^ 52 <= Zpos m1 < 2 ^ 53 -> 2 ^ 52 <= Zpos m2 < 2 ^ 53 -> -1021 <= e1 - e2 ->
  SFdiv_core_binary 53 1024 (Zpos m1) e1 (Zpos m2) e2
  = (let '(q, r) := Z.div_eucl (Zpos m1 * 2 ^ 53) (Zpos m2) in
     (q, e1 - e2 - 53, new_location (Zpos m2) r)).
Proof.
  intros H1 H2 He. unfold SFdiv_core_binary.
  rewrite (Zdigits2_pos m1 53), (Zdigits2_pos m2 53) by assumption.
  set (e' := Z.min _ _).
  assert (e' = e1 - e2 - 53) as -> by (unfold e', fexp, SpecFloat.emin; lia).
  replace (e1 - e2 - (e1 - e2 - 53)) with 53 by lia.
  rewrite Z.shiftl_mul_pow2 by lia. reflexivity.
Qed.


Lemma div100_rounds s p :
  Zpos p < 2 ^ 53 ->
  exists m e,
    SFdiv 53 1024 (binary_round 53 1024 s p 0) hundred = S754_finite s m e /\
    e <= 0 /\
    2 ^ 52 <= Zpos m < 2 ^ 53 /\
    2 * Z.abs (100 * Zpos m - Zpos p * 2 ^ (- e)) <= 100 /\
    (2 * Z.abs (100 * Zpos m - Zpos p * 2 ^ (- e)) = 100 -> Z.even (Zpos m) = true).
Proof.
  intros Hp. destruct (normalize_int s p Hp) as (m1 & k & -> & Hk & Hm1 & Hm1').
  unfold hundred, SFdiv. rewrite SFdiv_core_53 by lia.
  pose proof (Z_div_mod (Zpos m1 * 2 ^ 53) 7036874417766400 eq_refl) as Hdiv.
  destruct (Z.div_eucl (Zpos m1 * 2 ^ 53) 7036874417766400) as [q r].
  destruct Hdiv as [HN Hr]. rewrite xorb_false_r.
  pose proof (new_location_spec 7036874417766400 r eq_refl Hr) as Hl.
  assert (2 ^ 52 <= q < 2 ^ 54) as Hq by lia.
  destruct q as [|q|q]; [lia| |lia].
  assert (exists m j,
            binary_round_aux 53 1024 s (Zpos q) (- k - -46 - 53)
              (new_location 7036874417766400 r)
            = S754_finite s m (- k - -46 - 53 + j) /\
            0 <= j <= 2 /\
            2 ^ 52 <= Zpos m < 2 ^ 53 /\
            2 * Z.abs (7036874417766400 * Zpos m * 2 ^ j - Zpos m1 * 2 ^ 53)
              <= 7036874417766400 * 2 ^ j /\
            (2 * Z.abs (7036874417766400 * Zpos m * 2 ^ j - Zpos m1 * 2 ^ 53)
               = 7036874417766400 * 2 ^ j -> Z.even (Zpos m) = true))
    as (m & j & Hrun & Hj & Hm & Hbound & Htie).
  { destruct (Z.lt_ge_cases (Zpos q) (2 ^ 53)) as [Hlt|Hge].
    - destruct (round_53 s q (- k - -46 - 53) (new_location 7036874417766400 r)
                  (Zpos m1 * 2 ^ 53) 7036874417766400 r)
        as (m & j & Hrun & Hj & Hrest); try (assumption || lia).
      exists m, j. split; [assumption|]. split; [lia|assumption].
    - destruct (round_54 s q (- k - -46 - 53) (new_location 7036874417766400 r)
                  (Zpos m1 * 2 ^ 53) 7036874417766400 r)
        as (m & j & Hrun & Hj & Hrest); try (assumption || lia).
      exists m, j. split; [assumption|]. split; [lia|assumption]. }
  exists m, (- k - -46 - 53 + j). split; [assumption|]. split; [lia|].
  split; [assumption|].
  replace (- (- k - -46 - 53 + j)) with (k + 7 - j) by lia.
  assert (Zpos m1 * 2 ^ 53 = Zpos p * 2 ^ (k + 7 - j) * 2 ^ j * 2 ^ 46) as HX.
  { rewrite Hm1, <- !Z.mul_assoc, <- !Z.pow_add_r by lia. do 2 f_equal. lia. }
  rewrite HX in Hbound, Htie.
  set (X := Zpos p * 2 ^ (k + 7 - j)) in *.
  change (2 ^ 46) with 70368744177664 in Hbound, Htie.
  assert (j = 0 \/ j = 1 \/ j = 2) as [-> | [-> | ->]] by lia.
  - change (2 ^ 0) with 1 in Hbound, Htie. split; [lia|]. intros Heq. apply Htie. lia.
  - change (2 ^ 1) with 2 in Hbound, Htie. split; [lia|]. intros Heq. apply Htie. lia.
  - change (2 ^ 2) with 4 in Hbound, Htie. split; [lia|]. intros Heq. apply Htie. lia.
Qed.

Lemma Prim2SF_hundred : Prim2SF 100%float = hundred.
Proof. reflexivity. Qed.

(** [truediv_100] in terms of the specification of binary64: the
    quotient, rounded to nearest even, of the double nearest to [v] by
    the double 100. *)
Lemma truediv_100_spec v m1 k s :
  binary_normalize 53 1024 v 0 false = S754_finite s m1 (- k) →
  0 ≤ k ≤ 52 →
  2 ^ 52 ≤ Zpos m1 < 2 ^ 53 →
  ∃ q, truediv_100 v = Ok q ∧
       Prim2SF q = SFdiv 53 1024 (S754_finite s m1 (- k)) hundred.
Proof.
  intros Hnorm Hk Hm1. unfold truediv_100, int_to_float. rewrite Hnorm.
  eexists. split; [reflexivity|].
  rewrite div_spec, Prim2SF_hundred, Prim2SF_SF2Prim; [reflexivity|].
  unfold valid_binary, bounded, canonical_mantissa.
  rewrite digits2_size, (size_unique m1 53) by assumption.
  rewrite fexp_53 by lia. rewrite Z.eqb_refl. cbn [andb]. apply Z.leb_le. unfold FloatOps.emax, FloatOps.prec. lia.
Qed.

Lemma nearest_hundredth_finite v s m e :
  v ≠ 0 →
  s = (v <? 0) →
  e ≤ 0 →
  2 ^ 52 ≤ Zpos m < 2 ^ 53 →
  2 * Z.abs (100 * Zpos m - Z.abs v * 2 ^ (- e)) ≤ 100 →
  (2 * Z.abs (100 * Zpos m - Z.abs v * 2 ^ (- e)) = 100 → Z.even (Zpos m) = true) →
  nearest_hundredth v (S754_finite s m e) = true.
Proof.
  intros Hv -> He Hm Herr Htie. unfold nearest_hundredth.
  rewrite Bool.eqb_reflx. cbn [andb].
  rewrite (proj2 (Z.leb_le _ _) He). cbn [andb].
  rewrite (proj2 (Z.leb_le _ _) (proj1 Hm)), (proj2 (Z.ltb_lt _ _) (proj2 Hm)).
  cbn [andb]. rewrite (proj2 (Z.leb_le _ _) Herr). cbn [andb].
  destruct (Z.eqb_spec (2 * Z.abs (100 * Zpos m - Z.abs v * 2 ^ (- e))) 100) as [Heq|Hne].
  - cbn [negb orb]. by apply Htie.
  - reflexivity.
Qed.

(** The quotient computed for an integer below 2^53 in absolute value
    is within half a unit in the last place of [v / 100]. *)
Lemma truediv_100_nearest v :
  Z.abs v < 2 ^ 53 →
  ∃ q, truediv_100 v = Ok q ∧ nearest_hundredth v (Prim2SF q) = true.
Proof.
  intros Hv. destruct v as [|p|p].
  - exists 0%float. split; reflexivity.
  - destruct (normalize_int false p) as (m1 & k & Hnorm & Hk & Hm1 & Hm1'); [lia|].
    destruct (truediv_100_spec (Zpos p) m1 k false) as (q & Hq & Hsf); try assumption.
    destruct (div100_rounds false p) as (m & e & Hdiv & He & Hm & Herr & Htie); [lia|].
    rewrite Hnorm in Hdiv. exists q. split; [assumption|]. rewrite Hsf, Hdiv.
    by apply nearest_hundredth_finite.
  - destruct (normalize_int true p) as (m1 & k & Hnorm & Hk & Hm1 & Hm1'); [lia|].
    destruct (truediv_100_spec (Zneg p) m1 k true) as (q & Hq & Hsf); try assumption.
    destruct (div100_rounds true p) as (m & e & Hdiv & He & Hm & Herr & Htie); [lia|].
    rewrite Hnorm in Hdiv. exists q. split; [assumption|]. rewrite Hsf, Hdiv.
    by apply nearest_hundredth_finite.
Qed.

(** * Reasoning about runs *)

Section Runs.
Context `{Libraries}.

Lemma returns_bind {A B} (m : M A) (f : A → M B) w Q :
  returns m w (λ a w', returns (f a) w' Q) → returns (m ≫= f) w Q.
Proof.
  intros (a & w1 & Hm & b & w2 & Hf & HQ). exists b, w2. split; [|done].
  unfold mbind, M_bind. by rewrite Hm.
Qed.

Lemma returns_ret {A} (a : A) w (Q : A → World → Prop) :
  Q a w → returns (mret a) w Q.
Proof. intros HQ. by exists a, w. Qed.

Lemma returns_lift {A} (r : Res A) a w (Q : A → World → Prop) :
  r = Ok a → Q a w → returns (lift r) w Q.
Proof. intros -> HQ. by exists a, w. Qed.

Lemma returns_mono {A} (m : M A) w (Q Q' : A → World → Prop) :
  returns m w Q → (∀ a w', Q a w' → Q' a w') → returns m w Q'.
Proof. intros (a & w' & Hm & HQ) HQQ. exists a, w'. auto. Qed.

Lemma returns_print s w (Q : unit → World → Prop) :
  Q () {| heap := heap w; stdout := stdout w ++ [s];
          engine := engine w; engine_log := engine_log w |} →
  returns (print s) w Q.
Proof. intros HQ. by eexists _, _. Qed.

Lemma returns_load l d w (Q : DataFrame → World → Prop) :
  heap w !! l = Some d → Q d w → returns (load l) w Q.
Proof. intros Hl HQ. exists d, w. split; [|done]. unfold load. by rewrite Hl. Qed.

Lemma returns_store l d w (Q : unit → World → Prop) :
  Q () (with_heap (<[l := d]> (heap w)) w) → returns (store l d) w Q.
Proof. intros HQ. by eexists _, _. Qed.

Lemma returns_alloc d w (Q : loc → World → Prop) :
  (∀ l, heap w !! l = None → Q l (with_heap (<[l := d]> (heap w)) w)) →
  returns (alloc d) w Q.
Proof.
  intros HQ. eexists _, _. split; [done|]. apply HQ.
  apply not_elem_of_dom, is_fresh.
Qed.

Lemma returns_getitem df c d w (Q : list Value → World → Prop) :
  heap w !! df = Some d → c ∈ columns d → Q (column_values c d) w →
  returns (getitem df c) w Q.
Proof.
  intros Hd Hc HQ. apply returns_bind, (returns_load _ d); [done|].
  rewrite bool_decide_true by done. by apply returns_ret.
Qed.

Lemma returns_setitem df c vals d w (Q : unit → World → Prop) :
  heap w !! df = Some d → length vals = length (rows d) →
  Q () (with_heap (<[df := set_column c vals d]> (heap w)) w) →
  returns (setitem df c vals) w Q.
Proof.
  intros Hd Hlen HQ. apply returns_bind, (returns_load _ d); [done|].
  rewrite bool_decide_true by done. by apply returns_store.
Qed.

Lemma returns_getitem_mask df mask d w (Q : loc → World → Prop) :
  heap w !! df = Some d →
  (∀ l, heap w !! l = None →
     Q l (with_heap (<[l := {| columns := columns d;
                               rows := select_rows mask (rows d) |}]> (heap w)) w)) →
  returns (getitem_mask df mask) w Q.
Proof.
  intros Hd HQ. apply returns_bind, (returns_load _ d); [done|].
  by apply returns_alloc.
Qed.

Lemma returns_drop df c d w (Q : loc → World → Prop) :
  heap w !! df = Some d → c ∈ columns d →
  (∀ l, heap w !! l = None → Q l (with_heap (<[l := drop_column c d]> (heap w)) w)) →
  returns (drop df c) w Q.
Proof.
  intros Hd Hc HQ. apply returns_bind, (returns_load _ d); [done|].
  rewrite bool_decide_true by done. by apply returns_alloc.
Qed.

Lemma returns_reset_index df d w (Q : loc → World → Prop) :
  heap w !! df = Some d →
  (∀ l, heap w !! l = None →
     Q l (with_heap (<[l := {| columns := columns d; rows := relabel (rows d) |}]> (heap w)) w)) →
  returns (reset_index df) w Q.
Proof.
  intros Hd HQ. apply returns_bind, (returns_load _ d); [done|].
  by apply returns_alloc.
Qed.

(** ** Lists, masks and columns *)

Lemma mapM_Res_map {A B} (f : A → Res B) (g : A → B) (l : list A) :
  (∀ x, x ∈ l → f x = Ok (g x)) → mapM f l = Ok (map g l).
Proof.
  induction l as [|x l IH]; intros Hf; [done|]. cbn.
  rewrite (Hf x) by left. cbn.
  rewrite IH; [done|]. intros y Hy. apply Hf. by right.
Qed.

Lemma mapM_Res_raise {A B} (f : A → Res B) (l : list A) x e :
  x ∈ l → f x = Raise e → ∃ e', mapM f l = Raise e'.
Proof.
  induction l as [|y l IH]; intros Hx Hf; [by apply elem_of_nil in Hx|].
  apply elem_of_cons in Hx as [->|Hx]; cbn.
  - rewrite Hf. by eexists.
  - destruct (f y); cbn; [|by eexists].
    destruct (IH Hx Hf) as [e' ->]. by eexists.
Qed.

Lemma select_rows_map {A B} (f : A → bool) (g : A → B) (l : list A) :
  select_rows (map f l) (map g l) = map g (List.filter f l).
Proof.
  induction l as [|x l IH]; [done|]. cbn. destruct (f x); cbn; by rewrite IH.
Qed.

Lemma filter_filter_andb {A} (f g : A → bool) (l : list A) :
  List.filter g (List.filter f l) = List.filter (λ x, f x && g x) l.
Proof.
  induction l as [|x l IH]; [done|]. cbn.
  destruct (f x); cbn; [destruct (g x)|]; by rewrite IH.
Qed.

Lemma filter_true {A} (l : list A) : List.filter (λ _, true) l = l.
Proof. induction l as [|x l IH]; [done|]. cbn. by rewrite IH. Qed.

Lemma zip_with_map_r {A B C} (f : A → B → C) (g : A → B) (l : list A) :
  zip_with f l (map g l) = map (λ x, f x (g x)) l.
Proof. induction l as [|x l IH]; [done|]. cbn. by rewrite IH. Qed.

Lemma forallb_elem_of {A} (f : A → bool) (l : list A) x :
  forallb f l = true → x ∈ l → f x = true.
Proof.
  intros Hall Hx. rewrite forallb_forall in Hall.
  by apply Hall, list_elem_of_In.
Qed.

Lemma to_period_M_parsed_date ir :
  to_period_M (parsed_date ir) = Ok (period_of (parsed_date ir)).
Proof.
  unfold period_of, parsed_date, to_datetime_scalar.
  destruct (cell "date" ir.2); try done; by destruct (parse_datetime _).
Qed.

Lemma to_datetime_column d :
  forallb date_parses (rows d) = true →
  to_datetime (column_values "date" d) = Ok (map parsed_date (rows d)).
Proof.
  intros Hall. unfold to_datetime, column_values.
  rewrite (mapM_Res_map _ (λ v, match to_datetime_scalar v with Ok v' => v' | Raise _ => VNaT end)).
  - by rewrite map_map.
  - intros v Hv. apply list_elem_of_In, in_map_iff in Hv as (ir & <- & Hir).
    apply list_elem_of_In in Hir.
    pose proof (forallb_elem_of _ _ _ Hall Hir) as Hp. unfold date_parses in Hp.
    by destruct (to_datetime_scalar _).
Qed.

Lemma zip_with_map_map {A A' B C} (f : A' → B → C) (h : A → A') (g : A → B) (l : list A) :
  zip_with f (map h l) (map g l) = map (λ x, f (h x) (g x)) l.
Proof. induction l as [|x l IH]; [done|]. cbn. by rewrite IH. Qed.

Lemma column_values_set_column c (g : Z * gmap string Value → Value) d :
  column_values c (set_column c (map g (rows d)) d) = map g (rows d).
Proof.
  unfold column_values, set_column, cell. cbn.
  rewrite zip_with_map_r, map_map. apply map_ext. intros ir. cbn.
  by rewrite lookup_insert_eq.
Qed.

Lemma dated_rows d :
  rows (set_column "year_month" (map (λ ir, period_of (parsed_date ir)) (rows d))
          (set_column "date" (map parsed_date (rows d)) d))
  = map dated (rows d).
Proof. cbn. by rewrite zip_with_map_r, zip_with_map_map. Qed.

Lemma to_period_M_column (l : list (Z * gmap string Value)) :
  mapM to_period_M (map parsed_date l)
  = Ok (map (λ ir, period_of (parsed_date ir)) l).
Proof.
  rewrite (mapM_Res_map _ period_of).
  - by rewrite map_map.
  - intros v Hv. apply list_elem_of_In, in_map_iff in Hv as (ir & <- & _).
    apply to_period_M_parsed_date.
Qed.

Lemma year_month_of_dated (l : list (Z * gmap string Value)) :
  map (λ ir, cell "year_month" ir.2) (map dated l)
  = map (λ ir, period_of (parsed_date ir)) l.
Proof.
  rewrite map_map. apply map_ext. intros ir. unfold cell, dated. cbn.
  by rewrite lookup_insert_eq.
Qed.

Lemma drop_dated (l : list (Z * gmap string Value)) :
  map (λ ir, (ir.1, delete "year_month" ir.2)) (map dated l) = map converted l.
Proof.
  rewrite map_map. apply map_ext. intros ir. unfold dated, converted. cbn.
  by rewrite delete_insert_eq.
Qed.

(** ** Frames: what a run leaves alone *)

Lemma frame_refl df w : frame df w w.
Proof. by repeat split. Qed.

Lemma frame_store df d w0 w :
  frame df w0 w → frame df w0 (with_heap (<[df := d]> (heap w)) w).
Proof.
  intros (? & ? & ? & Hkeep & Hnew). repeat split; try done; cbn.
  - intros l Hl Hs. rewrite lookup_insert_ne by done. by apply Hkeep.
  - intros l Hl. apply Hnew. apply lookup_insert_None in Hl. tauto.
Qed.

Lemma frame_alloc df l d w0 w :
  heap w !! l = None →
  frame df w0 w → frame df w0 (with_heap (<[l := d]> (heap w)) w).
Proof.
  intros Hfresh (? & ? & ? & Hkeep & Hnew). repeat split; try done; cbn.
  - intros l' Hl' Hs. rewrite lookup_insert_ne; [by apply Hkeep|].
    intros Heq. subst. apply Hnew in Hfresh. destruct Hs as [? Hs].
    rewrite Hs in Hfresh. discriminate.
  - intros l' Hl'. apply Hnew. apply lookup_insert_None in Hl'. tauto.
Qed.

(** ** The date filter *)

(** One of the two optional bounds (lines 56-58 and 59-61). *)
Lemma returns_bound (cmp : Period → Value → bool) (bound : option string)
    df0 w0 cur cols (l : list (Z * gmap string Value)) w (Q : loc → World → Prop) :
  bound_parses bound = true →
  frame df0 w0 w →
  heap w !! cur = Some {| columns := cols; rows := map dated l |} →
  "year_month" ∈ cols →
  (∀ cur' w',
     frame df0 w0 w' →
     heap w' !! cur'
       = Some {| columns := cols;
                 rows := map dated
                   (List.filter (λ ir, match bound_of bound with
                                       | Some p => cmp p (period_of (parsed_date ir))
                                       | None => true
                                       end) l) |} →
     Q cur' w') →
  returns (match bound with
           | Some s =>
               p ← lift (pd_Period s);
               ym ← getitem cur "year_month";
               getitem_mask cur (map (cmp p) ym)
           | None => mret cur
           end) w Q.
Proof.
  intros Hparse Hframe Hcur Hym HQ. destruct bound as [s|]; cbn in *.
  - destruct (pd_Period s) as [p|] eqn:Hp; [|done].
    apply returns_bind. eapply returns_lift; [done|].
    apply returns_bind. eapply returns_getitem; [done..|].
    eapply returns_getitem_mask; [done|]. intros l' Hl'. apply HQ.
    + by apply frame_alloc.
    + cbn. rewrite lookup_insert_eq. do 2 f_equal.
      unfold column_values. cbn. rewrite year_month_of_dated.
      rewrite map_map.
      apply (select_rows_map (λ ir, cmp p (period_of (parsed_date ir))) dated).
  - apply returns_ret, HQ; [done|]. by rewrite filter_true.
Qed.

(** Lines 49-63 on a frame that has a [date] column all of whose values
    parse, with bounds that parse: a new frame holding the converted
    survivors, relabelled; only the object [df] is written to. *)
Lemma date_filter_returns df d start_date end_date w (Q : loc → World → Prop) :
  heap w !! df = Some d →
  "date" ∈ columns d →
  forallb date_parses (rows d) = true →
  bound_parses start_date = true →
  bound_parses end_date = true →
  (∀ out w',
     frame df w w' →
     heap w !! out = None →
     heap w' !! out
       = Some {| columns := filter (λ c, c ≠ "year_month") (columns d);
                 rows := relabel (map converted
                           (List.filter (passes start_date end_date) (rows d))) |} →
     Q out w') →
  returns (date_filter df start_date end_date) w Q.
Proof.
  intros Hd Hdate Hparse Hstart Hend HQ. unfold date_filter.
  apply returns_bind, (returns_load _ d); [done|].
  rewrite bool_decide_true by done. cbn [negb].
  apply returns_bind. eapply returns_getitem; [done..|].
  apply returns_bind. eapply returns_lift; [by apply to_datetime_column|].
  apply returns_bind. eapply returns_setitem; [done|by rewrite length_map|].
  set (d1 := set_column "date" (map parsed_date (rows d)) d).
  apply returns_bind. eapply (returns_getitem _ _ d1).
  { cbn. by rewrite lookup_insert_eq. }
  { subst d1. cbn. by rewrite bool_decide_true. }
  subst d1. rewrite column_values_set_column.
  apply returns_bind. eapply returns_lift; [apply to_period_M_column|].
  apply returns_bind. eapply returns_setitem.
  { cbn. by rewrite lookup_insert_eq. }
  { cbn. rewrite length_map, length_zip_with, length_map. lia. }
  match goal with
  | |- context [set_column "year_month" ?v ?d'] => set (d2 := set_column "year_month" v d')
  end.
  assert (Hcols : "year_month" ∈ columns d2).
  { subst d2. cbn. case_bool_decide; [done|]. set_solver. }
  assert (Hfilter : filter (λ c, c ≠ "year_month") (columns d2)
                    = filter (λ c, c ≠ "year_month") (columns d)).
  { subst d2. cbn. rewrite (bool_decide_true ("date" ∈ columns d)) by done.
    case_bool_decide; [done|]. rewrite filter_app. cbn.
    rewrite decide_False by (intros Hne; by apply Hne). cbn. apply app_nil_r. }
  apply returns_bind.
  eapply (returns_bound ge_period start_date df w df (columns d2) (rows d));
    [done| | |done|].
  { by apply frame_store, frame_store, frame_refl. }
  { cbn. rewrite lookup_insert_eq. f_equal.
    rewrite <- dated_rows. reflexivity. }
  intros cur1 w1 Hf1 Hcur1.
  apply returns_bind.
  eapply (returns_bound le_period end_date df w cur1 (columns d2)); [done..|].
  intros cur2 w2 Hf2 Hcur2. rewrite filter_filter_andb in Hcur2.
  apply returns_bind. eapply returns_drop; [done..|].
  intros l3 Hl3. eapply returns_reset_index.
  { cbn. by rewrite lookup_insert_eq. }
  intros out Hout. pose proof Hout as Hout'. cbn in Hout'.
  apply lookup_insert_None in Hout' as [Hout' Hne].
  apply HQ.
  - apply frame_alloc; [done|]. by apply frame_alloc.
  - destruct Hf2 as (_ & _ & _ & _ & Hnew). by apply Hnew.
  - cbn [heap with_heap]. rewrite lookup_insert_eq. f_equal.
    unfold drop_column. cbn [columns rows].
    f_equal; [exact Hfilter|]. by rewrite drop_dated.
Qed.

(** ** The loop *)

Lemma is_valid_fen_total fen : is_valid_fen fen = Ok (valid_fen fen).
Proof.
  unfold valid_fen, is_valid_fen, Res_try_except.
  by destruct (chess_Board fen ≫= _).
Qed.

Lemma extract_value_serialize ev :
  match extract_value ev with Ok v => v | Raise _ => VNone end
  = serialize (evaluation_value (Answered ev)).
Proof.
  unfold extract_value, evaluation_value.
  destruct (String.eqb _ _); [|done].
  by destruct (truediv_100 _).
Qed.

(** The [try] statement never lets an exception out: it appends exactly
    one value, the encoding of what the exchange produced. *)
Lemma try_evaluate_run index fen st w e :
  engine w = Some e →
  ∃ w' asked msgs,
    try_evaluate index fen st w
      = (w', Ok (append_eval (serialize (evaluation_value (exchange e fen))) st)) ∧
    heap w' = heap w ∧
    engine w' = Some (ask e fen).1 ∧
    engine_log w' = engine_log w ++ exchange_calls (fen, asked) ∧
    stdout w' = stdout w ++ msgs.
Proof.
  intros He. unfold try_evaluate, try_except, exchange, ask.
  unfold mbind, M_bind, stockfish_set_fen_position. rewrite He.
  destruct (set_fen_position e fen) as [e1 [[]|x]] eqn:Hset; cbn.
  - destruct (get_evaluation e1) as [e2 [ev|x]] eqn:Hget; cbn.
    + pose proof (extract_value_serialize ev) as Hx.
      unfold evaluation_value in Hx. rewrite <- Hx. clear Hx.
      destruct (extract_value ev) as [v|x]; cbn.
      * eexists _, true, [].
        repeat split; cbn; rewrite <- ?app_assoc, ?app_nil_r; done.
      * eexists _, true, [_].
        repeat split; cbn; rewrite <- ?app_assoc, ?app_nil_r; done.
    + eexists _, true, [_].
      repeat split; cbn; rewrite <- ?app_assoc, ?app_nil_r; done.
  - eexists _, false, [_].
    repeat split; cbn; rewrite <- ?app_assoc, ?app_nil_r; done.
Qed.

Lemma has_fen_lookup ir :
  has_fen ir = true → ir.2 !! "fen" = Some (VStr (fen_of ir)).
Proof.
  unfold has_fen, fen_of. destruct (ir.2 !! "fen") as [[]|]; done.
Qed.

(** One iteration on a row whose [fen] is a string. *)
Lemma loop_body_run total st ir w e :
  engine w = Some e →
  has_fen ir = true →
  ∃ w' xs msgs,
    loop_body total st ir w
      = (w', Ok (if valid_fen (fen_of ir)
                 then append_eval (serialize (evaluation_value (exchange e (fen_of ir)))) st
                 else {| evals := evals st ++ [VNone];
                         invalid_count := invalid_count st + 1 |})) ∧
    heap w' = heap w ∧
    engine w' = Some (if valid_fen (fen_of ir) then (ask e (fen_of ir)).1 else e) ∧
    engine_log w' = engine_log w ++ flat_map exchange_calls xs ∧
    map fst xs = (if valid_fen (fen_of ir) then [fen_of ir] else []) ∧
    stdout w' = stdout w ++ msgs.
Proof.
  intros He Hfen. apply has_fen_lookup in Hfen.
  destruct ir as [index row]. cbn in Hfen. unfold loop_body.
  unfold mbind at 1, M_bind at 1, lift at 1, row_getitem. rewrite Hfen.
  unfold mbind at 1, M_bind at 1, lift at 1, as_str.
  unfold mbind at 1, M_bind at 1, lift at 1. rewrite is_valid_fen_total.
  destruct (valid_fen _) eqn:Hvalid; cbn [negb].
  - destruct (try_evaluate_run index (fen_of (index, row)) st w e He)
      as (w1 & asked & msgs & Hrun & Hheap & Heng & Hlog & Hout).
    unfold mbind at 1, M_bind at 1. rewrite Hrun.
    case_bool_decide.
    + eexists _, [(_, asked)], (msgs ++ [_]).
      repeat split; cbn; try done.
      * by rewrite Hlog, app_nil_r.
      * by rewrite Hout, <- app_assoc.
    + eexists _, [(_, asked)], msgs.
      repeat split; cbn; try done. by rewrite Hlog, app_nil_r.
  - eexists _, [], [_]. cbn. rewrite app_nil_r. repeat split; done.
Qed.

(** The whole loop: it runs to completion, appends one value per row in
    row order, counts the rejected positions, hands the engine exactly
    the accepted ones and leaves the object store alone. *)
Lemma for_iterrows_run total rs : ∀ st w e,
  engine w = Some e →
  forallb has_fen rs = true →
  ∃ w' xs msgs,
    for_iterrows (loop_body total) rs st w
      = (w', Ok {| evals := evals st
                     ++ map (λ o, serialize (evaluation_value o))
                            (outcomes e (map fen_of rs));
                   invalid_count := invalid_count st
                     + Z.of_nat (length (List.filter is_Invalid
                                           (outcomes e (map fen_of rs)))) |}) ∧
    heap w' = heap w ∧
    engine w' = Some (engine_after e (map fen_of rs)) ∧
    engine_log w' = engine_log w ++ flat_map exchange_calls xs ∧
    map fst xs = List.filter valid_fen (map fen_of rs) ∧
    stdout w' = stdout w ++ msgs.
Proof.
  induction rs as [|ir rs IH]; intros st w e He Hall.
  - exists w, [], []. cbn. rewrite !app_nil_r, Z.add_0_r. by destruct st.
  - cbn in Hall. apply andb_true_iff in Hall as [Hfen Hall].
    destruct (loop_body_run total st ir w e He Hfen)
      as (w1 & xs1 & msgs1 & Hrun & Hheap1 & Heng1 & Hlog1 & Hargs1 & Hout1).
    cbn [for_iterrows]. unfold mbind at 1, M_bind at 1. rewrite Hrun.
    cbn [map outcomes engine_after List.filter].
    destruct (valid_fen (fen_of ir)).
    + destruct (IH (append_eval (serialize (evaluation_value (exchange e (fen_of ir)))) st)
                  w1 _ Heng1 Hall)
        as (w2 & xs2 & msgs2 & Hrun2 & Hheap2 & Heng2 & Hlog2 & Hargs2 & Hout2).
      exists w2, (xs1 ++ xs2), (msgs1 ++ msgs2). rewrite Hrun2. cbn.
      rewrite <- app_assoc. cbn.
      assert (is_Invalid (exchange e (fen_of ir)) = false) as ->.
      { unfold exchange. by destruct (ask e (fen_of ir)).2. }
      repeat split; try congruence.
      * rewrite Hlog2, Hlog1, flat_map_app. by rewrite app_assoc.
      * rewrite map_app. by rewrite Hargs1, Hargs2.
      * rewrite Hout2, Hout1. by rewrite app_assoc.
    + destruct (IH {| evals := evals st ++ [VNone];
                      invalid_count := invalid_count st + 1 |} w1 e Heng1 Hall)
        as (w2 & xs2 & msgs2 & Hrun2 & Hheap2 & Heng2 & Hlog2 & Hargs2 & Hout2).
      exists w2, (xs1 ++ xs2), (msgs1 ++ msgs2). rewrite Hrun2. cbn.
      rewrite <- app_assoc. cbn.
      repeat split; try congruence.
      * do 3 f_equal. lia.
      * rewrite Hlog2, Hlog1, flat_map_app. by rewrite app_assoc.
      * rewrite map_app. by rewrite Hargs1, Hargs2.
      * rewrite Hout2, Hout1. by rewrite app_assoc.
Qed.

(** ** The whole function *)

Lemma length_outcomes fens : ∀ e, length (outcomes e fens) = length fens.
Proof.
  induction fens as [|fen fens IH]; intros e; [done|]. cbn.
  destruct (valid_fen fen); cbn; by rewrite IH.
Qed.

Lemma fen_of_converted ir : fen_of (converted ir) = fen_of ir.
Proof.
  unfold fen_of, converted. cbn.
  by rewrite lookup_delete_ne, lookup_insert_ne.
Qed.

Lemma has_fen_converted ir : has_fen (converted ir) = has_fen ir.
Proof.
  unfold has_fen, converted. cbn.
  by rewrite lookup_delete_ne, lookup_insert_ne.
Qed.

Lemma snd_imap (g : nat → Z) (rs : list (Z * gmap string Value)) :
  map snd (imap (λ i ir, (g i, ir.2)) rs) = map snd rs.
Proof.
  revert g. induction rs as [|ir rs IH]; intros g; [done|]. cbn. f_equal.
  apply (IH (g ∘ S)).
Qed.

Lemma snd_relabel rs : map snd (relabel rs) = map snd rs.
Proof. apply snd_imap. Qed.

Lemma length_relabel rs : length (relabel rs) = length rs.
Proof. apply length_imap. Qed.

Lemma forallb_snd (f : Z * gmap string Value → bool) rs rs' :
  (∀ ir ir', ir.2 = ir'.2 → f ir = f ir') →
  map snd rs = map snd rs' → forallb f rs = forallb f rs'.
Proof.
  intros Hf. revert rs'. induction rs as [|ir rs IH]; intros [|ir' rs'] Heq; try done.
  cbn in *. injection Heq as Hhd Htl. by rewrite (Hf ir ir'), (IH rs').
Qed.

Lemma map_snd_ext {B} (f : Z * gmap string Value → B) rs rs' :
  (∀ ir ir', ir.2 = ir'.2 → f ir = f ir') →
  map snd rs = map snd rs' → map f rs = map f rs'.
Proof.
  intros Hf. revert rs'. induction rs as [|ir rs IH]; intros [|ir' rs'] Heq; try done.
  cbn in *. injection Heq as Hhd Htl. by rewrite (Hf ir ir'), (IH rs').
Qed.

Lemma fen_of_relabel rs : map fen_of (relabel rs) = map fen_of rs.
Proof.
  apply map_snd_ext, snd_relabel. intros ir ir' Heq. unfold fen_of. by rewrite Heq.
Qed.

Lemma has_fen_survivors start_date end_date d :
  forallb has_fen (rows d) = true →
  forallb has_fen (survivors start_date end_date d) = true.
Proof.
  intros Hall. unfold survivors. destruct (_ || _); [|done].
  rewrite (forallb_snd has_fen _ (map converted (List.filter (passes start_date end_date) (rows d)))).
  - apply forallb_forall. intros ir Hir.
    apply in_map_iff in Hir as (ir' & <- & Hir'). apply filter_In in Hir' as [Hir' _].
    rewrite forallb_forall in Hall. specialize (Hall _ Hir').
    by rewrite has_fen_converted.
  - intros ir ir' Heq. unfold has_fen. by rewrite Heq.
  - apply snd_relabel.
Qed.

(** Lines 46-63: the frame the loop will run over is a fresh object that
    holds the survivors; no object that existed before is written to. *)
Lemma select_returns df d start_date end_date w (Q : loc → World → Prop) :
  heap w !! df = Some d →
  date_ready start_date end_date d = true →
  (∀ out w' cols,
     frame df w w' →
     out = df ∨ heap w !! out = None →
     heap w' !! out = Some {| columns := cols; rows := survivors start_date end_date d |} →
     Q out w') →
  returns (if is_not_None start_date || is_not_None end_date
           then date_filter df start_date end_date
           else mret df) w Q.
Proof.
  intros Hd Hready HQ. unfold date_ready, survivors in *.
  destruct (_ || _).
  - apply andb_true_iff in Hready as [Hready Hend].
    apply andb_true_iff in Hready as [Hready Hstart].
    apply andb_true_iff in Hready as [Hdate Hparse].
    apply bool_decide_eq_true in Hdate.
    eapply date_filter_returns; [done..|].
    intros out w' Hframe Hfresh Hout. eapply HQ; [done|by right|done].
  - apply returns_ret. apply (HQ df w (columns d)); [apply frame_refl|by left|].
    by destruct d.
Qed.

(** A run of [add_eval] on a stored frame whose [fen] values are strings,
    with an engine that starts and, when a bound is given, dates and
    bounds that parse. *)
Lemma add_eval_run move_df d depth start_date end_date e0 w :
  heap w !! move_df = Some d →
  forallb has_fen (rows d) = true →
  date_ready start_date end_date d = true →
  Stockfish STOCK_PATH depth = Ok e0 →
  let rs := survivors start_date end_date d in
  let os := outcomes e0 (map fen_of rs) in
  ∃ w' out cols xs msgs,
    add_eval move_df depth start_date end_date w = (w', Ok out) ∧
    heap w !! out = None ∧
    (∀ l, is_Some (heap w !! l) → heap w' !! l = heap w !! l) ∧
    heap w' !! out = Some (enriched cols rs e0) ∧
    engine_log w' = engine_log w ++ CallInit STOCK_PATH depth :: flat_map exchange_calls xs ∧
    map fst xs = List.filter valid_fen (map fen_of rs) ∧
    stdout w' = stdout w ++ msgs
      ++ [newline +:+ "Completed: " +:+ pretty (Z.of_nat (length rs)) +:+ " positions";
          "Invalid FENs: " +:+ pretty (Z.of_nat (length (List.filter is_Invalid os)))].
Proof.
  intros Hd Hfen Hready Heng rs os.
  enough (returns (add_eval move_df depth start_date end_date) w (λ out w',
    ∃ cols xs msgs,
      heap w !! out = None ∧
      (∀ l, is_Some (heap w !! l) → heap w' !! l = heap w !! l) ∧
      heap w' !! out = Some (enriched cols rs e0) ∧
      engine_log w' = engine_log w ++ CallInit STOCK_PATH depth :: flat_map exchange_calls xs ∧
      map fst xs = List.filter valid_fen (map fen_of rs) ∧
      stdout w' = stdout w ++ msgs
        ++ [newline +:+ "Completed: " +:+ pretty (Z.of_nat (length rs)) +:+ " positions";
            "Invalid FENs: " +:+ pretty (Z.of_nat (length (List.filter is_Invalid os)))]))
    as (out & w' & Hrun & cols & xs & msgs & Hpost).
  { by exists w', out, cols, xs, msgs. }
  unfold add_eval.
  apply returns_bind. unfold DataFrame_copy.
  apply returns_bind, (returns_load _ d); [done|].
  apply returns_alloc. intros l1 Hl1.
  apply returns_bind. eapply (select_returns l1 d).
  { cbn. by rewrite lookup_insert_eq. }
  { done. }
  intros out w2 cols (Hout2 & Heng2 & Hlog2 & Hkeep2 & Hnew2) Hfresh Hobj.
  cbn in Hout2, Heng2, Hlog2, Hkeep2, Hnew2, Hfresh.
  assert (Hout : heap w !! out = None).
  { destruct Hfresh as [->|Hfresh]; [done|].
    apply lookup_insert_None in Hfresh. tauto. }
  assert (Hsource : ∀ l, is_Some (heap w !! l) → heap w2 !! l = heap w !! l).
  { intros l Hl. assert (l ≠ l1) as Hne.
    { intros ->. rewrite Hl1 in Hl. by destruct Hl. }
    transitivity (<[l1:=d]> (heap w) !! l); [|by rewrite lookup_insert_ne].
    apply Hkeep2; [done|]. by rewrite lookup_insert_ne. }
  apply returns_bind.
  set (w3 := log_call (CallInit STOCK_PATH depth) (Some e0) w2).
  exists (), w3. split.
  { unfold Stockfish_new. by rewrite Heng. }
  apply returns_bind, (returns_load _ {| columns := cols; rows := rs |}); [done|].
  cbn [rows].
  destruct (for_iterrows_run (Z.of_nat (length rs)) rs
              {| evals := []; invalid_count := 0 |} w3 e0 eq_refl)
    as (w4 & xs & msgs & Hrun & Hheap4 & Heng4 & Hlog4 & Hargs & Hout4).
  { by apply has_fen_survivors. }
  apply returns_bind. eexists _, w4. split; [exact Hrun|]. cbn [evals invalid_count].
  rewrite app_nil_l, Z.add_0_l.
  apply returns_bind. eapply returns_setitem.
  { rewrite Hheap4. exact Hobj. }
  { cbn. by rewrite length_map, length_outcomes, length_map. }
  apply returns_bind, returns_print. apply returns_bind, returns_print.
  apply returns_ret. exists cols, xs, msgs. cbn.
  repeat split.
  - done.
  - intros l Hl. rewrite lookup_insert_ne.
    + rewrite Hheap4. by apply Hsource.
    + intros ->. rewrite Hout in Hl. by destruct Hl.
  - by rewrite lookup_insert_eq.
  - rewrite Hlog4. cbn. rewrite Hlog2. by rewrite <- app_assoc.
  - done.
  - rewrite Hout4. cbn. rewrite Hout2. by rewrite <- !app_assoc.
Qed.

(** ** Output rows against input rows *)

Lemma map_fmap {A B} (f : A → B) (l : list A) : map f l = f <$> l.
Proof. reflexivity. Qed.

Lemma snd_survivors start_date end_date d :
  map snd (survivors start_date end_date d)
  = map (carried start_date end_date) (kept start_date end_date d).
Proof.
  unfold survivors, kept, carried. destruct (_ || _); [|done].
  by rewrite snd_relabel, map_map.
Qed.

Lemma fen_of_survivors start_date end_date d :
  map fen_of (survivors start_date end_date d)
  = map fen_of (kept start_date end_date d).
Proof.
  unfold survivors, kept. destruct (_ || _); [|done].
  rewrite fen_of_relabel, map_map. apply map_ext, fen_of_converted.
Qed.

Lemma length_survivors start_date end_date d :
  length (survivors start_date end_date d) = length (kept start_date end_date d).
Proof.
  rewrite <- (length_map snd), snd_survivors. apply length_map.
Qed.

Lemma kept_unfiltered d : kept None None d = rows d.
Proof. reflexivity. Qed.

Lemma outcomes_lookup fens : ∀ e i fen,
  fens !! i = Some fen →
  outcomes e fens !! i
  = Some (if valid_fen fen
          then exchange (engine_after e (take i fens)) fen
          else Invalid).
Proof.
  induction fens as [|f fens IH]; intros e i fen Hi; [done|].
  destruct i as [|i]; cbn in *.
  - injection Hi as ->. by destruct (valid_fen fen).
  - destruct (valid_fen f); cbn; by apply IH.
Qed.

Lemma count_Invalid fens : ∀ e,
  length (List.filter is_Invalid (outcomes e fens))
  = length (List.filter (λ fen, negb (valid_fen fen)) fens).
Proof.
  induction fens as [|f fens IH]; intros e; [done|]. cbn.
  destruct (valid_fen f); cbn.
  - unfold exchange. destruct (ask e f).2; cbn; apply IH.
  - f_equal. apply IH.
Qed.

Lemma filter_map_comm {A B} (f : B → bool) (g : A → B) (l : list A) :
  List.filter f (map g l) = map g (List.filter (λ x, f (g x)) l).
Proof.
  induction l as [|x l IH]; [done|]. cbn. destruct (f (g x)); cbn; by rewrite IH.
Qed.

Lemma enriched_lookup start_date end_date d cols e0 i r :
  kept start_date end_date d !! i = Some r →
  ∃ label,
    rows (enriched cols (survivors start_date end_date d) e0) !! i
    = Some (label,
            <["eval" := serialize
                 (evaluation_at e0 (map fen_of (kept start_date end_date d)) i (fen_of r))]>
              (carried start_date end_date r)).
Proof.
  intros Hr. unfold enriched, set_column. cbn [rows].
  rewrite fen_of_survivors.
  assert (map snd (survivors start_date end_date d) !! i
          = Some (carried start_date end_date r)) as Hs.
  { rewrite snd_survivors, map_fmap, list_lookup_fmap. by rewrite Hr. }
  rewrite map_fmap, list_lookup_fmap in Hs.
  destruct (survivors start_date end_date d !! i) as [[label row]|] eqn:Hsi; [|done].
  cbn in Hs. injection Hs as ->. exists label.
  rewrite lookup_zip_with, Hsi. cbn.
  rewrite map_fmap, list_lookup_fmap.
  rewrite (outcomes_lookup _ _ i (fen_of r)); [done|].
  rewrite map_fmap, list_lookup_fmap. by rewrite Hr.
Qed.

Lemma length_enriched cols rs e0 : length (rows (enriched cols rs e0)) = length rs.
Proof.
  unfold enriched, set_column. cbn.
  rewrite length_zip_with, length_map, length_outcomes, length_map. lia.
Qed.

Lemma columns_enriched cols rs e0 : "eval" ∈ columns (enriched cols rs e0).
Proof.
  unfold enriched, set_column. cbn. case_bool_decide; [done|]. set_solver.
Qed.

(** ** Runs that fail *)

Lemma raises_bind_l {A B} (m : M A) (f : A → M B) w Q :
  raises m w Q → raises (m ≫= f) w Q.
Proof.
  intros (e & w' & Hm & HQ). exists e, w'. split; [|done].
  unfold mbind, M_bind. by rewrite Hm.
Qed.

Lemma raises_bind_r {A B} (m : M A) (f : A → M B) w Q :
  returns m w (λ a w', raises (f a) w' Q) → raises (m ≫= f) w Q.
Proof.
  intros (a & w1 & Hm & e & w2 & Hf & HQ). exists e, w2. split; [|done].
  unfold mbind, M_bind. by rewrite Hm.
Qed.

Lemma raises_raise {A} e w (Q : Exception → World → Prop) :
  Q e w → raises (raise (A := A) e) w Q.
Proof. intros HQ. by exists e, w. Qed.

Lemma raises_lift {A} (r : Res A) e w (Q : Exception → World → Prop) :
  r = Raise e → Q e w → raises (lift r) w Q.
Proof. intros -> HQ. by exists e, w. Qed.

Lemma to_datetime_raises d :
  forallb date_parses (rows d) = false →
  ∃ e, to_datetime (column_values "date" d) = Raise e.
Proof.
  intros Hall. unfold to_datetime, column_values.
  assert (∃ ir, ir ∈ rows d ∧ date_parses ir = false) as (ir & Hir & Hp).
  { induction (rows d) as [|ir rs IH]; [done|]. cbn in Hall.
    destruct (date_parses ir) eqn:Hp.
    - destruct (IH Hall) as (ir' & ? & ?). exists ir'. split; [by right|done].
    - exists ir. split; [by left|done]. }
  unfold date_parses in Hp.
  destruct (to_datetime_scalar (cell "date" ir.2)) as [|e] eqn:He; [done|].
  eapply (mapM_Res_raise _ _ (cell "date" ir.2) e); [|done].
  apply list_elem_of_In, in_map_iff. exists ir. split; [done|].
  by apply list_elem_of_In.
Qed.

(** A run that gets no further than the date filter: the copy made on
    line 46 is the only object written to. *)
Lemma add_eval_filter_raises move_df d depth start_date end_date w
    (Q : Exception → World → Prop) :
  heap w !! move_df = Some d →
  is_not_None start_date || is_not_None end_date = true →
  (∀ l w1, heap w !! l = None → heap w1 !! l = Some d → frame l w w1 →
     raises (date_filter l start_date end_date) w1 Q) →
  raises (add_eval move_df depth start_date end_date) w Q.
Proof.
  intros Hd Hfilter Hraises. unfold add_eval.
  apply raises_bind_r. unfold DataFrame_copy.
  apply returns_bind, (returns_load _ d); [done|].
  apply returns_alloc. intros l Hl. rewrite Hfilter.
  apply raises_bind_l, Hraises; [done|..].
  - cbn. by rewrite lookup_insert_eq.
  - by apply frame_alloc, frame_refl.
Qed.

Lemma frame_source l w0 w :
  heap w0 !! l = None → frame l w0 w →
  (∀ l', is_Some (heap w0 !! l') → heap w !! l' = heap w0 !! l') ∧
  stdout w = stdout w0 ∧ engine_untouched w0 w.
Proof.
  intros Hl (? & ? & ? & Hkeep & _). repeat split; try done.
  intros l' Hl'. apply Hkeep; [|done]. intros ->. rewrite Hl in Hl'. by destruct Hl'.
Qed.

(** ** Year-month order *)

Lemma month_num_range m : 1 ≤ month_num m ≤ 12.
Proof. destruct m; cbn; lia. Qed.

Lemma ordinal_ym_leb p q :
  (ordinal p <=? ordinal q) = ym_leb (p_year p, p_month p) (p_year q, p_month q).
Proof.
  unfold ordinal, ym_leb. cbn.
  pose proof (month_num_range (p_month p)). pose proof (month_num_range (p_month q)).
  destruct (Z.leb_spec ((p_year p - 1970) * 12 + (month_num (p_month p) - 1))
                       ((p_year q - 1970) * 12 + (month_num (p_month q) - 1)));
    destruct (Z.ltb_spec (p_year p) (p_year q)); cbn; try done; try lia;
    destruct (Z.eqb_spec (p_year p) (p_year q)); cbn; try lia;
    destruct (Z.leb_spec (month_num (p_month p)) (month_num (p_month q))); lia.
Qed.

Lemma passes_spec_retained start_date end_date ir :
  is_not_None start_date || is_not_None end_date = true →
  bound_parses start_date = true →
  bound_parses end_date = true →
  passes start_date end_date ir
  = spec_retained (bound_of start_date) (bound_of end_date) ir.
Proof.
  intros Hfilter Hstart Hend. unfold passes, spec_retained.
  assert (∀ v, parsed_date ir = v →
            (∃ t, v = VTimestamp t) ∨ v = VNaT) as Hshape.
  { intros v <-. unfold parsed_date, to_datetime_scalar.
    destruct (cell "date" ir.2); eauto; destruct (parse_datetime _); eauto. }
  destruct (Hshape _ eq_refl) as [[t ->]| ->]; cbn.
  - unfold Period_ge, Period_le. f_equal.
    + destruct (bound_of start_date) as [p|]; [|done]. apply ordinal_ym_leb.
    + destruct (bound_of end_date) as [p|]; [|done].
      apply (ordinal_ym_leb {| p_year := ts_year t; p_month := ts_month t |} p).
  - destruct start_date as [s|], end_date as [s'|]; cbn in *; try done.
    + destruct (pd_Period s); [|done]. done.
    + destruct (pd_Period s); [|done]. done.
    + destruct (pd_Period s'); [|done]. done.
Qed.

End Runs.

(** * The claims *)

Section Claims.
Context `{Libraries}.

(** C1: on a stored frame whose positions are strings, with an engine
    that starts and (when a bound is given) dates and bounds that parse,
    [add_eval] returns a frame with an [eval] column whose rows are the
    date-filtered input rows, one for one and in the same order, each
    with exactly one evaluation value written to [eval]; with no bound
    the output is as long as the input. *)
Theorem add_eval_one_row_per_survivor move_df d depth start_date end_date e0 w :
  heap w !! move_df = Some d →
  forallb has_fen (rows d) = true →
  date_ready start_date end_date d = true →
  Stockfish STOCK_PATH depth = Ok e0 →
  ∃ w' out d',
    add_eval move_df depth start_date end_date w = (w', Ok out) ∧
    heap w' !! out = Some d' ∧
    "eval" ∈ columns d' ∧
    length (rows d') = length (kept start_date end_date d) ∧
    (start_date = None → end_date = None → length (rows d') = length (rows d)) ∧
    Forall2 (λ o i, ∃ ev : EvaluationValue,
               o.2 = <["eval" := serialize ev]> (carried start_date end_date i))
            (rows d') (kept start_date end_date d).
Proof.
  intros Hd Hfen Hready Heng.
  destruct (add_eval_run move_df d depth start_date end_date e0 w Hd Hfen Hready Heng)
    as (w' & out & cols & xs & msgs & Hrun & _ & _ & Hout & _).
  exists w', out, (enriched cols (survivors start_date end_date d) e0).
  split; [done|]. split; [done|]. split; [apply columns_enriched|].
  split; [by rewrite length_enriched, length_survivors|].
  split. { intros -> ->. by rewrite length_enriched. }
  apply Forall2_same_length_lookup. split.
  - by rewrite length_enriched, length_survivors.
  - intros i o r Ho Hr.
    destruct (enriched_lookup start_date end_date d cols e0 i r Hr) as [label Hl].
    rewrite Hl in Ho. injection Ho as <-. by eexists.
Qed.

(** C2: a record whose position the validator rejects gets the
    unavailable evaluation; the positions handed to the engine are exactly
    the accepted ones, in order, so no call is made on the engine for a
    rejected record; every surviving record is processed; and the final
    line of output reports as many invalid positions as were rejected. *)
Theorem invalid_fen_is_unavailable_and_skips_engine
    move_df d depth start_date end_date e0 w :
  heap w !! move_df = Some d →
  forallb has_fen (rows d) = true →
  date_ready start_date end_date d = true →
  Stockfish STOCK_PATH depth = Ok e0 →
  ∃ w' out d' xs msgs,
    add_eval move_df depth start_date end_date w = (w', Ok out) ∧
    heap w' !! out = Some d' ∧
    length (rows d') = length (kept start_date end_date d) ∧
    (∀ i r, kept start_date end_date d !! i = Some r →
            valid_fen (fen_of r) = false →
            ∃ o, rows d' !! i = Some o ∧ o.2 !! "eval" = Some (serialize Unavailable)) ∧
    engine_log w'
      = engine_log w ++ CallInit STOCK_PATH depth :: flat_map exchange_calls xs ∧
    map fst xs = List.filter valid_fen (map fen_of (kept start_date end_date d)) ∧
    stdout w'
      = stdout w ++ msgs
        ++ [newline +:+ "Completed: "
              +:+ pretty (Z.of_nat (length (kept start_date end_date d))) +:+ " positions";
            "Invalid FENs: "
              +:+ pretty (Z.of_nat (length (List.filter (λ r, negb (valid_fen (fen_of r)))
                                              (kept start_date end_date d))))].
Proof.
  intros Hd Hfen Hready Heng.
  destruct (add_eval_run move_df d depth start_date end_date e0 w Hd Hfen Hready Heng)
    as (w' & out & cols & xs & msgs & Hrun & _ & _ & Hout & Hlog & Hxs & Hprint).
  exists w', out, (enriched cols (survivors start_date end_date d) e0), xs, msgs.
  split; [done|]. split; [done|].
  split; [by rewrite length_enriched, length_survivors|].
  split.
  { intros i r Hr Hinvalid.
    destruct (enriched_lookup start_date end_date d cols e0 i r Hr) as [label Hl].
    eexists. split; [exact Hl|]. cbn. rewrite lookup_insert_eq.
    unfold evaluation_at. by rewrite Hinvalid. }
  split; [done|]. split; [by rewrite <- fen_of_survivors|].
  rewrite Hprint, length_survivors, count_Invalid, fen_of_survivors.
  by rewrite filter_map_comm, length_map.
Qed.

(** C3: when the exchange with the engine raises for the [i]-th surviving
    record, the run still returns a frame with one row per surviving
    record; that record's evaluation is unavailable; every accepted
    position, the later ones included, is still handed to the engine; and
    the evaluation of every other record is the one its own validation
    and its own exchange with the engine give. *)
Theorem engine_failure_is_isolated
    move_df d depth start_date end_date e0 w i fen x :
  heap w !! move_df = Some d →
  forallb has_fen (rows d) = true →
  date_ready start_date end_date d = true →
  Stockfish STOCK_PATH depth = Ok e0 →
  map fen_of (kept start_date end_date d) !! i = Some fen →
  valid_fen fen = true →
  (ask (engine_after e0 (take i (map fen_of (kept start_date end_date d)))) fen).2
    = Raise x →
  ∃ w' out d' xs,
    add_eval move_df depth start_date end_date w = (w', Ok out) ∧
    heap w' !! out = Some d' ∧
    length (rows d') = length (kept start_date end_date d) ∧
    (∃ o, rows d' !! i = Some o ∧ o.2 !! "eval" = Some (serialize Unavailable)) ∧
    engine_log w'
      = engine_log w ++ CallInit STOCK_PATH depth :: flat_map exchange_calls xs ∧
    map fst xs = List.filter valid_fen (map fen_of (kept start_date end_date d)) ∧
    (∀ j r, j ≠ i → kept start_date end_date d !! j = Some r →
       ∃ o, rows d' !! j = Some o ∧
            o.2 !! "eval"
            = Some (serialize (evaluation_at e0 (map fen_of (kept start_date end_date d))
                                 j (fen_of r)))).
Proof.
  intros Hd Hfen Hready Heng Hi Hvalid Hraise.
  destruct (add_eval_run move_df d depth start_date end_date e0 w Hd Hfen Hready Heng)
    as (w' & out & cols & xs & msgs & Hrun & _ & _ & Hout & Hlog & Hxs & _).
  exists w', out, (enriched cols (survivors start_date end_date d) e0), xs.
  split; [done|]. split; [done|].
  split; [by rewrite length_enriched, length_survivors|].
  split.
  { rewrite map_fmap, list_lookup_fmap in Hi.
    destruct (kept start_date end_date d !! i) as [r|] eqn:Hr; [|done].
    cbn in Hi. injection Hi as <-.
    destruct (enriched_lookup start_date end_date d cols e0 i r Hr) as [label Hl].
    eexists. split; [exact Hl|]. cbn. rewrite lookup_insert_eq.
    unfold evaluation_at, exchange. rewrite Hvalid.
    rewrite map_fmap in Hraise. rewrite map_fmap. by rewrite Hraise. }
  split; [done|]. split; [by rewrite <- fen_of_survivors|].
  intros j r _ Hr.
  destruct (enriched_lookup start_date end_date d cols e0 j r Hr) as [label Hl].
  eexists. split; [exact Hl|]. cbn. by rewrite lookup_insert_eq.
Qed.

(** C4: with a bound given and no [date] column, the call ends in the
    missing-column error (the [ValueError] of line 51); no call was made
    on the engine, nothing was printed and no object that existed
    before was changed. *)
Theorem missing_date_column_fails_before_engine
    move_df d depth start_date end_date w :
  heap w !! move_df = Some d →
  is_not_None start_date || is_not_None end_date = true →
  "date" ∉ columns d →
  ∃ w',
    add_eval move_df depth start_date end_date w
      = (w', Raise (ValueError "DataFrame must have 'date' column for date filtering")) ∧
    engine_untouched w w' ∧
    stdout w' = stdout w ∧
    (∀ l, is_Some (heap w !! l) → heap w' !! l = heap w !! l).
Proof.
  intros Hd Hfilter Hdate.
  enough (raises (add_eval move_df depth start_date end_date) w (λ e w',
    e = ValueError "DataFrame must have 'date' column for date filtering" ∧
    engine_untouched w w' ∧ stdout w' = stdout w ∧
    (∀ l, is_Some (heap w !! l) → heap w' !! l = heap w !! l)))
    as (e & w' & Hrun & -> & Hpost).
  { by exists w'. }
  eapply add_eval_filter_raises; [done..|].
  intros l w1 Hl Hw1 Hframe. unfold date_filter.
  apply raises_bind_r, (returns_load _ d); [done|].
  rewrite bool_decide_false by done. cbn [negb].
  apply raises_raise. split; [done|].
  destruct (frame_source l w w1 Hl Hframe) as (? & ? & ?). done.
Qed.

(** C5: when the engine answers for the [i]-th surviving record, a
    centipawn answer of value [v] is recorded as the score [v / 100.0]
    and a mate answer of value [m] as mate in [m].  The score is measured
    against the exact fraction: for [|v| < 2^53] it is the binary64
    number within half a unit in the last place of [v / 100], ties to
    even; for every [v] whose nearest double is finite it is the binary64
    quotient of that double by 100.  250 centipawns are the score 2.5,
    mate in -3 is written "M-3", and the encoding of a mate distance
    determines it, sign included. *)
Theorem engine_answer_is_mapped
    move_df d depth start_date end_date e0 w i fen ev :
  heap w !! move_df = Some d →
  forallb has_fen (rows d) = true →
  date_ready start_date end_date d = true →
  Stockfish STOCK_PATH depth = Ok e0 →
  map fen_of (kept start_date end_date d) !! i = Some fen →
  valid_fen fen = true →
  (ask (engine_after e0 (take i (map fen_of (kept start_date end_date d)))) fen).2
    = Ok ev →
  ∃ w' out d' o,
    add_eval move_df depth start_date end_date w = (w', Ok out) ∧
    heap w' !! out = Some d' ∧
    rows d' !! i = Some o ∧
    (ev_type ev = "cp" → Z.abs (ev_value ev) < 2 ^ 53 →
       ∃ q, o.2 !! "eval" = Some (serialize (Score q)) ∧
            nearest_hundredth (ev_value ev) (Prim2SF q) = true) ∧
    (ev_type ev = "cp" →
       (∀ s, binary_normalize 53 1024 (ev_value ev) 0 false ≠ S754_infinity s) →
       o.2 !! "eval"
       = Some (serialize
                 (Score (SF2Prim (binary_normalize 53 1024 (ev_value ev) 0 false)
                         / 100)))) ∧
    (ev_type ev = "cp" → ev_value ev = 250 →
       o.2 !! "eval" = Some (serialize (Score 2.5))) ∧
    (ev_type ev = "mate" →
       o.2 !! "eval" = Some (serialize (MateIn (ev_value ev)))) ∧
    serialize (MateIn (-3)) = VStr "M-3" ∧
    (∀ m m', serialize (MateIn m) = serialize (MateIn m') → m = m').
Proof.
  intros Hd Hfen Hready Heng Hi Hvalid Hanswer.
  destruct (add_eval_run move_df d depth start_date end_date e0 w Hd Hfen Hready Heng)
    as (w' & out & cols & xs & msgs & Hrun & _ & _ & Hout & _).
  rewrite map_fmap, list_lookup_fmap in Hi.
  destruct (kept start_date end_date d !! i) as [r|] eqn:Hr; [|done].
  cbn in Hi. injection Hi as <-.
  destruct (enriched_lookup start_date end_date d cols e0 i r Hr) as [label Hl].
  eexists w', out, _, _. split; [done|]. split; [done|]. split; [exact Hl|].
  cbn [snd]. rewrite lookup_insert_eq.
  unfold evaluation_at, exchange. rewrite Hvalid.
  rewrite map_fmap in Hanswer. rewrite map_fmap, Hanswer.
  unfold evaluation_value.
  split.
  { intros Htype Hv. destruct (truediv_100_nearest (ev_value ev) Hv) as (q & Hq & Hnear).
    exists q. by rewrite Htype, Hq. }
  split.
  { intros Htype Hfinite. rewrite Htype. cbn [String.eqb Ascii.eqb Bool.eqb].
    unfold truediv_100, int_to_float.
    by destruct (binary_normalize 53 1024 (ev_value ev) 0 false) as [| s | |];
      [| destruct (Hfinite s) | |]. }
  split. { intros Htype Hv. by rewrite Htype, Hv. }
  split. { intros Htype. by rewrite Htype. }
  split; [reflexivity|].
  intros m m' Heq. cbn in Heq. injection Heq as Heq.
  change (pretty m = pretty m') in Heq. by apply (inj pretty) in Heq.
Qed.

(** C6: when a bound is given, the filtering step returns a new frame
    whose rows are the rows whose date's year-month lies between the
    bounds, both ends included and an omitted bound leaving its side
    open, in their input order; these are the rows [add_eval] goes on
    with. *)
Theorem date_filter_retains_year_month_range df d start_date end_date w :
  heap w !! df = Some d →
  is_not_None start_date || is_not_None end_date = true →
  date_ready start_date end_date d = true →
  ∃ w' out d',
    date_filter df start_date end_date w = (w', Ok out) ∧
    heap w' !! out = Some d' ∧
    map snd (rows d')
    = map (λ ir, (converted ir).2)
          (List.filter (spec_retained (bound_of start_date) (bound_of end_date))
                       (rows d)) ∧
    kept start_date end_date d
    = List.filter (spec_retained (bound_of start_date) (bound_of end_date)) (rows d).
Proof.
  intros Hd Hfilter Hready. unfold date_ready, kept in *. rewrite Hfilter in *.
  apply andb_true_iff in Hready as [Hready Hend].
  apply andb_true_iff in Hready as [Hready Hstart].
  apply andb_true_iff in Hready as [Hdate Hparse].
  apply bool_decide_eq_true in Hdate.
  assert (List.filter (passes start_date end_date) (rows d)
          = List.filter (spec_retained (bound_of start_date) (bound_of end_date)) (rows d))
    as Hspec.
  { apply List.filter_ext. intros ir. by apply passes_spec_retained. }
  enough (returns (date_filter df start_date end_date) w (λ out w', ∃ d',
    heap w' !! out = Some d' ∧
    map snd (rows d')
    = map (λ ir, (converted ir).2)
          (List.filter (spec_retained (bound_of start_date) (bound_of end_date)) (rows d))))
    as (out & w' & Hrun & d' & Hout & Hrows).
  { by exists w', out, d'. }
  eapply date_filter_returns; [done..|].
  intros out w' _ _ Hout. eexists. split; [exact Hout|]. cbn [rows].
  by rewrite snd_relabel, map_map, Hspec.
Qed.

(** C7: [is_valid_fen] always returns: false when the parser raises (or
    the legality check does), the legality of the position when it parses. *)
Theorem is_valid_fen_never_raises (fen : string) :
  is_valid_fen fen
  = Ok match chess_Board fen with
       | Ok board =>
           match Board_is_valid board with
           | Ok legal => legal
           | Raise _ => false
           end
       | Raise _ => false
       end.
Proof.
  unfold is_valid_fen, Res_try_except. cbn.
  destruct (chess_Board fen) as [board|]; cbn; [|done].
  by destruct (Board_is_valid board).
Qed.

(** C8, as amended: no object that existed before the call, the source
    frame among them, is changed; every output row agrees with its input
    row on every attribute other than [eval], [date] and [year_month];
    with no bound it agrees on every attribute other than [eval]; with a
    bound its [date] is the timestamp parsed from the input's date. *)
Theorem source_unmodified_and_attributes_carried
    move_df d depth start_date end_date e0 w :
  heap w !! move_df = Some d →
  forallb has_fen (rows d) = true →
  date_ready start_date end_date d = true →
  Stockfish STOCK_PATH depth = Ok e0 →
  ∃ w' out d',
    add_eval move_df depth start_date end_date w = (w', Ok out) ∧
    heap w' !! out = Some d' ∧
    heap w' !! move_df = Some d ∧
    (∀ l, is_Some (heap w !! l) → heap w' !! l = heap w !! l) ∧
    Forall2 (λ o i,
        (∀ c, c ≠ "eval" → c ≠ "date" → c ≠ "year_month" → o.2 !! c = i.2 !! c) ∧
        (if is_not_None start_date || is_not_None end_date
         then o.2 !! "date" = Some (parsed_date i)
         else ∀ c, c ≠ "eval" → o.2 !! c = i.2 !! c))
      (rows d') (kept start_date end_date d).
Proof.
  intros Hd Hfen Hready Heng.
  destruct (add_eval_run move_df d depth start_date end_date e0 w Hd Hfen Hready Heng)
    as (w' & out & cols & xs & msgs & Hrun & _ & Hsource & Hout & _).
  exists w', out, (enriched cols (survivors start_date end_date d) e0).
  split; [done|]. split; [done|].
  split. { rewrite Hsource; [done|]. by eexists. }
  split; [done|].
  apply Forall2_same_length_lookup. split.
  - by rewrite length_enriched, length_survivors.
  - intros i o r Ho Hr.
    destruct (enriched_lookup start_date end_date d cols e0 i r Hr) as [label Hl].
    rewrite Hl in Ho. injection Ho as <-. cbn [snd].
    unfold carried, converted. destruct (_ || _); cbn [snd].
    + split.
      * intros c Heval Hdate Hym.
        by rewrite lookup_insert_ne, lookup_delete_ne, lookup_insert_ne.
      * rewrite lookup_insert_ne, lookup_delete_ne by done.
        by rewrite lookup_insert_eq.
    + split; intros c Heval; intros; by rewrite lookup_insert_ne.
Qed.

(** C10: with a bound given and a [date] column holding a value that does
    not convert, the call ends in an exception and returns no frame; no
    call was made on the engine, nothing was printed and no object that
    existed before was changed. *)
Theorem unparseable_date_fails_before_engine
    move_df d depth start_date end_date w :
  heap w !! move_df = Some d →
  is_not_None start_date || is_not_None end_date = true →
  "date" ∈ columns d →
  forallb date_parses (rows d) = false →
  ∃ w' e,
    add_eval move_df depth start_date end_date w = (w', Raise e) ∧
    to_datetime (column_values "date" d) = Raise e ∧
    engine_untouched w w' ∧
    stdout w' = stdout w ∧
    (∀ l, is_Some (heap w !! l) → heap w' !! l = heap w !! l).
Proof.
  intros Hd Hfilter Hdate Hparse.
  destruct (to_datetime_raises d Hparse) as [e He].
  enough (raises (add_eval move_df depth start_date end_date) w (λ e' w',
    e' = e ∧ engine_untouched w w' ∧ stdout w' = stdout w ∧
    (∀ l, is_Some (heap w !! l) → heap w' !! l = heap w !! l)))
    as (e' & w' & Hrun & -> & Hpost).
  { by exists w', e. }
  eapply add_eval_filter_raises; [done..|].
  intros l w1 Hl Hw1 Hframe. unfold date_filter.
  apply raises_bind_r, (returns_load _ d); [done|].
  rewrite bool_decide_true by done. cbn [negb].
  apply raises_bind_r. eapply returns_getitem; [done..|].
  apply raises_bind_l. eapply raises_lift; [exact He|].
  split; [done|].
  destruct (frame_source l w w1 Hl Hframe) as (? & ? & ?). done.
Qed.

End Claims.

(** * Further properties of [add_eval] *)

Section Further.
Context `{Libraries}.

(** ** Runs, exactly *)

(** A property of the outcome of [m ≫= f] follows from one of the outcome
    of [f] on what [m] returns. *)
Lemma bind_inv {A B} (m : M A) (f : A → M B) w (Φ : World * Res B → Prop) :
  returns m w (λ a w', Φ (f a w')) → Φ ((m ≫= f) w).
Proof.
  intros (a & w' & Hm & HΦ). unfold mbind, M_bind. by rewrite Hm.
Qed.

Lemma bind_raise {A B} (m : M A) (f : A → M B) w w' x :
  m w = (w', Raise x) → (m ≫= f) w = (w', Raise x).
Proof. intros Hm. unfold mbind, M_bind. by rewrite Hm. Qed.

Lemma for_iterrows_app body rs1 rs2 : ∀ st w,
  for_iterrows body (rs1 ++ rs2) st w
  = match for_iterrows body rs1 st w with
    | (w1, Ok st1) => for_iterrows body rs2 st1 w1
    | (w1, Raise x) => (w1, Raise x)
    end.
Proof.
  induction rs1 as [|ir rs1 IH]; intros st w; [done|].
  cbn [app for_iterrows]. unfold mbind, M_bind.
  destruct (body st ir w) as [w1 [st1|x]]; [apply IH|done].
Qed.

Lemma try_evaluate_exact index fen st w e :
  engine w = Some e →
  ∃ w' asked,
    try_evaluate index fen st w
      = (w', Ok (append_eval (serialize (evaluation_value (exchange e fen))) st)) ∧
    heap w' = heap w ∧
    engine w' = Some (ask e fen).1 ∧
    engine_log w' = engine_log w ++ exchange_calls (fen, asked) ∧
    stdout w'
      = stdout w ++ match failure_of (exchange e fen) with
                    | Some x => [error_line index x]
                    | None => []
                    end.
Proof.
  intros He. unfold try_evaluate, try_except, exchange, ask, failure_of, error_line.
  unfold mbind, M_bind, stockfish_set_fen_position. rewrite He.
  destruct (set_fen_position e fen) as [e1 [[]|x]] eqn:Hset; cbn.
  - destruct (get_evaluation e1) as [e2 [ev|x]] eqn:Hget; cbn.
    + pose proof (extract_value_serialize ev) as Hx.
      unfold evaluation_value in Hx. rewrite <- Hx. clear Hx.
      destruct (extract_value ev) as [v|x]; cbn.
      * eexists _, true.
        repeat split; cbn; rewrite <- ?app_assoc, ?app_nil_r; done.
      * eexists _, true.
        repeat split; cbn; rewrite <- ?app_assoc, ?app_nil_r; done.
    + eexists _, true.
      repeat split; cbn; rewrite <- ?app_assoc, ?app_nil_r; done.
  - eexists _, false.
    repeat split; cbn; rewrite <- ?app_assoc, ?app_nil_r; done.
Qed.

Lemma loop_body_exact total st ir w e :
  engine w = Some e →
  has_fen ir = true →
  ∃ w' xs,
    loop_body total st ir w
      = (w', Ok (if valid_fen (fen_of ir)
                 then append_eval (serialize (evaluation_value (exchange e (fen_of ir)))) st
                 else {| evals := evals st ++ [VNone];
                         invalid_count := invalid_count st + 1 |})) ∧
    heap w' = heap w ∧
    engine w' = Some (if valid_fen (fen_of ir) then (ask e (fen_of ir)).1 else e) ∧
    engine_log w' = engine_log w ++ flat_map exchange_calls xs ∧
    map fst xs = (if valid_fen (fen_of ir) then [fen_of ir] else []) ∧
    stdout w'
      = stdout w
        ++ (if valid_fen (fen_of ir) then
              match failure_of (exchange e (fen_of ir)) with
              | Some x => [error_line ir.1 x]
              | None => []
              end
              ++ (if bool_decide ((ir.1 + 1) `mod` 50 = 0)
                  then [progress_line ir.1 total (invalid_count st)]
                  else [])
            else [invalid_line ir]).
Proof.
  intros He Hfen. pose proof (has_fen_lookup ir Hfen) as Hrow.
  destruct ir as [index row]. cbn in Hrow. unfold loop_body.
  unfold mbind at 1, M_bind at 1, lift at 1, row_getitem. rewrite Hrow.
  unfold mbind at 1, M_bind at 1, lift at 1, as_str.
  unfold mbind at 1, M_bind at 1, lift at 1. rewrite is_valid_fen_total.
  destruct (valid_fen _) eqn:Hvalid; cbn [negb].
  - destruct (try_evaluate_exact index (fen_of (index, row)) st w e He)
      as (w1 & asked & Hrun & Hheap & Heng & Hlog & Hout).
    unfold mbind at 1, M_bind at 1. rewrite Hrun. cbn [fst].
    destruct (bool_decide ((index + 1) `mod` 50 = 0)).
    + eexists _, [(_, asked)].
      repeat split; cbn; try done.
      * by rewrite Hlog, app_nil_r.
      * by rewrite Hout, <- app_assoc.
    + eexists _, [(_, asked)].
      repeat split; cbn; try done.
      * by rewrite Hlog, app_nil_r.
      * by rewrite Hout, app_nil_r.
  - eexists _, []. cbn. rewrite app_nil_r. repeat split; done.
Qed.

Lemma for_iterrows_exact total rs : ∀ st w e,
  engine w = Some e →
  forallb has_fen rs = true →
  ∃ w' xs,
    for_iterrows (loop_body total) rs st w
      = (w', Ok {| evals := evals st
                     ++ map (λ o, serialize (evaluation_value o))
                            (outcomes e (map fen_of rs));
                   invalid_count := invalid_count st + rejected (map fen_of rs) |}) ∧
    heap w' = heap w ∧
    engine w' = Some (engine_after e (map fen_of rs)) ∧
    engine_log w' = engine_log w ++ flat_map exchange_calls xs ∧
    map fst xs = List.filter valid_fen (map fen_of rs) ∧
    stdout w' = stdout w ++ loop_output total e (invalid_count st) rs.
Proof.
  unfold rejected.
  induction rs as [|ir rs IH]; intros st w e He Hall.
  - exists w, []. cbn. rewrite !app_nil_r, Z.add_0_r. by destruct st.
  - cbn in Hall. apply andb_true_iff in Hall as [Hfen Hall].
    destruct (loop_body_exact total st ir w e He Hfen)
      as (w1 & xs1 & Hrun & Hheap1 & Heng1 & Hlog1 & Hargs1 & Hout1).
    cbn [for_iterrows]. unfold mbind at 1, M_bind at 1. rewrite Hrun.
    cbn [map outcomes engine_after List.filter loop_output].
    destruct (valid_fen (fen_of ir)); cbn [negb].
    + destruct (IH (append_eval (serialize (evaluation_value (exchange e (fen_of ir)))) st)
                  w1 _ Heng1 Hall)
        as (w2 & xs2 & Hrun2 & Hheap2 & Heng2 & Hlog2 & Hargs2 & Hout2).
      exists w2, (xs1 ++ xs2). rewrite Hrun2. cbn.
      rewrite <- app_assoc. cbn.
      repeat split; try congruence.
      * rewrite Hlog2, Hlog1, flat_map_app. by rewrite app_assoc.
      * rewrite map_app. by rewrite Hargs1, Hargs2.
      * rewrite Hout2, Hout1. cbn. by rewrite <- !app_assoc.
    + destruct (IH {| evals := evals st ++ [VNone];
                      invalid_count := invalid_count st + 1 |} w1 e Heng1 Hall)
        as (w2 & xs2 & Hrun2 & Hheap2 & Heng2 & Hlog2 & Hargs2 & Hout2).
      exists w2, (xs1 ++ xs2). rewrite Hrun2. cbn.
      rewrite <- app_assoc. cbn.
      repeat split; try congruence.
      * do 3 f_equal. lia.
      * rewrite Hlog2, Hlog1, flat_map_app. by rewrite app_assoc.
      * rewrite map_app. by rewrite Hargs1, Hargs2.
      * rewrite Hout2, Hout1. cbn. by rewrite <- !app_assoc.
Qed.

Lemma select_exact df d start_date end_date w (Q : loc → World → Prop) :
  heap w !! df = Some d →
  date_ready start_date end_date d = true →
  (∀ out w',
     frame df w w' →
     out = df ∨ heap w !! out = None →
     heap w' !! out = Some {| columns := loop_columns start_date end_date d;
                              rows := survivors start_date end_date d |} →
     Q out w') →
  returns (if is_not_None start_date || is_not_None end_date
           then date_filter df start_date end_date
           else mret df) w Q.
Proof.
  intros Hd Hready HQ. unfold date_ready, survivors, loop_columns in *.
  destruct (_ || _).
  - apply andb_true_iff in Hready as [Hready Hend].
    apply andb_true_iff in Hready as [Hready Hstart].
    apply andb_true_iff in Hready as [Hdate Hparse].
    apply bool_decide_eq_true in Hdate.
    eapply date_filter_returns; [done..|].
    intros out w' Hframe Hfresh Hout. eapply HQ; [done|by right|done].
  - apply returns_ret. apply (HQ df w); [apply frame_refl|by left|].
    by destruct d.
Qed.

(** Lines 46-66 on a stored frame, with dates and bounds that parse and
    an engine that starts: the rest of the call runs [evaluate_rows] on a
    fresh object holding the survivors, with nothing printed yet and the
    engine just started. *)
Lemma add_eval_reaches_loop move_df d depth start_date end_date e0 w
    (Φ : World * Res loc → Prop) :
  heap w !! move_df = Some d →
  date_ready start_date end_date d = true →
  Stockfish STOCK_PATH depth = Ok e0 →
  (∀ out w3,
     heap w !! out = None →
     (∀ l, is_Some (heap w !! l) → heap w3 !! l = heap w !! l) →
     heap w3 !! out = Some {| columns := loop_columns start_date end_date d;
                              rows := survivors start_date end_date d |} →
     stdout w3 = stdout w →
     engine w3 = Some e0 →
     engine_log w3 = engine_log w ++ [CallInit STOCK_PATH depth] →
     Φ (evaluate_rows out (survivors start_date end_date d) w3)) →
  Φ (add_eval move_df depth start_date end_date w).
Proof.
  intros Hd Hready Heng HΦ. unfold add_eval.
  apply bind_inv. unfold DataFrame_copy.
  apply returns_bind, (returns_load _ d); [done|].
  apply returns_alloc. intros l1 Hl1.
  apply bind_inv. eapply (select_exact l1 d).
  { cbn. by rewrite lookup_insert_eq. }
  { done. }
  intros out w2 (Hout2 & Heng2 & Hlog2 & Hkeep2 & Hnew2) Hfresh Hobj.
  cbn in Hout2, Heng2, Hlog2, Hkeep2, Hnew2, Hfresh.
  assert (Hout : heap w !! out = None).
  { destruct Hfresh as [->|Hfresh]; [done|].
    apply lookup_insert_None in Hfresh. tauto. }
  assert (Hsource : ∀ l, is_Some (heap w !! l) → heap w2 !! l = heap w !! l).
  { intros l Hl. assert (l ≠ l1) as Hne.
    { intros ->. rewrite Hl1 in Hl. by destruct Hl. }
    transitivity (<[l1:=d]> (heap w) !! l); [|by rewrite lookup_insert_ne].
    apply Hkeep2; [done|]. by rewrite lookup_insert_ne. }
  apply bind_inv.
  exists (), (log_call (CallInit STOCK_PATH depth) (Some e0) w2). split.
  { unfold Stockfish_new. by rewrite Heng. }
  apply bind_inv. eapply returns_load; [cbn; exact Hobj|]. cbn [rows].
  apply HΦ; cbn; try done. by rewrite Hlog2.
Qed.

(** A run of [add_eval] under the preconditions of the claims, with
    everything it leaves behind spelled out. *)
Lemma add_eval_run_exact move_df d depth start_date end_date e0 w :
  heap w !! move_df = Some d →
  forallb has_fen (rows d) = true →
  date_ready start_date end_date d = true →
  Stockfish STOCK_PATH depth = Ok e0 →
  let rs := survivors start_date end_date d in
  ∃ w' out xs,
    add_eval move_df depth start_date end_date w = (w', Ok out) ∧
    heap w !! out = None ∧
    (∀ l, is_Some (heap w !! l) → heap w' !! l = heap w !! l) ∧
    heap w' !! out = Some (enriched (loop_columns start_date end_date d) rs e0) ∧
    engine w' = Some (engine_after e0 (map fen_of rs)) ∧
    engine_log w'
      = engine_log w ++ CallInit STOCK_PATH depth :: flat_map exchange_calls xs ∧
    map fst xs = List.filter valid_fen (map fen_of rs) ∧
    stdout w'
      = stdout w ++ loop_output (Z.of_nat (length rs)) e0 0 rs
        ++ summary_lines (Z.of_nat (length rs)) (rejected (map fen_of rs)).
Proof.
  intros Hd Hfen Hready Heng rs.
  apply (add_eval_reaches_loop move_df d depth start_date end_date e0 w); [done..|].
  intros out w3 Hout Hsource Hobj Hprint3 Heng3 Hlog3. fold rs in Hobj |- *.
  destruct (for_iterrows_exact (Z.of_nat (length rs)) rs
              {| evals := []; invalid_count := 0 |} w3 e0 Heng3)
    as (w4 & xs & Hrun & Hheap4 & Heng4 & Hlog4 & Hargs & Hout4).
  { by apply has_fen_survivors. }
  cbn [evals invalid_count] in Hrun, Hout4. rewrite app_nil_l, Z.add_0_l in Hrun.
  unfold evaluate_rows.
  apply bind_inv. eexists _, w4. split; [exact Hrun|]. cbn [evals invalid_count].
  apply bind_inv. eapply returns_setitem.
  { rewrite Hheap4. exact Hobj. }
  { cbn. by rewrite length_map, length_outcomes, length_map. }
  apply bind_inv, returns_print. apply bind_inv, returns_print.
  eexists _, out, xs. split; [reflexivity|]. cbn.
  repeat split.
  - done.
  - intros l Hl. rewrite lookup_insert_ne.
    + rewrite Hheap4. by apply Hsource.
    + intros ->. rewrite Hout in Hl. by destruct Hl.
  - by rewrite lookup_insert_eq.
  - done.
  - rewrite Hlog4, Hlog3. by rewrite <- app_assoc.
  - done.
  - rewrite Hout4, Hprint3. by rewrite <- !app_assoc.
Qed.

(** ** Runs over no rows *)

Lemma survivors_nil start_date end_date d :
  kept start_date end_date d = [] → survivors start_date end_date d = [].
Proof.
  intros Hkept. apply length_zero_iff_nil. by rewrite length_survivors, Hkept.
Qed.

(** With no surviving row the loop has nothing to do: no [fen] column is
    looked at, the engine is started and left alone, the summary reports
    zero positions. *)
Lemma no_survivors_run move_df d depth start_date end_date e0 w :
  heap w !! move_df = Some d →
  kept start_date end_date d = [] →
  date_ready start_date end_date d = true →
  Stockfish STOCK_PATH depth = Ok e0 →
  ∃ w' out d',
    add_eval move_df depth start_date end_date w = (w', Ok out) ∧
    heap w' !! out = Some d' ∧
    rows d' = [] ∧
    "eval" ∈ columns d' ∧
    engine_log w' = engine_log w ++ [CallInit STOCK_PATH depth] ∧
    stdout w' = stdout w ++ summary_lines 0 0.
Proof.
  intros Hd Hkept Hready Heng. apply survivors_nil in Hkept.
  apply (add_eval_reaches_loop move_df d depth start_date end_date e0 w); [done..|].
  rewrite Hkept. intros out w3 Hout Hsource Hobj Hprint3 Heng3 Hlog3.
  unfold evaluate_rows. cbn [for_iterrows length].
  apply bind_inv, returns_ret. cbn [evals invalid_count].
  apply bind_inv. eapply returns_setitem; [exact Hobj|done|].
  apply bind_inv, returns_print. apply bind_inv, returns_print.
  eexists _, out, _. split; [reflexivity|]. cbn.
  rewrite lookup_insert_eq. split; [reflexivity|]. cbn.
  split; [done|]. split.
  { case_bool_decide; [done|]. set_solver. }
  split; [done|]. rewrite Hprint3. by rewrite <- app_assoc.
Qed.

(** X1: on a frame with no rows [add_eval] returns a frame with no rows
    and an [eval] column, whether or not the input has a [fen] column;
    the engine is started and never asked anything, and the only output
    is the summary with zero positions and zero invalid ones.  (With a
    bound the [date] column must still be there.) *)
Theorem add_eval_on_no_rows move_df d depth start_date end_date e0 w :
  heap w !! move_df = Some d →
  rows d = [] →
  date_ready start_date end_date d = true →
  Stockfish STOCK_PATH depth = Ok e0 →
  ∃ w' out d',
    add_eval move_df depth start_date end_date w = (w', Ok out) ∧
    heap w' !! out = Some d' ∧
    rows d' = [] ∧
    "eval" ∈ columns d' ∧
    engine_log w' = engine_log w ++ [CallInit STOCK_PATH depth] ∧
    stdout w' = stdout w ++ summary_lines 0 0.
Proof.
  intros Hd Hrows Hready Heng.
  apply (no_survivors_run move_df d depth start_date end_date e0 w); try done.
  unfold kept. rewrite Hrows. by destruct (_ || _).
Qed.

(** X9: when both bounds are given and the end month lies before the
    start month, no record survives: the returned frame has no rows, the
    engine is started and never asked anything, and the summary reports
    zero positions. *)
Theorem inverted_range_keeps_nothing move_df d depth s s' p q e0 w :
  heap w !! move_df = Some d →
  date_ready (Some s) (Some s') d = true →
  Stockfish STOCK_PATH depth = Ok e0 →
  pd_Period s = Ok p →
  pd_Period s' = Ok q →
  ordinal q < ordinal p →
  ∃ w' out d',
    add_eval move_df depth (Some s) (Some s') w = (w', Ok out) ∧
    heap w' !! out = Some d' ∧
    rows d' = [] ∧
    "eval" ∈ columns d' ∧
    engine_log w' = engine_log w ++ [CallInit STOCK_PATH depth] ∧
    stdout w' = stdout w ++ summary_lines 0 0.
Proof.
  intros Hd Hready Heng Hp Hq Hlt.
  apply (no_survivors_run move_df d depth (Some s) (Some s') e0 w); try done.
  unfold kept. cbn [is_not_None orb].
  induction (rows d) as [|ir rs IH]; [done|]. cbn [List.filter].
  rewrite IH. unfold passes, bound_of. rewrite Hp, Hq.
  destruct (period_of (parsed_date ir)) as [| | | | | |r]; try done.
  unfold ge_period, le_period, Period_ge, Period_le.
  destruct (Z.leb_spec (ordinal p) (ordinal r)); [|done].
  destruct (Z.leb_spec (ordinal r) (ordinal q)); [lia|done].
Qed.

(** ** Runs that abort in the loop or at the engine *)

Lemma lookup_fen_carried start_date end_date ir :
  carried start_date end_date ir !! "fen" = ir.2 !! "fen".
Proof.
  unfold carried, converted. destruct (_ || _); [|done]. cbn.
  by rewrite lookup_delete_ne, lookup_insert_ne.
Qed.

Lemma map_carried_ext {B} start_date end_date
    (f g : Z * gmap string Value → B) (l k : list (Z * gmap string Value)) :
  (∀ x y, x.2 = carried start_date end_date y → f x = g y) →
  map snd l = map (carried start_date end_date) k →
  map f l = map g k.
Proof.
  intros Hfg. revert k. induction l as [|x l IH]; intros [|y k] Heq; try done.
  cbn in *. injection Heq as Hhd Htl. by rewrite (Hfg x y), (IH k).
Qed.

Lemma fen_of_carried start_date end_date (x y : Z * gmap string Value) :
  x.2 = carried start_date end_date y → fen_of x = fen_of y.
Proof. intros Hx. unfold fen_of. by rewrite Hx, lookup_fen_carried. Qed.

Lemma has_fen_carried start_date end_date (x y : Z * gmap string Value) :
  x.2 = carried start_date end_date y → has_fen x = has_fen y.
Proof. intros Hx. unfold has_fen. by rewrite Hx, lookup_fen_carried. Qed.

Lemma survivors_split start_date end_date d pre r post :
  kept start_date end_date d = pre ++ r :: post →
  ∃ pre' r' post',
    survivors start_date end_date d = pre' ++ r' :: post' ∧
    map snd pre' = map (carried start_date end_date) pre ∧
    r'.2 = carried start_date end_date r ∧
    map snd post' = map (carried start_date end_date) post.
Proof.
  intros Hkept. pose proof (snd_survivors start_date end_date d) as Hsnd.
  rewrite Hkept, map_app in Hsnd. cbn [map] in Hsnd.
  apply map_eq_app in Hsnd as (pre' & rest & Hs & Hpre & Hrest).
  apply map_eq_cons in Hrest as (r' & post' & -> & Hr & Hpost).
  by exists pre', r', post'.
Qed.

Lemma forallb_has_fen_carried start_date end_date l k :
  map snd l = map (carried start_date end_date) k →
  forallb has_fen l = forallb has_fen k.
Proof.
  revert k. induction l as [|x l IH]; intros [|y k] Heq; try done.
  cbn in *. injection Heq as Hhd Htl.
  by rewrite (has_fen_carried start_date end_date x y), (IH k).
Qed.

Lemma loop_body_missing_fen total st (ir : Z * gmap string Value) w :
  ir.2 !! "fen" = None →
  loop_body total st ir w = (w, Raise (KeyError "fen")).
Proof.
  intros Hfen. destruct ir as [index row]. cbn in Hfen. unfold loop_body.
  unfold mbind at 1, M_bind at 1, lift at 1, row_getitem. by rewrite Hfen.
Qed.

Lemma loop_body_bad_fen total st (ir : Z * gmap string Value) w v :
  ir.2 !! "fen" = Some v →
  (∀ s, v ≠ VStr s) →
  loop_body total st ir w = (w, Raise (subscript_error v)).
Proof.
  intros Hfen Hv. destruct ir as [index row]. cbn in Hfen. unfold loop_body.
  unfold mbind at 1, M_bind at 1, lift at 1, row_getitem. rewrite Hfen.
  unfold mbind at 1, M_bind at 1, lift at 1, as_str.
  destruct v; try done. by destruct (Hv s).
Qed.

(** A run whose loop raises at a surviving row, the rows before it
    having string positions: the exception leaves [add_eval], no frame
    is returned, and the engine has been asked about the accepted
    positions before the failing row. *)
Lemma add_eval_aborts_in_loop move_df d depth start_date end_date e0 w pre r post x :
  heap w !! move_df = Some d →
  date_ready start_date end_date d = true →
  Stockfish STOCK_PATH depth = Ok e0 →
  kept start_date end_date d = pre ++ r :: post →
  forallb has_fen pre = true →
  (∀ total st (ir : Z * gmap string Value) w1,
     ir.2 = carried start_date end_date r →
     loop_body total st ir w1 = (w1, Raise x)) →
  ∃ w' xs,
    add_eval move_df depth start_date end_date w = (w', Raise x) ∧
    (∀ l, is_Some (heap w !! l) → heap w' !! l = heap w !! l) ∧
    engine_log w'
      = engine_log w ++ CallInit STOCK_PATH depth :: flat_map exchange_calls xs ∧
    map fst xs = List.filter valid_fen (map fen_of pre).
Proof.
  intros Hd Hready Heng Hkept Hpre Hraise.
  destruct (survivors_split _ _ _ _ _ _ Hkept)
    as (pre' & r' & post' & Hsurv & Hpre' & Hr' & _).
  apply (add_eval_reaches_loop move_df d depth start_date end_date e0 w); [done..|].
  intros out w3 Hout Hsource Hobj Hprint3 Heng3 Hlog3.
  rewrite Hsurv. unfold evaluate_rows.
  destruct (for_iterrows_exact (Z.of_nat (length (pre' ++ r' :: post'))) pre'
              {| evals := []; invalid_count := 0 |} w3 e0 Heng3)
    as (w4 & xs & Hrun & Hheap4 & Heng4 & Hlog4 & Hargs & Hout4).
  { by rewrite (forallb_has_fen_carried start_date end_date pre' pre). }
  exists w4, xs. split.
  { apply bind_raise. rewrite for_iterrows_app, Hrun. cbn [for_iterrows].
    apply bind_raise. by apply Hraise. }
  split. { intros l Hl. rewrite Hheap4. by apply Hsource. }
  split. { rewrite Hlog4, Hlog3. by rewrite <- app_assoc. }
  rewrite Hargs. f_equal.
  apply (map_carried_ext start_date end_date); [|done].
  apply fen_of_carried.
Qed.

(** X2: when a surviving row has no [fen] attribute (the rows before it
    having string positions), [add_eval] ends in [KeyError('fen')] and
    returns no frame; the engine had been started, and asked about the
    accepted positions before that row; no object that existed before is
    changed. *)
Theorem missing_fen_raises_key_error
    move_df d depth start_date end_date e0 w pre r post :
  heap w !! move_df = Some d →
  date_ready start_date end_date d = true →
  Stockfish STOCK_PATH depth = Ok e0 →
  kept start_date end_date d = pre ++ r :: post →
  forallb has_fen pre = true →
  r.2 !! "fen" = None →
  ∃ w' xs,
    add_eval move_df depth start_date end_date w = (w', Raise (KeyError "fen")) ∧
    (∀ l, is_Some (heap w !! l) → heap w' !! l = heap w !! l) ∧
    engine_log w'
      = engine_log w ++ CallInit STOCK_PATH depth :: flat_map exchange_calls xs ∧
    map fst xs = List.filter valid_fen (map fen_of pre).
Proof.
  intros Hd Hready Heng Hkept Hpre Hfen.
  eapply add_eval_aborts_in_loop; try done.
  intros total st ir w1 Hir. apply loop_body_missing_fen.
  by rewrite Hir, lookup_fen_carried.
Qed.

(** X3: when the [fen] of a surviving row is not a string (a null cell,
    a number, a timestamp), the rows before it having string positions,
    [add_eval] ends in the exception that slicing that value raises (a
    [TypeError] for a Python object, an [IndexError] for a numpy scalar)
    and returns no frame: the evaluations made for the rows before it are
    lost; the engine had been started, and asked about the accepted
    positions before that row; no object that existed before is
    changed. *)
Theorem non_string_fen_aborts_the_run
    move_df d depth start_date end_date e0 w pre r post v :
  heap w !! move_df = Some d →
  date_ready start_date end_date d = true →
  Stockfish STOCK_PATH depth = Ok e0 →
  kept start_date end_date d = pre ++ r :: post →
  forallb has_fen pre = true →
  r.2 !! "fen" = Some v →
  (∀ s, v ≠ VStr s) →
  ∃ w' xs,
    add_eval move_df depth start_date end_date w = (w', Raise (subscript_error v)) ∧
    (∀ l, is_Some (heap w !! l) → heap w' !! l = heap w !! l) ∧
    engine_log w'
      = engine_log w ++ CallInit STOCK_PATH depth :: flat_map exchange_calls xs ∧
    map fst xs = List.filter valid_fen (map fen_of pre).
Proof.
  intros Hd Hready Heng Hkept Hpre Hfen Hv.
  eapply add_eval_aborts_in_loop; try done.
  intros total st ir w1 Hir. apply (loop_body_bad_fen _ _ _ _ v); [|done].
  by rewrite Hir, lookup_fen_carried.
Qed.

(** X4: when the engine cannot be started, [add_eval] ends in the
    constructor's exception and returns no frame; nothing is printed, no
    request reaches an engine, and no object that existed before is
    changed.  The date filter has run by then: a missing [date] column or
    a date that does not parse is reported first. *)
Theorem engine_start_failure_raises move_df d depth start_date end_date x w :
  heap w !! move_df = Some d →
  date_ready start_date end_date d = true →
  Stockfish STOCK_PATH depth = Raise x →
  ∃ w',
    add_eval move_df depth start_date end_date w = (w', Raise x) ∧
    stdout w' = stdout w ∧
    engine w' = engine w ∧
    engine_log w' = engine_log w ++ [CallInit STOCK_PATH depth] ∧
    (∀ l, is_Some (heap w !! l) → heap w' !! l = heap w !! l).
Proof.
  intros Hd Hready Heng. unfold add_eval.
  apply bind_inv. unfold DataFrame_copy.
  apply returns_bind, (returns_load _ d); [done|].
  apply returns_alloc. intros l1 Hl1.
  apply bind_inv. eapply (select_exact l1 d).
  { cbn. by rewrite lookup_insert_eq. }
  { done. }
  intros out w2 (Hout2 & Heng2 & Hlog2 & Hkeep2 & Hnew2) Hfresh Hobj.
  cbn in Hout2, Heng2, Hlog2, Hkeep2, Hnew2.
  exists (log_call (CallInit STOCK_PATH depth) (engine w2) w2). split.
  { apply bind_raise. unfold Stockfish_new. by rewrite Heng. }
  cbn. split; [done|]. split; [done|]. split; [by rewrite Hlog2|].
  intros l Hl. assert (l ≠ l1) as Hne.
  { intros ->. rewrite Hl1 in Hl. by destruct Hl. }
  transitivity (<[l1:=d]> (heap w) !! l); [|by rewrite lookup_insert_ne].
  apply Hkeep2; [done|]. by rewrite lookup_insert_ne.
Qed.

(** ** Bounds that do not parse *)

(** Lines 49-54 on a frame with a [date] column whose values all parse:
    the object [df] now holds the converted dates and the scratch column,
    and the call goes on with the bounds. *)
Lemma date_filter_reaches_bounds df d start_date end_date w
    (Φ : World * Res loc → Prop) :
  heap w !! df = Some d →
  "date" ∈ columns d →
  forallb date_parses (rows d) = true →
  (∀ w2 cols,
     frame df w w2 →
     heap w2 !! df = Some {| columns := cols; rows := map dated (rows d) |} →
     "year_month" ∈ cols →
     Φ (filter_bounds df start_date end_date w2)) →
  Φ (date_filter df start_date end_date w).
Proof.
  intros Hd Hdate Hparse HΦ. unfold date_filter.
  apply bind_inv, (returns_load _ d); [done|].
  rewrite bool_decide_true by done. cbn [negb].
  apply bind_inv. eapply returns_getitem; [done..|].
  apply bind_inv. eapply returns_lift; [by apply to_datetime_column|].
  apply bind_inv. eapply returns_setitem; [done|by rewrite length_map|].
  set (d1 := set_column "date" (map parsed_date (rows d)) d).
  apply bind_inv. eapply (returns_getitem _ _ d1).
  { cbn. by rewrite lookup_insert_eq. }
  { subst d1. cbn. by rewrite bool_decide_true. }
  subst d1. rewrite column_values_set_column.
  apply bind_inv. eapply returns_lift; [apply to_period_M_column|].
  apply bind_inv. eapply returns_setitem.
  { cbn. by rewrite lookup_insert_eq. }
  { cbn. rewrite length_map, length_zip_with, length_map. lia. }
  match goal with
  | |- context [set_column "year_month" ?v ?d'] => set (d2 := set_column "year_month" v d')
  end.
  apply (HΦ _ (columns d2)).
  - by apply frame_store, frame_store, frame_refl.
  - cbn. rewrite lookup_insert_eq. f_equal. rewrite <- dated_rows. reflexivity.
  - subst d2. cbn. case_bool_decide; [done|]. set_solver.
Qed.

(** X5: with a [date] column whose values all parse and a bound that
    [pd.Period] rejects, [add_eval] ends in the exception of that bound
    (the start bound is parsed first); no request reaches an engine,
    nothing is printed and no object that existed before is changed. *)
Theorem unparseable_bound_fails_before_engine
    move_df d depth start_date end_date w :
  heap w !! move_df = Some d →
  "date" ∈ columns d →
  forallb date_parses (rows d) = true →
  bound_parses start_date && bound_parses end_date = false →
  ∃ w' x s,
    add_eval move_df depth start_date end_date w = (w', Raise x) ∧
    (if bound_parses start_date then end_date = Some s else start_date = Some s) ∧
    pd_Period s = Raise x ∧
    engine_untouched w w' ∧
    stdout w' = stdout w ∧
    (∀ l, is_Some (heap w !! l) → heap w' !! l = heap w !! l).
Proof.
  intros Hd Hdate Hparse Hbounds.
  assert (∃ x s,
    (if bound_parses start_date then end_date = Some s else start_date = Some s) ∧
    pd_Period s = Raise x) as (x & s & Hwhich & Hs).
  { unfold bound_parses in *.
    destruct start_date as [s|].
    - destruct (pd_Period s) as [p|x] eqn:Hp.
      + destruct end_date as [s'|]; [|done].
        destruct (pd_Period s') as [q|x] eqn:Hq; [done|]. by exists x, s'.
      + by exists x, s.
    - destruct end_date as [s'|]; [|done].
      destruct (pd_Period s') as [q|x] eqn:Hq; [done|]. by exists x, s'. }
  enough (raises (add_eval move_df depth start_date end_date) w (λ x' w',
    x' = x ∧ engine_untouched w w' ∧ stdout w' = stdout w ∧
    (∀ l, is_Some (heap w !! l) → heap w' !! l = heap w !! l)))
    as (x' & w' & Hrun & -> & Hpost).
  { by exists w', x, s. }
  eapply add_eval_filter_raises; [done| |].
  { destruct start_date, end_date; try done. }
  intros l w1 Hl Hw1 Hframe1.
  unfold raises. pattern (date_filter l start_date end_date w1).
  apply (date_filter_reaches_bounds l d); [done..|].
  intros w2 cols Hframe2 Hobj Hym.
  assert (∀ w3, frame l w1 w3 →
            x = x ∧ engine_untouched w w3 ∧ stdout w3 = stdout w ∧
            (∀ l', is_Some (heap w !! l') → heap w3 !! l' = heap w !! l')) as Hdone.
  { intros w3 (Hp3 & He3 & Hl3 & Hk3 & Hn3).
    destruct Hframe1 as (Hp1 & He1 & Hl1 & Hk1 & Hn1).
    split; [done|]. split; [split; congruence|]. split; [congruence|].
    intros l' Hl'. assert (l' ≠ l) as Hne.
    { intros ->. rewrite Hl in Hl'. by destruct Hl'. }
    rewrite Hk3; [by apply Hk1|done|]. rewrite Hk1; done. }
  unfold filter_bounds.
  destruct (bound_parses start_date) eqn:Hstart.
  - subst end_date.
    apply bind_inv.
    eapply (returns_bound ge_period start_date l w1 l cols (rows d)); [done..|].
    intros cur1 w3 Hframe3 Hcur1.
    exists x, w3. split; [|by apply Hdone].
    apply bind_raise, bind_raise. unfold lift. by rewrite Hs.
  - subst start_date.
    exists x, w2. split; [|by apply Hdone].
    apply bind_raise, bind_raise. unfold lift. by rewrite Hs.
Qed.

(** ** The returned frame *)

Lemma fst_imap (g : nat → Z) (rs : list (Z * gmap string Value)) :
  map fst (imap (λ i ir, (g i, ir.2)) rs) = map g (seq 0 (length rs)).
Proof.
  revert g. induction rs as [|ir rs IH]; intros g; [done|]. cbn. f_equal.
  rewrite <- seq_shift, map_map. apply (IH (g ∘ S)).
Qed.

Lemma fst_enriched cols rs e0 : map fst (rows (enriched cols rs e0)) = map fst rs.
Proof.
  unfold enriched, set_column. cbn [rows].
  assert (∀ (vals : list Value) (l : list (Z * gmap string Value)),
            length vals = length l →
            map fst (zip_with (λ ir v, (ir.1, <["eval" := v]> ir.2)) l vals) = map fst l)
    as Hzip.
  { intros vals l. revert vals. induction l as [|ir l IH]; intros [|v vals] Hlen; try done.
    cbn in *. f_equal. apply IH. lia. }
  apply Hzip. by rewrite length_map, length_outcomes, length_map.
Qed.

(** X6: the index of the returned frame: with a date filter the labels
    are 0, 1, 2, ... in row order (line 63 resets the index), whatever
    the input labels were; with no filter every row keeps its input
    label. *)
Theorem output_index_labels move_df d depth start_date end_date e0 w :
  heap w !! move_df = Some d →
  forallb has_fen (rows d) = true →
  date_ready start_date end_date d = true →
  Stockfish STOCK_PATH depth = Ok e0 →
  ∃ w' out d',
    add_eval move_df depth start_date end_date w = (w', Ok out) ∧
    heap w' !! out = Some d' ∧
    map fst (rows d')
    = if is_not_None start_date || is_not_None end_date
      then map Z.of_nat (seq 0 (length (kept start_date end_date d)))
      else map fst (rows d).
Proof.
  intros Hd Hfen Hready Heng.
  destruct (add_eval_run_exact move_df d depth start_date end_date e0 w Hd Hfen Hready Heng)
    as (w' & out & xs & Hrun & _ & _ & Hout & _).
  eexists w', out, _. split; [done|]. split; [done|].
  rewrite fst_enriched. unfold survivors, kept.
  destruct (_ || _); [|done].
  unfold relabel. by rewrite fst_imap, length_map.
Qed.

(** X7: the columns of the returned frame: the input's columns, without
    [year_month] when a date filter is applied (line 63 drops that name,
    also when the input brought such a column), and with [eval] added at
    the end unless the input already has an [eval] column, which is then
    overwritten in place; distinct column names stay distinct. *)
Theorem output_columns move_df d depth start_date end_date e0 w :
  heap w !! move_df = Some d →
  forallb has_fen (rows d) = true →
  date_ready start_date end_date d = true →
  Stockfish STOCK_PATH depth = Ok e0 →
  ∃ w' out d',
    add_eval move_df depth start_date end_date w = (w', Ok out) ∧
    heap w' !! out = Some d' ∧
    columns d'
    = (if is_not_None start_date || is_not_None end_date
       then filter (λ c, c ≠ "year_month") (columns d)
       else columns d)
      ++ (if bool_decide ("eval" ∈ columns d) then [] else ["eval"]) ∧
    (NoDup (columns d) → NoDup (columns d')).
Proof.
  intros Hd Hfen Hready Heng.
  destruct (add_eval_run_exact move_df d depth start_date end_date e0 w Hd Hfen Hready Heng)
    as (w' & out & xs & Hrun & _ & _ & Hout & _).
  eexists w', out, _. split; [done|]. split; [done|].
  unfold enriched, set_column, loop_columns. cbn [columns].
  set (cols := if is_not_None start_date || is_not_None end_date
               then filter (λ c, c ≠ "year_month") (columns d) else columns d).
  assert ("eval" ∈ cols ↔ "eval" ∈ columns d) as Hin.
  { subst cols. destruct (_ || _); [|done].
    rewrite list_elem_of_filter. intuition done. }
  assert (NoDup (columns d) → NoDup cols) as Hnodup.
  { subst cols. destruct (_ || _); [|done]. apply NoDup_filter. }
  rewrite (bool_decide_ext _ _ Hin).
  case_bool_decide as Heval.
  - rewrite app_nil_r. split; [done|]. done.
  - split; [done|]. intros Hnd. apply NoDup_app. split; [by apply Hnodup|].
    split; [|apply NoDup_singleton].
    intros c Hc Hc'. apply list_elem_of_singleton in Hc' as ->.
    by apply Heval, Hin.
Qed.

(** X10: the returned frame is an object that did not exist before the
    call: it is not the source frame nor any other frame the caller
    holds, and every frame the caller holds is as it was. *)
Theorem result_is_a_new_object move_df d depth start_date end_date e0 w :
  heap w !! move_df = Some d →
  forallb has_fen (rows d) = true →
  date_ready start_date end_date d = true →
  Stockfish STOCK_PATH depth = Ok e0 →
  ∃ w' out,
    add_eval move_df depth start_date end_date w = (w', Ok out) ∧
    out ≠ move_df ∧
    heap w !! out = None ∧
    is_Some (heap w' !! out) ∧
    (∀ l, is_Some (heap w !! l) → heap w' !! l = heap w !! l).
Proof.
  intros Hd Hfen Hready Heng.
  destruct (add_eval_run_exact move_df d depth start_date end_date e0 w Hd Hfen Hready Heng)
    as (w' & out & xs & Hrun & Hfresh & Hsource & Hout & _).
  exists w', out. split; [done|]. split.
  { intros ->. rewrite Hd in Hfresh. discriminate. }
  split; [done|]. split; [by eexists|done].
Qed.

(** X8: with a date filter every row of the returned frame has a [date]
    that is a timestamp: a record whose date is null does not survive,
    whichever bound is given, and no date is left as the input had it. *)
Theorem filtered_dates_are_timestamps move_df d depth start_date end_date e0 w :
  heap w !! move_df = Some d →
  forallb has_fen (rows d) = true →
  date_ready start_date end_date d = true →
  Stockfish STOCK_PATH depth = Ok e0 →
  is_not_None start_date || is_not_None end_date = true →
  ∃ w' out d',
    add_eval move_df depth start_date end_date w = (w', Ok out) ∧
    heap w' !! out = Some d' ∧
    Forall (λ o, ∃ t, o.2 !! "date" = Some (VTimestamp t)) (rows d').
Proof.
  intros Hd Hfen Hready Heng Hfilter.
  destruct (add_eval_run_exact move_df d depth start_date end_date e0 w Hd Hfen Hready Heng)
    as (w' & out & xs & Hrun & _ & _ & Hout & _).
  eexists w', out, _. split; [done|]. split; [done|].
  apply Forall_lookup. intros i o Ho.
  assert (i < length (kept start_date end_date d))%nat as Hi.
  { apply lookup_lt_Some in Ho. by rewrite length_enriched, length_survivors in Ho. }
  apply lookup_lt_is_Some in Hi as [r Hr].
  destruct (enriched_lookup start_date end_date d (loop_columns start_date end_date d)
              e0 i r Hr) as [label Hl].
  rewrite Hl in Ho. injection Ho as <-. cbn [snd].
  unfold carried, converted. rewrite Hfilter. cbn [snd].
  rewrite lookup_insert_ne, lookup_delete_ne, lookup_insert_eq by done.
  assert (passes start_date end_date r = true) as Hpass.
  { unfold kept in Hr. rewrite Hfilter in Hr.
    apply list_elem_of_lookup_2, list_elem_of_In, filter_In in Hr. tauto. }
  unfold date_ready in Hready. rewrite Hfilter in Hready.
  apply andb_true_iff in Hready as [Hready Hend].
  apply andb_true_iff in Hready as [_ Hstart].
  rewrite passes_spec_retained in Hpass by done.
  unfold spec_retained in Hpass.
  destruct (parsed_date r) as [| | | |t| |]; try done. by exists t.
Qed.

(** ** What is printed for a record *)

Lemma survivors_lookup start_date end_date d i r :
  kept start_date end_date d !! i = Some r →
  survivors start_date end_date d !! i
  = Some (label_of start_date end_date i r, carried start_date end_date r).
Proof.
  unfold kept, survivors, label_of, carried. destruct (_ || _); intros Hr.
  - unfold relabel. rewrite list_lookup_imap, map_fmap, list_lookup_fmap, Hr. done.
  - rewrite Hr. by destruct r.
Qed.

Lemma rejected_app fens1 fens2 :
  rejected (fens1 ++ fens2) = rejected fens1 + rejected fens2.
Proof. unfold rejected. rewrite List.filter_app, length_app. lia. Qed.

Lemma loop_output_invalid total rs : ∀ e invalid i ir,
  rs !! i = Some ir →
  valid_fen (fen_of ir) = false →
  invalid_line ir ∈ loop_output total e invalid rs.
Proof.
  induction rs as [|ir' rs IH]; intros e invalid i ir Hi Hinvalid; [done|].
  destruct i as [|i]; cbn in Hi.
  - injection Hi as ->. cbn. rewrite Hinvalid. by left.
  - cbn. destruct (valid_fen (fen_of ir')).
    + rewrite !elem_of_app. right. right. by eapply IH.
    + right. by eapply IH.
Qed.

Lemma loop_output_error total rs : ∀ e invalid i ir x,
  rs !! i = Some ir →
  valid_fen (fen_of ir) = true →
  failure_of (exchange (engine_after e (take i (map fen_of rs))) (fen_of ir)) = Some x →
  error_line ir.1 x ∈ loop_output total e invalid rs.
Proof.
  induction rs as [|ir' rs IH]; intros e invalid i ir x Hi Hvalid Hx; [done|].
  destruct i as [|i]; cbn in Hi.
  - injection Hi as ->. cbn in *. rewrite Hvalid, Hx. by left.
  - cbn in *. destruct (valid_fen (fen_of ir')).
    + rewrite !elem_of_app. right. right. by eapply IH.
    + right. by eapply IH.
Qed.

Lemma loop_output_progress total rs : ∀ e invalid i ir,
  rs !! i = Some ir →
  valid_fen (fen_of ir) = true →
  (ir.1 + 1) `mod` 50 = 0 →
  progress_line ir.1 total (invalid + rejected (take i (map fen_of rs)))
    ∈ loop_output total e invalid rs.
Proof.
  induction rs as [|ir' rs IH]; intros e invalid i ir Hi Hvalid Hmod; [done|].
  destruct i as [|i]; cbn in Hi.
  - injection Hi as ->. cbn. rewrite Hvalid, bool_decide_true by done.
    rewrite !elem_of_app. right. left.
    unfold rejected. cbn. rewrite Z.add_0_r. by left.
  - cbn [map take loop_output].
    change (fen_of ir' :: take i (map fen_of rs))
      with ([fen_of ir'] ++ take i (map fen_of rs)).
    rewrite rejected_app. unfold rejected at 1. cbn [List.filter].
    destruct (valid_fen (fen_of ir')); cbn [negb length].
    + rewrite !elem_of_app. right. right.
      replace (invalid + (Z.of_nat 0 + rejected (take i (map fen_of rs))))
        with (invalid + rejected (take i (map fen_of rs))) by lia.
      by eapply IH.
    + right.
      replace (invalid + (Z.of_nat 1 + rejected (take i (map fen_of rs))))
        with (invalid + 1 + rejected (take i (map fen_of rs))) by lia.
      by eapply IH.
Qed.

Lemma fen_of_label_carried start_date end_date (label : Z) r :
  fen_of (label, carried start_date end_date r) = fen_of r.
Proof. by apply (fen_of_carried start_date end_date). Qed.

(** X11: when the [i]-th surviving record is accepted by the validator
    and its index label plus one is a multiple of 50, a progress report
    is printed that gives that number, the number of surviving records
    and the number of positions rejected before it. *)
Theorem progress_report_after_accepted_record
    move_df d depth start_date end_date e0 w i r :
  heap w !! move_df = Some d →
  forallb has_fen (rows d) = true →
  date_ready start_date end_date d = true →
  Stockfish STOCK_PATH depth = Ok e0 →
  kept start_date end_date d !! i = Some r →
  valid_fen (fen_of r) = true →
  (label_of start_date end_date i r + 1) `mod` 50 = 0 →
  ∃ w' out,
    add_eval move_df depth start_date end_date w = (w', Ok out) ∧
    progress_line (label_of start_date end_date i r)
                  (Z.of_nat (length (kept start_date end_date d)))
                  (rejected (take i (map fen_of (kept start_date end_date d))))
      ∈ stdout w'.
Proof.
  intros Hd Hfen Hready Heng Hr Hvalid Hmod.
  destruct (add_eval_run_exact move_df d depth start_date end_date e0 w Hd Hfen Hready Heng)
    as (w' & out & xs & Hrun & _ & _ & _ & _ & _ & _ & Hprint).
  exists w', out. split; [done|]. rewrite Hprint, !elem_of_app. right. left.
  rewrite length_survivors, <- fen_of_survivors.
  pose proof (loop_output_progress (Z.of_nat (length (kept start_date end_date d)))
                (survivors start_date end_date d) e0 0 i _
                (survivors_lookup _ _ _ _ _ Hr)) as Hin.
  rewrite fen_of_label_carried, Z.add_0_l in Hin. by apply Hin.
Qed.

(** X12: when the exchange with the engine raises for the [i]-th
    surviving record, the failure is reported with the record's index
    label and the exception's message. *)
Theorem engine_failure_is_reported
    move_df d depth start_date end_date e0 w i r x :
  heap w !! move_df = Some d →
  forallb has_fen (rows d) = true →
  date_ready start_date end_date d = true →
  Stockfish STOCK_PATH depth = Ok e0 →
  kept start_date end_date d !! i = Some r →
  valid_fen (fen_of r) = true →
  (ask (engine_after e0 (take i (map fen_of (kept start_date end_date d)))) (fen_of r)).2
    = Raise x →
  ∃ w' out,
    add_eval move_df depth start_date end_date w = (w', Ok out) ∧
    "Error at position " +:+ pretty (label_of start_date end_date i r)
      +:+ ": " +:+ exc_msg x
      ∈ stdout w'.
Proof.
  intros Hd Hfen Hready Heng Hr Hvalid Hraise.
  destruct (add_eval_run_exact move_df d depth start_date end_date e0 w Hd Hfen Hready Heng)
    as (w' & out & xs & Hrun & _ & _ & _ & _ & _ & _ & Hprint).
  exists w', out. split; [done|]. rewrite Hprint, !elem_of_app. right. left.
  pose proof (loop_output_error (Z.of_nat (length (survivors start_date end_date d)))
                (survivors start_date end_date d) e0 0 i _ x
                (survivors_lookup _ _ _ _ _ Hr)) as Hin.
  rewrite fen_of_label_carried, fen_of_survivors in Hin. apply Hin; [done|].
  unfold failure_of, exchange. by rewrite Hraise.
Qed.

(** X13: a surviving record whose position the validator rejects is
    reported with its index label and the first 50 characters of the
    position. *)
Theorem rejected_position_is_reported
    move_df d depth start_date end_date e0 w i r :
  heap w !! move_df = Some d →
  forallb has_fen (rows d) = true →
  date_ready start_date end_date d = true →
  Stockfish STOCK_PATH depth = Ok e0 →
  kept start_date end_date d !! i = Some r →
  valid_fen (fen_of r) = false →
  ∃ w' out,
    add_eval move_df depth start_date end_date w = (w', Ok out) ∧
    "Invalid FEN at position " +:+ pretty (label_of start_date end_date i r)
      +:+ ": " +:+ String.substring 0 50 (fen_of r) +:+ "..."
      ∈ stdout w'.
Proof.
  intros Hd Hfen Hready Heng Hr Hinvalid.
  destruct (add_eval_run_exact move_df d depth start_date end_date e0 w Hd Hfen Hready Heng)
    as (w' & out & xs & Hrun & _ & _ & _ & _ & _ & _ & Hprint).
  exists w', out. split; [done|]. rewrite Hprint, !elem_of_app. right. left.
  pose proof (loop_output_invalid (Z.of_nat (length (survivors start_date end_date d)))
                (survivors start_date end_date d) e0 0 i _
                (survivors_lookup _ _ _ _ _ Hr)) as Hin.
  rewrite fen_of_label_carried in Hin. specialize (Hin Hinvalid).
  unfold invalid_line in Hin. by rewrite fen_of_label_carried in Hin.
Qed.

(** X14: with an engine that raises on every exchange (the process has
    died), the run still returns one row per surviving record, every one
    with the unavailable evaluation. *)
Theorem dead_engine_degrades_to_unavailable
    move_df d depth start_date end_date e0 w :
  heap w !! move_df = Some d →
  forallb has_fen (rows d) = true →
  date_ready start_date end_date d = true →
  Stockfish STOCK_PATH depth = Ok e0 →
  (∀ e fen, ∃ x, (ask e fen).2 = Raise x) →
  ∃ w' out d',
    add_eval move_df depth start_date end_date w = (w', Ok out) ∧
    heap w' !! out = Some d' ∧
    length (rows d') = length (kept start_date end_date d) ∧
    Forall (λ o, o.2 !! "eval" = Some (serialize Unavailable)) (rows d').
Proof.
  intros Hd Hfen Hready Heng Hdead.
  destruct (add_eval_run_exact move_df d depth start_date end_date e0 w Hd Hfen Hready Heng)
    as (w' & out & xs & Hrun & _ & _ & Hout & _).
  eexists w', out, _. split; [done|]. split; [done|].
  split; [by rewrite length_enriched, length_survivors|].
  apply Forall_lookup. intros i o Ho.
  assert (i < length (kept start_date end_date d))%nat as Hi.
  { apply lookup_lt_Some in Ho. by rewrite length_enriched, length_survivors in Ho. }
  apply lookup_lt_is_Some in Hi as [r Hr].
  destruct (enriched_lookup start_date end_date d (loop_columns start_date end_date d)
              e0 i r Hr) as [label Hl].
  rewrite Hl in Ho. injection Ho as <-. cbn [snd]. rewrite lookup_insert_eq.
  unfold evaluation_at, exchange. destruct (valid_fen (fen_of r)); [|done].
  destruct (Hdead (engine_after e0 (take i (map fen_of (kept start_date end_date d))))
              (fen_of r)) as [x ->]. done.
Qed.

(** X15: when the validator rejects every surviving position, the engine
    is started and never asked anything, and the output is one rejection
    line per record, in order, followed by the summary, which counts
    every record as invalid: no progress report is printed, however many
    records there are. *)
Theorem all_rejected_run move_df d depth start_date end_date e0 w :
  heap w !! move_df = Some d →
  forallb has_fen (rows d) = true →
  date_ready start_date end_date d = true →
  Stockfish STOCK_PATH depth = Ok e0 →
  forallb (λ r, negb (valid_fen (fen_of r))) (kept start_date end_date d) = true →
  ∃ w' out,
    add_eval move_df depth start_date end_date w = (w', Ok out) ∧
    engine_log w' = engine_log w ++ [CallInit STOCK_PATH depth] ∧
    stdout w'
    = stdout w
      ++ imap (λ i r, invalid_line (label_of start_date end_date i r, r.2))
              (kept start_date end_date d)
      ++ summary_lines (Z.of_nat (length (kept start_date end_date d)))
                       (Z.of_nat (length (kept start_date end_date d))).
Proof.
  intros Hd Hfen Hready Heng Hall.
  destruct (add_eval_run_exact move_df d depth start_date end_date e0 w Hd Hfen Hready Heng)
    as (w' & out & xs & Hrun & _ & _ & _ & _ & Hlog & Hxs & Hprint).
  exists w', out. split; [done|].
  rewrite fen_of_survivors in Hxs, Hprint. rewrite length_survivors in Hprint.
  assert (List.filter valid_fen (map fen_of (kept start_date end_date d)) = []) as Hnone.
  { clear -Hall. induction (kept start_date end_date d) as [|r l IH]; [done|].
    cbn in *. apply andb_true_iff in Hall as [Hr Hl].
    destruct (valid_fen (fen_of r)); [done|]. by apply IH. }
  assert (rejected (map fen_of (kept start_date end_date d))
          = Z.of_nat (length (kept start_date end_date d))) as Hcount.
  { clear -Hall. unfold rejected. f_equal.
    induction (kept start_date end_date d) as [|r l IH]; [done|].
    cbn in *. apply andb_true_iff in Hall as [Hr Hl]. rewrite Hr. cbn.
    f_equal. by apply IH. }
  split.
  { rewrite Hlog. rewrite Hnone in Hxs. apply map_eq_nil in Hxs. by rewrite Hxs. }
  rewrite Hprint, Hcount. f_equal. f_equal.
  assert (∀ (rs : list (Z * gmap string Value)) e invalid total,
            forallb (λ r, negb (valid_fen (fen_of r))) rs = true →
            loop_output total e invalid rs = map invalid_line rs) as Hlines.
  { induction rs as [|r rs IH]; intros e invalid total Hrs; [done|].
    cbn in *. apply andb_true_iff in Hrs as [Hr Hrs].
    destruct (valid_fen (fen_of r)); [done|]. f_equal. by apply IH. }
  rewrite Hlines.
  - apply list_eq. intros i.
    rewrite map_fmap, list_lookup_fmap, list_lookup_imap.
    destruct (kept start_date end_date d !! i) as [r|] eqn:Hr.
    + rewrite (survivors_lookup _ _ _ _ _ Hr). cbn. f_equal.
      unfold invalid_line. rewrite fen_of_label_carried. cbn [fst]. done.
    + assert (survivors start_date end_date d !! i = None) as ->; [|done].
      apply lookup_ge_None. apply lookup_ge_None in Hr.
      by rewrite length_survivors.
  - assert (∀ l : list (Z * gmap string Value),
              forallb (λ r, negb (valid_fen (fen_of r))) l
              = forallb (λ fen, negb (valid_fen fen)) (map fen_of l)) as Hmap.
    { induction l as [|r l IH]; [done|]. cbn. by rewrite IH. }
    rewrite Hmap, fen_of_survivors, <- Hmap. done.
Qed.

End Further.

(** * The claims on concrete runs *)

Import Doubles.

Lemma add_eval_one_row_per_survivor_witness :
  (heap (world_with moves) !! 0%nat = Some moves ∧
   forallb has_fen (rows moves) = true ∧
   date_ready (Some "2024-01") (Some "2024-02") moves = true ∧
   Stockfish STOCK_PATH 15 = Ok "") ∧
  ∃ w' out d',
    add_eval 0%nat 15 (Some "2024-01") (Some "2024-02") (world_with moves) = (w', Ok out) ∧
    heap w' !! out = Some d' ∧
    length (rows d') = 3%nat.
Proof.
  assert (heap (world_with moves) !! 0%nat = Some moves) as H1 by reflexivity.
  assert (forallb has_fen (rows moves) = true) as H2 by (vm_compute; reflexivity).
  assert (date_ready (Some "2024-01") (Some "2024-02") moves = true) as H3
    by (vm_compute; reflexivity).
  assert (Stockfish STOCK_PATH 15 = Ok "") as H4 by reflexivity.
  split; [repeat split; assumption|].
  destruct (add_eval_one_row_per_survivor 0%nat moves 15 (Some "2024-01") (Some "2024-02")
              _ (world_with moves) H1 H2 H3 H4)
    as (w' & out & d' & Hrun & Hout & _ & Hlen & _).
  exists w', out, d'. split; [done|]. split; [done|].
  rewrite Hlen. vm_compute. reflexivity.
Defined.

Lemma invalid_fen_is_unavailable_and_skips_engine_witness :
  (heap (world_with moves) !! 0%nat = Some moves ∧
   forallb has_fen (rows moves) = true ∧
   date_ready None None moves = true ∧
   Stockfish STOCK_PATH 15 = Ok "") ∧
  ∃ w' out d' o,
    add_eval 0%nat 15 None None (world_with moves) = (w', Ok out) ∧
    heap w' !! out = Some d' ∧
    rows d' !! 2%nat = Some o ∧
    o.2 !! "eval" = Some VNone ∧
    CallSetFen "not a fen" ∉ engine_log w'.
Proof.
  assert (heap (world_with moves) !! 0%nat = Some moves) as H1 by reflexivity.
  assert (forallb has_fen (rows moves) = true) as H2 by (vm_compute; reflexivity).
  assert (date_ready None None moves = true) as H3 by reflexivity.
  assert (Stockfish STOCK_PATH 15 = Ok "") as H4 by reflexivity.
  split; [repeat split; assumption|].
  destruct (invalid_fen_is_unavailable_and_skips_engine 0%nat moves 15 None None
              _ (world_with moves) H1 H2 H3 H4)
    as (w' & out & d' & xs & msgs & Hrun & Hout & _ & Hinvalid & Hlog & Hxs & _).
  destruct (Hinvalid 2%nat (2, move "not a fen" "2024-01-15" 3)) as (o & Ho & Heval);
    [reflexivity|vm_compute; reflexivity|].
  exists w', out, d', o. repeat split; try assumption.
  rewrite Hlog. intros Hin. apply elem_of_app in Hin as [Hin|Hin].
  { by apply elem_of_nil in Hin. }
  apply elem_of_cons in Hin as [Hin|Hin]; [done|].
  apply list_elem_of_In, in_flat_map in Hin as ([fen asked] & Hx & Hcall).
  assert (fen = "not a fen") as ->.
  { destruct Hcall as [Hcall|Hcall]; [by injection Hcall|].
    destruct asked; cbn in Hcall; [|done]. by destruct Hcall. }
  assert ("not a fen" ∈ map fst xs) as Hfen.
  { apply list_elem_of_In, in_map_iff. by exists ("not a fen", asked). }
  rewrite Hxs in Hfen. apply list_elem_of_In, filter_In in Hfen as [_ Hvalid].
  vm_compute in Hvalid. discriminate.
Defined.

Lemma engine_failure_is_isolated_witness :
  (heap (world_with moves) !! 0%nat = Some moves ∧
   forallb has_fen (rows moves) = true ∧
   date_ready None None moves = true ∧
   Stockfish STOCK_PATH 15 = Ok "" ∧
   map fen_of (kept None None moves) !! 3%nat = Some CRASH_FEN ∧
   valid_fen CRASH_FEN = true ∧
   (ask (engine_after "" (take 3 (map fen_of (kept None None moves)))) CRASH_FEN).2
     = Raise (ValueError "engine process died")) ∧
  ∃ w' out d' o3 o5,
    add_eval 0%nat 15 None None (world_with moves) = (w', Ok out) ∧
    heap w' !! out = Some d' ∧
    length (rows d') = 6%nat ∧
    rows d' !! 3%nat = Some o3 ∧ o3.2 !! "eval" = Some VNone ∧
    rows d' !! 5%nat = Some o5 ∧ o5.2 !! "eval" = Some (VFloat 2.5).
Proof.
  assert (heap (world_with moves) !! 0%nat = Some moves) as H1 by reflexivity.
  assert (forallb has_fen (rows moves) = true) as H2 by (vm_compute; reflexivity).
  assert (date_ready None None moves = true) as H3 by reflexivity.
  assert (Stockfish STOCK_PATH 15 = Ok "") as H4 by reflexivity.
  assert (map fen_of (kept None None moves) !! 3%nat = Some CRASH_FEN) as H5
    by (vm_compute; reflexivity).
  assert (valid_fen CRASH_FEN = true) as H6 by (vm_compute; reflexivity).
  assert ((ask (engine_after "" (take 3 (map fen_of (kept None None moves)))) CRASH_FEN).2
          = Raise (ValueError "engine process died")) as H7 by (vm_compute; reflexivity).
  split; [repeat split; assumption|].
  destruct (engine_failure_is_isolated 0%nat moves 15 None None _ (world_with moves)
              3%nat CRASH_FEN _ H1 H2 H3 H4 H5 H6 H7)
    as (w' & out & d' & xs & Hrun & Hout & Hlen & (o3 & Ho3 & He3) & _ & _ & Hothers).
  destruct (Hothers 5%nat (5, move START_FEN "2024-03-02" 6)) as (o5 & Ho5 & He5);
    [done|reflexivity|].
  exists w', out, d', o3, o5. repeat split; assumption.
Defined.

Lemma missing_date_column_fails_before_engine_witness :
  (heap (world_with undated) !! 0%nat = Some undated ∧
   is_not_None (Some "2024-01") || is_not_None (@None string) = true ∧
   "date" ∉ columns undated) ∧
  ∃ w',
    add_eval 0%nat 15 (Some "2024-01") None (world_with undated)
      = (w', Raise (ValueError "DataFrame must have 'date' column for date filtering")) ∧
    engine_log w' = [] ∧ stdout w' = [].
Proof.
  assert (heap (world_with undated) !! 0%nat = Some undated) as H1 by reflexivity.
  assert (is_not_None (Some "2024-01") || is_not_None (@None string) = true) as H2
    by reflexivity.
  assert ("date" ∉ columns undated) as H3.
  { apply (bool_decide_unpack _). vm_compute. exact I. }
  split; [repeat split; assumption|].
  destruct (missing_date_column_fails_before_engine 0%nat undated 15 (Some "2024-01") None
              (world_with undated) H1 H2 H3)
    as (w' & Hrun & [Hlog _] & Hprint & _).
  exists w'. repeat split; assumption.
Defined.

Lemma engine_answer_is_mapped_witness :
  (heap (world_with moves) !! 0%nat = Some moves ∧
   forallb has_fen (rows moves) = true ∧
   date_ready None None moves = true ∧
   Stockfish STOCK_PATH 15 = Ok "" ∧
   map fen_of (kept None None moves) !! 0%nat = Some START_FEN ∧
   valid_fen START_FEN = true ∧
   (ask (engine_after "" (take 0 (map fen_of (kept None None moves)))) START_FEN).2
     = Ok {| ev_type := "cp"; ev_value := 250 |}) ∧
  ∃ w' out d' o,
    add_eval 0%nat 15 None None (world_with moves) = (w', Ok out) ∧
    heap w' !! out = Some d' ∧
    rows d' !! 0%nat = Some o ∧
    o.2 !! "eval" = Some (serialize (Score 2.5)) ∧
    nearest_hundredth 250 (Prim2SF 2.5) = true.
Proof.
  assert (heap (world_with moves) !! 0%nat = Some moves) as H1 by reflexivity.
  assert (forallb has_fen (rows moves) = true) as H2 by (vm_compute; reflexivity).
  assert (date_ready None None moves = true) as H3 by reflexivity.
  assert (Stockfish STOCK_PATH 15 = Ok "") as H4 by reflexivity.
  assert (map fen_of (kept None None moves) !! 0%nat = Some START_FEN) as H5
    by (vm_compute; reflexivity).
  assert (valid_fen START_FEN = true) as H6 by (vm_compute; reflexivity).
  assert ((ask (engine_after "" (take 0 (map fen_of (kept None None moves)))) START_FEN).2
          = Ok {| ev_type := "cp"; ev_value := 250 |}) as H7 by (vm_compute; reflexivity).
  split; [repeat split; assumption|].
  destruct (engine_answer_is_mapped 0%nat moves 15 None None _ (world_with moves)
              0%nat START_FEN _ H1 H2 H3 H4 H5 H6 H7)
    as (w' & out & d' & o & Hrun & Hout & Ho & _ & _ & Hcp & _).
  exists w', out, d', o. repeat split; try assumption.
  by apply Hcp.
Defined.

Lemma date_filter_retains_year_month_range_witness :
  (heap (world_with moves) !! 0%nat = Some moves ∧
   is_not_None (Some "2024-01") || is_not_None (Some "2024-02") = true ∧
   date_ready (Some "2024-01") (Some "2024-02") moves = true) ∧
  ∃ w' out d',
    date_filter 0%nat (Some "2024-01") (Some "2024-02") (world_with moves) = (w', Ok out) ∧
    heap w' !! out = Some d' ∧
    map (λ row, row !! "date") (map snd (rows d'))
    = [ Some (VTimestamp {| ts_year := 2024; ts_month := Jan; ts_day := 1 |});
        Some (VTimestamp {| ts_year := 2024; ts_month := Jan; ts_day := 15 |});
        Some (VTimestamp {| ts_year := 2024; ts_month := Feb; ts_day := 29 |}) ].
Proof.
  assert (heap (world_with moves) !! 0%nat = Some moves) as H1 by reflexivity.
  assert (is_not_None (Some "2024-01") || is_not_None (Some "2024-02") = true) as H2
    by reflexivity.
  assert (date_ready (Some "2024-01") (Some "2024-02") moves = true) as H3
    by (vm_compute; reflexivity).
  split; [repeat split; assumption|].
  destruct (date_filter_retains_year_month_range 0%nat moves (Some "2024-01") (Some "2024-02")
              (world_with moves) H1 H2 H3)
    as (w' & out & d' & Hrun & Hout & Hrows & _).
  exists w', out, d'. repeat split; try assumption.
  rewrite Hrows. vm_compute. reflexivity.
Defined.

Lemma source_unmodified_and_attributes_carried_witness :
  (heap (world_with moves) !! 0%nat = Some moves ∧
   forallb has_fen (rows moves) = true ∧
   date_ready (Some "2024-01") (Some "2024-02") moves = true ∧
   Stockfish STOCK_PATH 15 = Ok "") ∧
  ∃ w' out,
    add_eval 0%nat 15 (Some "2024-01") (Some "2024-02") (world_with moves) = (w', Ok out) ∧
    heap w' !! 0%nat = Some moves.
Proof.
  assert (heap (world_with moves) !! 0%nat = Some moves) as H1 by reflexivity.
  assert (forallb has_fen (rows moves) = true) as H2 by (vm_compute; reflexivity).
  assert (date_ready (Some "2024-01") (Some "2024-02") moves = true) as H3
    by (vm_compute; reflexivity).
  assert (Stockfish STOCK_PATH 15 = Ok "") as H4 by reflexivity.
  split; [repeat split; assumption|].
  destruct (source_unmodified_and_attributes_carried 0%nat moves 15
              (Some "2024-01") (Some "2024-02") _ (world_with moves) H1 H2 H3 H4)
    as (w' & out & d' & Hrun & _ & Hsource & _).
  exists w', out. split; [exact Hrun|exact Hsource].
Defined.

Lemma unparseable_date_fails_before_engine_witness :
  (heap (world_with misdated) !! 0%nat = Some misdated ∧
   is_not_None (@None string) || is_not_None (Some "2024-12") = true ∧
   "date" ∈ columns misdated ∧
   forallb date_parses (rows misdated) = false) ∧
  ∃ w',
    add_eval 0%nat 15 None (Some "2024-12") (world_with misdated)
      = (w', Raise (ValueError "Unknown datetime string format")) ∧
    engine_log w' = [] ∧ stdout w' = [].
Proof.
  assert (heap (world_with misdated) !! 0%nat = Some misdated) as H1 by reflexivity.
  assert (is_not_None (@None string) || is_not_None (Some "2024-12") = true) as H2
    by reflexivity.
  assert ("date" ∈ columns misdated) as H3.
  { apply (bool_decide_unpack _). vm_compute. exact I. }
  assert (forallb date_parses (rows misdated) = false) as H4 by (vm_compute; reflexivity).
  split; [repeat split; assumption|].
  destruct (unparseable_date_fails_before_engine 0%nat misdated 15 None (Some "2024-12")
              (world_with misdated) H1 H2 H3 H4)
    as (w' & e & Hrun & He & [Hlog _] & Hprint & _).
  exists w'. repeat split; try assumption.
  rewrite Hrun. do 2 f_equal. vm_compute in He. by injection He.
Defined.

(** C8, as stated, fails: with a date range the [date] attribute of an
    output record is not the input's (here a string) but the timestamp
    parsed from it. *)
Lemma date_attribute_is_not_passed_through :
  (add_eval 0%nat 15 (Some "2024-01") (Some "2024-02") (world_with moves)).2 = Ok 5%nat ∧
  (heap (add_eval 0%nat 15 (Some "2024-01") (Some "2024-02") (world_with moves)).1 !! 5%nat
     ≫= λ d', rows d' !! 0%nat ≫= λ o, o.2 !! "date")
  = Some (VTimestamp {| ts_year := 2024; ts_month := Jan; ts_day := 1 |}) ∧
  (kept (Some "2024-01") (Some "2024-02") moves !! 0%nat ≫= λ i, i.2 !! "date")
  = Some (VStr "2024-01-01") ∧
  VTimestamp {| ts_year := 2024; ts_month := Jan; ts_day := 1 |} ≠ VStr "2024-01-01".
Proof.
  split; [vm_compute; reflexivity|].
  split; [vm_compute; reflexivity|].
  split; [vm_compute; reflexivity|].
  discriminate.
Qed.

(** C9, on the code: when the fiftieth record is one the validator
    rejects, the [continue] of line 80 skips the progress report of
    lines 99-100, and only the rejection and the summary are printed;
    with an accepted fiftieth record the report is printed. *)
Lemma no_progress_report_after_invalid_fiftieth :
  stdout (add_eval 0%nat 15 None None (world_with (fifty "not a fen"))).1
  = [ "Invalid FEN at position 49: not a fen...";
      newline +:+ "Completed: 50 positions";
      "Invalid FENs: 1" ] ∧
  stdout (add_eval 0%nat 15 None None (world_with (fifty START_FEN))).1
  = [ "Evaluated 50/50 positions... (0 invalid)";
      newline +:+ "Completed: 50 positions";
      "Invalid FENs: 0" ].
Proof. split; vm_compute; reflexivity. Qed.

(** * The further properties on concrete runs *)

Lemma add_eval_on_no_rows_witness :
  (heap (world_with no_moves) !! 0%nat = Some no_moves ∧
   rows no_moves = [] ∧
   date_ready (Some "2024-01") None no_moves = true ∧
   Stockfish STOCK_PATH 15 = Ok "") ∧
  ∃ w' out d',
    add_eval 0%nat 15 (Some "2024-01") None (world_with no_moves) = (w', Ok out) ∧
    heap w' !! out = Some d' ∧
    rows d' = [] ∧
    stdout w' = [newline +:+ "Completed: 0 positions"; "Invalid FENs: 0"].
Proof.
  assert (heap (world_with no_moves) !! 0%nat = Some no_moves) as H1 by reflexivity.
  assert (rows no_moves = []) as H2 by reflexivity.
  assert (date_ready (Some "2024-01") None no_moves = true) as H3
    by (vm_compute; reflexivity).
  assert (Stockfish STOCK_PATH 15 = Ok "") as H4 by reflexivity.
  split; [repeat split; assumption|].
  destruct (add_eval_on_no_rows 0%nat no_moves 15 (Some "2024-01") None _
              (world_with no_moves) H1 H2 H3 H4)
    as (w' & out & d' & Hrun & Hout & Hrows & _ & _ & Hprint).
  exists w', out, d'. repeat split; assumption.
Defined.

Lemma missing_fen_raises_key_error_witness :
  (heap (world_with unpositioned) !! 0%nat = Some unpositioned ∧
   date_ready None None unpositioned = true ∧
   Stockfish STOCK_PATH 15 = Ok "" ∧
   kept None None unpositioned
     = [] ++ (0, {[ "date" := VStr "2024-01-01"; "ply" := VInt 1 ]}) :: [] ∧
   forallb has_fen [] = true ∧
   ({[ "date" := VStr "2024-01-01"; "ply" := VInt 1 ]} : gmap string Value) !! "fen" = None) ∧
  ∃ w',
    add_eval 0%nat 15 None None (world_with unpositioned) = (w', Raise (KeyError "fen")) ∧
    engine_log w' = [CallInit STOCK_PATH 15].
Proof.
  assert (heap (world_with unpositioned) !! 0%nat = Some unpositioned) as H1 by reflexivity.
  assert (date_ready None None unpositioned = true) as H2 by reflexivity.
  assert (Stockfish STOCK_PATH 15 = Ok "") as H3 by reflexivity.
  assert (kept None None unpositioned
          = [] ++ (0, {[ "date" := VStr "2024-01-01"; "ply" := VInt 1 ]}) :: []) as H4
    by reflexivity.
  assert (forallb has_fen [] = true) as H5 by reflexivity.
  assert (({[ "date" := VStr "2024-01-01"; "ply" := VInt 1 ]} : gmap string Value) !! "fen"
          = None) as H6 by (vm_compute; reflexivity).
  split; [repeat split; assumption|].
  destruct (missing_fen_raises_key_error 0%nat unpositioned 15 None None _
              (world_with unpositioned) [] _ [] H1 H2 H3 H4 H5 H6)
    as (w' & xs & Hrun & _ & Hlog & Hxs).
  exists w'. split; [exact Hrun|].
  cbn in Hxs. apply map_eq_nil in Hxs. rewrite Hxs in Hlog. exact Hlog.
Defined.

Lemma non_string_fen_aborts_the_run_witness :
  (heap (world_with holed) !! 0%nat = Some holed ∧
   date_ready None None holed = true ∧
   Stockfish STOCK_PATH 15 = Ok "" ∧
   kept None None holed
     = [ (0, {[ "fen" := VStr START_FEN; "ply" := VInt 1 ]}) ]
       ++ (1, {[ "fen" := VNone; "ply" := VInt 2 ]})
       :: [ (2, {[ "fen" := VStr START_FEN; "ply" := VInt 3 ]}) ] ∧
   forallb has_fen [ (0, {[ "fen" := VStr START_FEN; "ply" := VInt 1 ]}) ] = true ∧
   ({[ "fen" := VNone; "ply" := VInt 2 ]} : gmap string Value) !! "fen" = Some VNone ∧
   (∀ s, VNone ≠ VStr s)) ∧
  ∃ w',
    add_eval 0%nat 15 None None (world_with holed)
    = (w', Raise (TypeError "'NoneType' object is not subscriptable")) ∧
    heap w' !! 0%nat = Some holed.
Proof.
  assert (heap (world_with holed) !! 0%nat = Some holed) as H1 by reflexivity.
  assert (date_ready None None holed = true) as H2 by reflexivity.
  assert (Stockfish STOCK_PATH 15 = Ok "") as H3 by reflexivity.
  assert (kept None None holed
          = [ (0, {[ "fen" := VStr START_FEN; "ply" := VInt 1 ]}) ]
            ++ (1, {[ "fen" := VNone; "ply" := VInt 2 ]})
            :: [ (2, {[ "fen" := VStr START_FEN; "ply" := VInt 3 ]}) ]) as H4
    by reflexivity.
  assert (forallb has_fen [ (0, {[ "fen" := VStr START_FEN; "ply" := VInt 1 ]}) ] = true)
    as H5 by (vm_compute; reflexivity).
  assert (({[ "fen" := VNone; "ply" := VInt 2 ]} : gmap string Value) !! "fen" = Some VNone)
    as H6 by (vm_compute; reflexivity).
  assert (∀ s, VNone ≠ VStr s) as H7 by (intros s; discriminate).
  split; [repeat split; assumption|].
  destruct (non_string_fen_aborts_the_run 0%nat holed 15 None None _
              (world_with holed) _ _ _ _ H1 H2 H3 H4 H5 H6 H7)
    as (w' & xs & Hrun & Hsource & Hlog & Hxs).
  exists w'. split; [exact Hrun|].
  rewrite Hsource; [exact H1|]. rewrite H1. by eexists.
Defined.

Lemma engine_start_failure_raises_witness :
  (heap (world_of absent_engine moves) !! 0%nat = Some moves ∧
   date_ready (H := absent_engine) None None moves = true ∧
   Stockfish (Libraries := absent_engine) STOCK_PATH 15
     = Raise {| exc_class := "FileNotFoundError"; exc_msg := "No such file" |}) ∧
  ∃ w',
    add_eval (H := absent_engine) 0%nat 15 None None (world_of absent_engine moves)
      = (w', Raise {| exc_class := "FileNotFoundError"; exc_msg := "No such file" |}) ∧
    stdout w' = [].
Proof.
  assert (heap (world_of absent_engine moves) !! 0%nat = Some moves) as H1 by reflexivity.
  assert (date_ready (H := absent_engine) None None moves = true) as H2 by reflexivity.
  assert (Stockfish (Libraries := absent_engine) STOCK_PATH 15
          = Raise {| exc_class := "FileNotFoundError"; exc_msg := "No such file" |}) as H3
    by reflexivity.
  split; [repeat split; assumption|].
  destruct (engine_start_failure_raises (H := absent_engine) 0%nat moves 15 None None _
              (world_of absent_engine moves) H1 H2 H3)
    as (w' & Hrun & Hprint & _).
  exists w'. split; assumption.
Defined.

Lemma unparseable_bound_fails_before_engine_witness :
  (heap (world_with moves) !! 0%nat = Some moves ∧
   "date" ∈ columns moves ∧
   forallb date_parses (rows moves) = true ∧
   bound_parses (Some "2024-01") && bound_parses (Some "soon") = false) ∧
  ∃ w',
    add_eval 0%nat 15 (Some "2024-01") (Some "soon") (world_with moves)
      = (w', Raise (ValueError "Unknown datetime string format")) ∧
    engine_log w' = [].
Proof.
  assert (heap (world_with moves) !! 0%nat = Some moves) as H1 by reflexivity.
  assert ("date" ∈ columns moves) as H2.
  { apply (bool_decide_unpack _). vm_compute. exact I. }
  assert (forallb date_parses (rows moves) = true) as H3 by (vm_compute; reflexivity).
  assert (bound_parses (Some "2024-01") && bound_parses (Some "soon") = false) as H4
    by (vm_compute; reflexivity).
  split; [repeat split; assumption|].
  destruct (unparseable_bound_fails_before_engine 0%nat moves 15 (Some "2024-01")
              (Some "soon") (world_with moves) H1 H2 H3 H4)
    as (w' & x & s & Hrun & Hwhich & Hs & [Hlog _] & _).
  exists w'. split; [|exact Hlog].
  rewrite Hrun. do 2 f_equal.
  assert (bound_parses (Some "2024-01") = true) as Hstart by (vm_compute; reflexivity).
  rewrite Hstart in Hwhich. injection Hwhich as <-.
  vm_compute in Hs. by injection Hs.
Defined.

Lemma output_index_labels_witness :
  (heap (world_with annotated) !! 0%nat = Some annotated ∧
   forallb has_fen (rows annotated) = true ∧
   date_ready (Some "2024-01") None annotated = true ∧
   Stockfish STOCK_PATH 15 = Ok "") ∧
  ∃ w' out d',
    add_eval 0%nat 15 (Some "2024-01") None (world_with annotated) = (w', Ok out) ∧
    heap w' !! out = Some d' ∧
    map fst (rows annotated) = [7; 9] ∧
    map fst (rows d') = [0; 1].
Proof.
  assert (heap (world_with annotated) !! 0%nat = Some annotated) as H1 by reflexivity.
  assert (forallb has_fen (rows annotated) = true) as H2 by (vm_compute; reflexivity).
  assert (date_ready (Some "2024-01") None annotated = true) as H3
    by (vm_compute; reflexivity).
  assert (Stockfish STOCK_PATH 15 = Ok "") as H4 by reflexivity.
  split; [repeat split; assumption|].
  destruct (output_index_labels 0%nat annotated 15 (Some "2024-01") None _
              (world_with annotated) H1 H2 H3 H4)
    as (w' & out & d' & Hrun & Hout & Hlabels).
  exists w', out, d'. split; [exact Hrun|]. split; [exact Hout|].
  split; [reflexivity|]. rewrite Hlabels. vm_compute. reflexivity.
Defined.

Lemma output_columns_witness :
  (heap (world_with annotated) !! 0%nat = Some annotated ∧
   forallb has_fen (rows annotated) = true ∧
   date_ready (Some "2024-01") None annotated = true ∧
   Stockfish STOCK_PATH 15 = Ok "") ∧
  ∃ w' out d',
    add_eval 0%nat 15 (Some "2024-01") None (world_with annotated) = (w', Ok out) ∧
    heap w' !! out = Some d' ∧
    columns annotated = ["fen"; "eval"; "date"; "year_month"] ∧
    columns d' = ["fen"; "eval"; "date"].
Proof.
  assert (heap (world_with annotated) !! 0%nat = Some annotated) as H1 by reflexivity.
  assert (forallb has_fen (rows annotated) = true) as H2 by (vm_compute; reflexivity).
  assert (date_ready (Some "2024-01") None annotated = true) as H3
    by (vm_compute; reflexivity).
  assert (Stockfish STOCK_PATH 15 = Ok "") as H4 by reflexivity.
  split; [repeat split; assumption|].
  destruct (output_columns 0%nat annotated 15 (Some "2024-01") None _
              (world_with annotated) H1 H2 H3 H4)
    as (w' & out & d' & Hrun & Hout & Hcols & _).
  exists w', out, d'. split; [exact Hrun|]. split; [exact Hout|].
  split; [reflexivity|]. rewrite Hcols. vm_compute. reflexivity.
Defined.

Lemma filtered_dates_are_timestamps_witness :
  (heap (world_with moves) !! 0%nat = Some moves ∧
   forallb has_fen (rows moves) = true ∧
   date_ready None (Some "2024-01") moves = true ∧
   Stockfish STOCK_PATH 15 = Ok "" ∧
   is_not_None (@None string) || is_not_None (Some "2024-01") = true) ∧
  ∃ w' out d',
    add_eval 0%nat 15 None (Some "2024-01") (world_with moves) = (w', Ok out) ∧
    heap w' !! out = Some d' ∧
    Forall (λ o, ∃ t, o.2 !! "date" = Some (VTimestamp t)) (rows d').
Proof.
  assert (heap (world_with moves) !! 0%nat = Some moves) as H1 by reflexivity.
  assert (forallb has_fen (rows moves) = true) as H2 by (vm_compute; reflexivity).
  assert (date_ready None (Some "2024-01") moves = true) as H3
    by (vm_compute; reflexivity).
  assert (Stockfish STOCK_PATH 15 = Ok "") as H4 by reflexivity.
  assert (is_not_None (@None string) || is_not_None (Some "2024-01") = true) as H5
    by reflexivity.
  split; [repeat split; assumption|].
  exact (filtered_dates_are_timestamps 0%nat moves 15 None (Some "2024-01") _
           (world_with moves) H1 H2 H3 H4 H5).
Defined.

Lemma inverted_range_keeps_nothing_witness :
  (heap (world_with moves) !! 0%nat = Some moves ∧
   date_ready (Some "2024-03") (Some "2024-01") moves = true ∧
   Stockfish STOCK_PATH 15 = Ok "" ∧
   pd_Period "2024-03" = Ok {| p_year := 2024; p_month := Mar |} ∧
   pd_Period "2024-01" = Ok {| p_year := 2024; p_month := Jan |} ∧
   ordinal {| p_year := 2024; p_month := Jan |}
     < ordinal {| p_year := 2024; p_month := Mar |}) ∧
  ∃ w' out d',
    add_eval 0%nat 15 (Some "2024-03") (Some "2024-01") (world_with moves) = (w', Ok out) ∧
    heap w' !! out = Some d' ∧
    rows d' = [].
Proof.
  assert (heap (world_with moves) !! 0%nat = Some moves) as H1 by reflexivity.
  assert (date_ready (Some "2024-03") (Some "2024-01") moves = true) as H2
    by (vm_compute; reflexivity).
  assert (Stockfish STOCK_PATH 15 = Ok "") as H3 by reflexivity.
  assert (pd_Period "2024-03" = Ok {| p_year := 2024; p_month := Mar |}) as H4
    by (vm_compute; reflexivity).
  assert (pd_Period "2024-01" = Ok {| p_year := 2024; p_month := Jan |}) as H5
    by (vm_compute; reflexivity).
  assert (ordinal {| p_year := 2024; p_month := Jan |}
          < ordinal {| p_year := 2024; p_month := Mar |}) as H6 by (vm_compute; reflexivity).
  split; [repeat split; assumption|].
  destruct (inverted_range_keeps_nothing 0%nat moves 15 "2024-03" "2024-01" _ _ _
              (world_with moves) H1 H2 H3 H4 H5 H6)
    as (w' & out & d' & Hrun & Hout & Hrows & _).
  exists w', out, d'. repeat split; assumption.
Defined.

Lemma result_is_a_new_object_witness :
  (heap (world_with moves) !! 0%nat = Some moves ∧
   forallb has_fen (rows moves) = true ∧
   date_ready None None moves = true ∧
   Stockfish STOCK_PATH 15 = Ok "") ∧
  ∃ w' out,
    add_eval 0%nat 15 None None (world_with moves) = (w', Ok out) ∧
    out ≠ 0%nat.
Proof.
  assert (heap (world_with moves) !! 0%nat = Some moves) as H1 by reflexivity.
  assert (forallb has_fen (rows moves) = true) as H2 by (vm_compute; reflexivity).
  assert (date_ready None None moves = true) as H3 by reflexivity.
  assert (Stockfish STOCK_PATH 15 = Ok "") as H4 by reflexivity.
  split; [repeat split; assumption|].
  destruct (result_is_a_new_object 0%nat moves 15 None None _ (world_with moves)
              H1 H2 H3 H4)
    as (w' & out & Hrun & Hne & _).
  exists w', out. split; assumption.
Defined.

Lemma progress_report_after_accepted_record_witness :
  (heap (world_with (fifty START_FEN)) !! 0%nat = Some (fifty START_FEN) ∧
   forallb has_fen (rows (fifty START_FEN)) = true ∧
   date_ready None None (fifty START_FEN) = true ∧
   Stockfish STOCK_PATH 15 = Ok "" ∧
   kept None None (fifty START_FEN) !! 49%nat = Some (49, {[ "fen" := VStr START_FEN ]}) ∧
   valid_fen (fen_of (49, ({[ "fen" := VStr START_FEN ]} : gmap string Value))) = true ∧
   (label_of None None 49 (49, ({[ "fen" := VStr START_FEN ]} : gmap string Value)) + 1)
     `mod` 50 = 0) ∧
  ∃ w' out,
    add_eval 0%nat 15 None None (world_with (fifty START_FEN)) = (w', Ok out) ∧
    "Evaluated 50/50 positions... (0 invalid)" ∈ stdout w'.
Proof.
  assert (heap (world_with (fifty START_FEN)) !! 0%nat = Some (fifty START_FEN)) as H1
    by reflexivity.
  assert (forallb has_fen (rows (fifty START_FEN)) = true) as H2
    by (vm_compute; reflexivity).
  assert (date_ready None None (fifty START_FEN) = true) as H3 by reflexivity.
  assert (Stockfish STOCK_PATH 15 = Ok "") as H4 by reflexivity.
  assert (kept None None (fifty START_FEN) !! 49%nat
          = Some (49, {[ "fen" := VStr START_FEN ]})) as H5 by (vm_compute; reflexivity).
  assert (valid_fen (fen_of (49, ({[ "fen" := VStr START_FEN ]} : gmap string Value)))
          = true) as H6 by (vm_compute; reflexivity).
  assert ((label_of None None 49 (49, ({[ "fen" := VStr START_FEN ]} : gmap string Value))
           + 1) `mod` 50 = 0) as H7 by (vm_compute; reflexivity).
  split; [repeat split; assumption|].
  destruct (progress_report_after_accepted_record 0%nat (fifty START_FEN) 15 None None _
              (world_with (fifty START_FEN)) 49%nat _ H1 H2 H3 H4 H5 H6 H7)
    as (w' & out & Hrun & Hin).
  exists w', out. split; [exact Hrun|].
  assert (progress_line
            (label_of None None 49 (49, ({[ "fen" := VStr START_FEN ]} : gmap string Value)))
            (Z.of_nat (length (kept None None (fifty START_FEN))))
            (rejected (take 49 (map fen_of (kept None None (fifty START_FEN)))))
          = "Evaluated 50/50 positions... (0 invalid)") as Hline
    by (vm_compute; reflexivity).
  rewrite <- Hline. exact Hin.
Defined.

Lemma engine_failure_is_reported_witness :
  (heap (world_with moves) !! 0%nat = Some moves ∧
   forallb has_fen (rows moves) = true ∧
   date_ready None None moves = true ∧
   Stockfish STOCK_PATH 15 = Ok "" ∧
   kept None None moves !! 3%nat = Some (3, move CRASH_FEN "2024-02-29" 4) ∧
   valid_fen (fen_of (3, move CRASH_FEN "2024-02-29" 4)) = true ∧
   (ask (engine_after "" (take 3 (map fen_of (kept None None moves))))
        (fen_of (3, move CRASH_FEN "2024-02-29" 4))).2
     = Raise (ValueError "engine process died")) ∧
  ∃ w' out,
    add_eval 0%nat 15 None None (world_with moves) = (w', Ok out) ∧
    "Error at position 3: engine process died" ∈ stdout w'.
Proof.
  assert (heap (world_with moves) !! 0%nat = Some moves) as H1 by reflexivity.
  assert (forallb has_fen (rows moves) = true) as H2 by (vm_compute; reflexivity).
  assert (date_ready None None moves = true) as H3 by reflexivity.
  assert (Stockfish STOCK_PATH 15 = Ok "") as H4 by reflexivity.
  assert (kept None None moves !! 3%nat = Some (3, move CRASH_FEN "2024-02-29" 4)) as H5
    by reflexivity.
  assert (valid_fen (fen_of (3, move CRASH_FEN "2024-02-29" 4)) = true) as H6
    by (vm_compute; reflexivity).
  assert ((ask (engine_after "" (take 3 (map fen_of (kept None None moves))))
               (fen_of (3, move CRASH_FEN "2024-02-29" 4))).2
          = Raise (ValueError "engine process died")) as H7 by (vm_compute; reflexivity).
  split; [repeat split; assumption|].
  destruct (engine_failure_is_reported 0%nat moves 15 None None _ (world_with moves)
              3%nat _ _ H1 H2 H3 H4 H5 H6 H7)
    as (w' & out & Hrun & Hin).
  exists w', out. split; [exact Hrun|exact Hin].
Defined.

Lemma rejected_position_is_reported_witness :
  (heap (world_with moves) !! 0%nat = Some moves ∧
   forallb has_fen (rows moves) = true ∧
   date_ready (Some "2024-01") None moves = true ∧
   Stockfish STOCK_PATH 15 = Ok "" ∧
   kept (Some "2024-01") None moves !! 1%nat = Some (2, move "not a fen" "2024-01-15" 3) ∧
   valid_fen (fen_of (2, move "not a fen" "2024-01-15" 3)) = false) ∧
  ∃ w' out,
    add_eval 0%nat 15 (Some "2024-01") None (world_with moves) = (w', Ok out) ∧
    "Invalid FEN at position 1: not a fen..." ∈ stdout w'.
Proof.
  assert (heap (world_with moves) !! 0%nat = Some moves) as H1 by reflexivity.
  assert (forallb has_fen (rows moves) = true) as H2 by (vm_compute; reflexivity).
  assert (date_ready (Some "2024-01") None moves = true) as H3
    by (vm_compute; reflexivity).
  assert (Stockfish STOCK_PATH 15 = Ok "") as H4 by reflexivity.
  assert (kept (Some "2024-01") None moves !! 1%nat
          = Some (2, move "not a fen" "2024-01-15" 3)) as H5 by (vm_compute; reflexivity).
  assert (valid_fen (fen_of (2, move "not a fen" "2024-01-15" 3)) = false) as H6
    by (vm_compute; reflexivity).
  split; [repeat split; assumption|].
  destruct (rejected_position_is_reported 0%nat moves 15 (Some "2024-01") None _
              (world_with moves) 1%nat _ H1 H2 H3 H4 H5 H6)
    as (w' & out & Hrun & Hin).
  exists w', out. split; [exact Hrun|].
  assert ("Invalid FEN at position "
            +:+ pretty (label_of (Some "2024-01") None 1
                          (2, move "not a fen" "2024-01-15" 3))
            +:+ ": "
            +:+ String.substring 0 50 (fen_of (2, move "not a fen" "2024-01-15" 3))
            +:+ "..."
          = "Invalid FEN at position 1: not a fen...") as Hline
    by (vm_compute; reflexivity).
  rewrite <- Hline. exact Hin.
Defined.

Lemma dead_engine_degrades_to_unavailable_witness :
  (heap (world_of dead_engine moves) !! 0%nat = Some moves ∧
   forallb has_fen (rows moves) = true ∧
   date_ready (H := dead_engine) None None moves = true ∧
   Stockfish (Libraries := dead_engine) STOCK_PATH 15 = Ok "" ∧
   (∀ e fen, ∃ x, (ask (H := dead_engine) e fen).2 = Raise x)) ∧
  ∃ w' out d',
    add_eval (H := dead_engine) 0%nat 15 None None (world_of dead_engine moves)
      = (w', Ok out) ∧
    heap w' !! out = Some d' ∧
    length (rows d') = 6%nat ∧
    Forall (λ o, o.2 !! "eval" = Some VNone) (rows d').
Proof.
  assert (heap (world_of dead_engine moves) !! 0%nat = Some moves) as H1 by reflexivity.
  assert (forallb has_fen (rows moves) = true) as H2
    by (vm_compute; reflexivity).
  assert (date_ready (H := dead_engine) None None moves = true) as H3 by reflexivity.
  assert (Stockfish (Libraries := dead_engine) STOCK_PATH 15 = Ok "") as H4 by reflexivity.
  assert (∀ e fen, ∃ x, (ask (H := dead_engine) e fen).2 = Raise x) as H5.
  { intros e fen. eexists. reflexivity. }
  split; [repeat split; assumption|].
  destruct (dead_engine_degrades_to_unavailable (H := dead_engine) 0%nat moves 15 None None _
              (world_of dead_engine moves) H1 H2 H3 H4 H5)
    as (w' & out & d' & Hrun & Hout & Hlen & Hall).
  exists w', out, d'. repeat split; assumption.
Defined.

Lemma all_rejected_run_witness :
  (heap (world_with garbled) !! 0%nat = Some garbled ∧
   forallb has_fen (rows garbled) = true ∧
   date_ready None None garbled = true ∧
   Stockfish STOCK_PATH 15 = Ok "" ∧
   forallb (λ r, negb (valid_fen (fen_of r))) (kept None None garbled) = true) ∧
  ∃ w' out,
    add_eval 0%nat 15 None None (world_with garbled) = (w', Ok out) ∧
    engine_log w' = [CallInit STOCK_PATH 15] ∧
    stdout w' = [ "Invalid FEN at position 0: not a fen...";
                  "Invalid FEN at position 1: 8/8/8/8/8/8/8/8 w - - 0 1...";
                  newline +:+ "Completed: 2 positions";
                  "Invalid FENs: 2" ].
Proof.
  assert (heap (world_with garbled) !! 0%nat = Some garbled) as H1 by reflexivity.
  assert (forallb has_fen (rows garbled) = true) as H2 by (vm_compute; reflexivity).
  assert (date_ready None None garbled = true) as H3 by reflexivity.
  assert (Stockfish STOCK_PATH 15 = Ok "") as H4 by reflexivity.
  assert (forallb (λ r, negb (valid_fen (fen_of r))) (kept None None garbled) = true) as H5
    by (vm_compute; reflexivity).
  split; [repeat split; assumption|].
  destruct (all_rejected_run 0%nat garbled 15 None None _ (world_with garbled)
              H1 H2 H3 H4 H5)
    as (w' & out & Hrun & Hlog & Hprint).
  exists w', out. split; [exact Hrun|]. split; [exact Hlog|].
  rewrite Hprint. vm_compute. reflexivity.
Defined.

(** * Properties of [download_pgn] *)

Module DownloadPgnFacts.
Import DownloadPgn.

Section Facts.
Context `{Services}.

(** ** Strings *)

Lemma split_nonempty sep s : split sep s ≠ [].
Proof.
  destruct s as [|c s]; cbn; [done|].
  case_bool_decide; [done|]. by destruct (split sep s).
Qed.

Lemma split_app sep (s t : string) :
  split sep (s +:+ String sep t) = split sep s ++ split sep t.
Proof.
  induction s as [|c s IH].
  - change ("" +:+ String sep t) with (String sep t). cbn [split].
    by rewrite bool_decide_true.
  - change (String c s +:+ String sep t) with (String c (s +:+ String sep t)).
    cbn [split]. rewrite IH. case_bool_decide; [done|].
    pose proof (split_nonempty sep s). by destruct (split sep s).
Qed.

Lemma split_slash_free (s : string) : slash_free s = true → split slash s = [s].
Proof.
  induction s as [|c s IH]; cbn; [done|]. intros Hfree.
  apply andb_true_iff in Hfree as [Hc Hs]. rewrite (IH Hs).
  by destruct (bool_decide (c = slash)).
Qed.

Lemma last_n_app {A} (l k : list A) : last_n (List.length k) (l ++ k) = k.
Proof.
  unfold last_n. rewrite length_app.
  replace (List.length l + List.length k - List.length k)%nat with (List.length l) by lia.
  by rewrite skipn_app, skipn_all, Nat.sub_diag.
Qed.

(** The two pieces line 33 takes from an archive URL that ends in
    [/year/month]. *)
Lemma month_of_archive_url (base year month : string) :
  slash_free year = true →
  slash_free month = true →
  last_n 2 (split slash (base +:+ String slash (year +:+ String slash month)))
  = [year; month].
Proof.
  intros Hy Hm. rewrite split_app, split_app.
  rewrite (split_slash_free year Hy), (split_slash_free month Hm).
  apply (last_n_app (split slash base) [year; month]).
Qed.

Lemma lower_char_idemp c : lower_char (lower_char c) = lower_char c.
Proof.
  assert (∀ n : nat, (n < 256)%nat →
            lower_char (lower_char (Ascii.ascii_of_nat n))
            = lower_char (Ascii.ascii_of_nat n)) as Hall.
  { intros n Hn. do 256 (destruct n as [|n]; [vm_compute; reflexivity|]). lia. }
  rewrite <- (Ascii.ascii_nat_embedding c). apply Hall, Ascii.nat_ascii_bounded.
Qed.

Lemma str_lower_idemp s : str_lower (str_lower s) = str_lower s.
Proof. induction s as [|c s IH]; cbn; [done|]. by rewrite lower_char_idemp, IH. Qed.

Lemma length_str_lower s : String.length (str_lower s) = String.length s.
Proof. induction s as [|c s IH]; cbn; [done|]. by rewrite IH. Qed.

Lemma rstrip_last s c : last_char (rstrip s) = Some c → isspace c = false.
Proof.
  revert c. induction s as [|a s IH]; intros c; cbn; [done|].
  destruct (rstrip s) as [|b r] eqn:Hr; cbn.
  - destruct (isspace a) eqn:Ha; cbn; [done|]. by intros [= <-].
  - rewrite andb_false_r. cbn. intros Hlast. by apply IH.
Qed.

Lemma last_char_app s c : last_char (s +:+ String c "") = Some c.
Proof.
  induction s as [|a s IH]; [done|].
  change (String a s +:+ String c "") with (String a (s +:+ String c "")).
  cbn [last_char]. destruct (s +:+ String c "") eqn:Hs; [by destruct s|]. done.
Qed.

(** ** One month *)

Lemma last_two {A} (l : list A) :
  (2 ≤ List.length l)%nat → ∃ x y, last_n 2 l = [x; y].
Proof.
  intros Hlen. unfold last_n.
  assert (List.length (skipn (List.length l - 2) l) = 2%nat) as Hl
    by (rewrite length_skipn; lia).
  destruct (skipn (List.length l - 2) l) as [|x [|y [|z k]]]; try done.
  by exists x, y.
Qed.

Lemma last_of_one {A} (l : list A) :
  l ≠ [] → ¬ (2 ≤ List.length l)%nat → ∃ x, last_n 2 l = [x].
Proof.
  intros Hne Hlen. destruct l as [|x [|y l]]; [done| |cbn in Hlen; lia].
  by exists x.
Qed.

Lemma download_month_run n all_pgn i a st o r :
  has_slash a = true →
  requests_get (outside st) (a +:+ "/pgn") = (o, Ok r) →
  download_month n all_pgn i a st
  = ({| outside := o;
        printed := printed st ++ [month_line n i a];
        events := events st ++ [Get (a +:+ "/pgn")] |},
     Ok (all_pgn ++ (if is_blank (response_text r) then [] else [response_text r]))).
Proof.
  intros Hslash Hget. apply bool_decide_eq_true in Hslash.
  destruct (last_two _ Hslash) as (m0 & m1 & Hmonth).
  unfold download_month, month_line. rewrite Hmonth. cbn.
  unfold mbind, D_bind, get, effect. cbn. rewrite Hget. cbn.
  unfold is_blank. destruct (is_empty (strip (response_text r))); cbn.
  - by rewrite app_nil_r.
  - done.
Qed.

Lemma download_month_get_raises n all_pgn i a st o x :
  has_slash a = true →
  requests_get (outside st) (a +:+ "/pgn") = (o, Raise x) →
  download_month n all_pgn i a st
  = ({| outside := o;
        printed := printed st ++ [month_line n i a];
        events := events st ++ [Get (a +:+ "/pgn")] |},
     Raise x).
Proof.
  intros Hslash Hget. apply bool_decide_eq_true in Hslash.
  destruct (last_two _ Hslash) as (m0 & m1 & Hmonth).
  unfold download_month, month_line. rewrite Hmonth. cbn.
  unfold mbind, D_bind, get, effect. cbn. by rewrite Hget.
Qed.

Lemma download_month_no_slash n all_pgn i a st :
  has_slash a = false →
  download_month n all_pgn i a st
  = (st, Raise (IndexError "list index out of range")).
Proof.
  intros Hslash. apply bool_decide_eq_false in Hslash.
  destruct (last_of_one _ (split_nonempty slash a) Hslash) as (m0 & Hmonth).
  unfold download_month. rewrite Hmonth. done.
Qed.

(** ** The loop *)

Lemma for_archives_run n : ∀ archives i all_pgn st o rs,
  forallb has_slash archives = true →
  fetch (outside st) archives = (o, Ok rs) →
  for_archives n i archives all_pgn st
  = ({| outside := o;
        printed := printed st ++ month_lines n i archives;
        events := events st ++ map (λ a, Get (a +:+ "/pgn")) archives |},
     Ok (all_pgn ++ kept_texts rs)).
Proof.
  induction archives as [|a archives IH]; intros i all_pgn st o rs Hslash Hfetch.
  - cbn in *. injection Hfetch as <- <-. cbn. rewrite !app_nil_r. by destruct st.
  - cbn in Hslash, Hfetch. apply andb_true_iff in Hslash as [Ha Hslash].
    destruct (requests_get (outside st) (a +:+ "/pgn")) as [o1 [r|x]] eqn:Hget; [|done].
    destruct (fetch o1 archives) as [o2 [rs'|x]] eqn:Hrest; [|done].
    injection Hfetch as <- <-.
    cbn [for_archives]. unfold mbind at 1, D_bind at 1.
    rewrite (download_month_run n all_pgn i a st o1 r Ha Hget).
    rewrite (IH (S i) _ {| outside := o1;
                           printed := printed st ++ [month_line n i a];
                           events := events st ++ [Get (a +:+ "/pgn")] |}
               o2 rs' Hslash Hrest). cbn.
    rewrite <- !app_assoc. cbn. unfold kept_texts. cbn.
    unfold is_blank. by destruct (is_empty (strip (response_text r))).
Qed.

(** A month that cannot be fetched ends the loop: only requests were
    made. *)
Lemma for_archives_get_raises n : ∀ archives i all_pgn st o x,
  forallb has_slash archives = true →
  fetch (outside st) archives = (o, Raise x) →
  ∃ st',
    for_archives n i archives all_pgn st = (st', Raise x) ∧
    outside st' = o ∧
    ∃ k, events st' = events st ++ map (λ a, Get (a +:+ "/pgn")) (take k archives).
Proof.
  induction archives as [|a archives IH]; intros i all_pgn st o x Hslash Hfetch; [done|].
  cbn in Hslash, Hfetch. apply andb_true_iff in Hslash as [Ha Hslash].
  destruct (requests_get (outside st) (a +:+ "/pgn")) as [o1 [r|x1]] eqn:Hget.
  - destruct (fetch o1 archives) as [o2 [rs'|x2]] eqn:Hrest; [done|].
    injection Hfetch as <- <-.
    cbn [for_archives]. unfold mbind at 1, D_bind at 1.
    rewrite (download_month_run n all_pgn i a st o1 r Ha Hget).
    destruct (IH (S i) (all_pgn ++ (if is_blank (response_text r) then []
                                    else [response_text r]))
                {| outside := o1;
                   printed := printed st ++ [month_line n i a];
                   events := events st ++ [Get (a +:+ "/pgn")] |} o2 x2 Hslash Hrest)
      as (st' & Hrun & Hout & k & Hev).
    exists st'. split; [done|]. split; [done|]. exists (S k).
    rewrite Hev. cbn. by rewrite <- app_assoc.
  - injection Hfetch as <- <-.
    cbn [for_archives]. unfold mbind at 1, D_bind at 1.
    rewrite (download_month_get_raises n all_pgn i a st o1 x1 Ha Hget).
    eexists. split; [done|]. split; [done|]. by exists 1%nat.
Qed.

Lemma for_archives_app n archives1 archives2 : ∀ i all_pgn st,
  for_archives n i (archives1 ++ archives2) all_pgn st
  = match for_archives n i archives1 all_pgn st with
    | (st1, Ok all_pgn1) =>
        for_archives n (i + List.length archives1) archives2 all_pgn1 st1
    | (st1, Raise x) => (st1, Raise x)
    end.
Proof.
  induction archives1 as [|a archives1 IH]; intros i all_pgn st.
  - cbn. by rewrite Nat.add_0_r.
  - cbn [app for_archives List.length]. unfold mbind, D_bind.
    destruct (download_month n all_pgn i a st) as [st1 [all_pgn1|x]]; [|done].
    rewrite IH. by rewrite Nat.add_succ_r.
Qed.

Lemma for_archives_no_slash n pre a post : ∀ i all_pgn st o rs,
  forallb has_slash pre = true →
  has_slash a = false →
  fetch (outside st) pre = (o, Ok rs) →
  for_archives n i (pre ++ a :: post) all_pgn st
  = ({| outside := o;
        printed := printed st ++ month_lines n i pre;
        events := events st ++ map (λ a, Get (a +:+ "/pgn")) pre |},
     Raise (IndexError "list index out of range")).
Proof.
  intros i all_pgn st o rs Hpre Ha Hfetch.
  rewrite for_archives_app, (for_archives_run n pre i all_pgn st o rs Hpre Hfetch).
  cbn [for_archives]. unfold mbind, D_bind.
  by rewrite (download_month_no_slash _ _ _ _ _ Ha).
Qed.

Lemma month_lines_lookup n : ∀ archives i j,
  month_lines n i archives !! j = month_line n (i + j) <$> archives !! j.
Proof.
  induction archives as [|a archives IH]; intros i j; [done|].
  destruct j as [|j]; cbn.
  - by rewrite Nat.add_0_r.
  - rewrite IH. by rewrite Nat.add_succ_r.
Qed.

Lemma length_month_lines n : ∀ archives i,
  List.length (month_lines n i archives) = List.length archives.
Proof. induction archives as [|a archives IH]; intros i; cbn; [done|]. by rewrite IH. Qed.

Lemma requested_app (l k : list Event) : requested (l ++ k) = requested l ++ requested k.
Proof. unfold requested. apply omap_app. Qed.

Lemma requested_month_requests archives :
  requested (map (λ a, Get (a +:+ "/pgn")) archives) = map (λ a, a +:+ "/pgn") archives.
Proof. induction archives as [|a archives IH]; cbn; [done|]. by rewrite <- IH. Qed.

Lemma no_write_month_requests archives :
  List.filter is_Write (map (λ a, Get (a +:+ "/pgn")) archives) = [].
Proof. induction archives as [|a archives IH]; cbn; done. Qed.

(** ** The whole call *)

(** With the directory made and the archive list received, the call is
    the loop followed by the write. *)
Lemma download_pgn_reaches_loop username st o1 o2 response archives :
  mkdir (outside st) output_dir = (o1, Ok ()) →
  requests_get o1 (archives_url username) = (o2, Ok response) →
  response_archives response = Ok archives →
  download_pgn username st
  = (all_pgn ← for_archives (List.length archives) 1 (rev archives) [];
     effect (Write (output_file username) (file_content all_pgn))
            (λ o, write_file o (output_file username) (file_content all_pgn));;
     print (saved_line username))
      {| outside := o2;
         printed := printed st;
         events := events st ++ [Mkdir output_dir; Get (archives_url username)] |}.
Proof.
  intros Hmkdir Hget Harchives.
  unfold download_pgn. unfold mbind at 1, D_bind at 1. unfold effect at 1.
  fold output_dir. rewrite Hmkdir. cbn [outside printed events].
  unfold mbind at 1, D_bind at 1. unfold get, effect at 1.
  fold (archives_url username). cbn [outside printed events]. rewrite Hget.
  unfold mbind at 1, D_bind at 1. unfold lift at 1. rewrite Harchives.
  rewrite List.length_rev, <- app_assoc. reflexivity.
Qed.

Lemma download_pgn_run username st o1 o2 o3 o4 response archives rs :
  mkdir (outside st) output_dir = (o1, Ok ()) →
  requests_get o1 (archives_url username) = (o2, Ok response) →
  response_archives response = Ok archives →
  forallb has_slash archives = true →
  fetch o2 (rev archives) = (o3, Ok rs) →
  write_file o3 (output_file username) (file_content (kept_texts rs)) = (o4, Ok ()) →
  download_pgn username st
  = ({| outside := o4;
        printed := printed st ++ month_lines (List.length archives) 1 (rev archives)
                     ++ [saved_line username];
        events := events st
                    ++ [Mkdir output_dir; Get (archives_url username)]
                    ++ month_requests (rev archives)
                    ++ [Write (output_file username) (file_content (kept_texts rs))] |},
     Ok ()).
Proof.
  intros Hmkdir Hget Harchives Hslash Hfetch Hwrite.
  rewrite (download_pgn_reaches_loop _ _ _ _ _ _ Hmkdir Hget Harchives).
  assert (forallb has_slash (rev archives) = true) as Hslash'.
  { apply forallb_forall. intros a Ha. apply in_rev in Ha.
    by apply (proj1 (forallb_forall _ _) Hslash). }
  unfold mbind at 1, D_bind at 1.
  rewrite (for_archives_run _ _ _ _
             {| outside := o2; printed := printed st;
                events := events st ++ [Mkdir output_dir; Get (archives_url username)] |}
             o3 rs Hslash' Hfetch).
  cbn [app]. unfold mbind, D_bind, effect, print. cbn [outside printed events].
  rewrite Hwrite. cbn [outside printed events]. unfold month_requests.
  by rewrite <- !app_assoc.
Qed.

Lemma length_substring_0 n : ∀ s,
  String.length (String.substring 0 n s) = Nat.min n (String.length s).
Proof.
  induction n as [|n IH]; intros s.
  - by destruct s.
  - destruct s as [|c s]; cbn; [done|]. by rewrite IH.
Qed.

(** X16: a download that succeeds asks for the archive list and then for
    every listed month once, the month listed last first. *)
Theorem months_requested_most_recent_first
    username st o1 o2 o3 o4 response archives rs :
  mkdir (outside st) output_dir = (o1, Ok ()) →
  requests_get o1 (archives_url username) = (o2, Ok response) →
  response_archives response = Ok archives →
  forallb has_slash archives = true →
  fetch o2 (rev archives) = (o3, Ok rs) →
  write_file o3 (output_file username) (file_content (kept_texts rs)) = (o4, Ok ()) →
  ∃ st',
    download_pgn username st = (st', Ok ()) ∧
    requested (events st')
    = requested (events st)
        ++ archives_url username :: map (λ a, a +:+ "/pgn") (rev archives).
Proof.
  intros Hmkdir Hget Harchives Hslash Hfetch Hwrite.
  eexists. split.
  - exact (download_pgn_run _ _ _ _ _ _ _ _ _ Hmkdir Hget Harchives Hslash Hfetch Hwrite).
  - cbn [events]. rewrite (requested_app (events st)). f_equal.
    change ([Mkdir output_dir; Get (archives_url username)] ++ ?l)
      with (Mkdir output_dir :: Get (archives_url username) :: l).
    change (requested (Mkdir output_dir :: Get (archives_url username) :: ?l))
      with (archives_url username :: requested l).
    f_equal. unfold month_requests.
    rewrite requested_app, requested_month_requests. cbn. by rewrite app_nil_r.
Qed.

(** X17: a download that succeeds writes one file, as its last action on
    the outside: [<stem>.pgn] in Data/Bronze under the project root, with
    the texts of the months that are not blank; the last line printed
    names that file. *)
Theorem one_file_written_at_the_end
    username st o1 o2 o3 o4 response archives rs :
  mkdir (outside st) output_dir = (o1, Ok ()) →
  requests_get o1 (archives_url username) = (o2, Ok response) →
  response_archives response = Ok archives →
  forallb has_slash archives = true →
  fetch o2 (rev archives) = (o3, Ok rs) →
  write_file o3 (output_file username) (file_content (kept_texts rs)) = (o4, Ok ()) →
  ∃ st' evs,
    download_pgn username st = (st', Ok ()) ∧
    events st'
    = events st ++ evs
        ++ [Write (joinpath (joinpath (joinpath project_root "Data") "Bronze")
                            (file_stem username +:+ ".pgn"))
                  (file_content
                     (List.filter (λ text, negb (is_empty (strip text)))
                                  (map response_text rs)))] ∧
    List.filter is_Write evs = [] ∧
    last (printed st') = Some ("Saved to " +:+ path_str (output_file username)).
Proof.
  intros Hmkdir Hget Harchives Hslash Hfetch Hwrite.
  eexists. exists ([Mkdir output_dir; Get (archives_url username)]
                     ++ month_requests (rev archives)).
  split; [|split; [|split]].
  - exact (download_pgn_run _ _ _ _ _ _ _ _ _ Hmkdir Hget Harchives Hslash Hfetch Hwrite).
  - cbn [events]. rewrite <- !app_assoc. do 3 f_equal.
    unfold output_file, output_dir, file_stem. by rewrite str_lower_idemp.
  - cbn. apply no_write_month_requests.
  - cbn [printed]. rewrite app_assoc. apply last_snoc.
Qed.

(** X18: whatever was downloaded, the content written ends in a newline,
    and what stands before that newline does not end in white space. *)
Theorem file_content_ends_in_one_newline (all_pgn : list string) :
  ∃ body,
    file_content all_pgn = body +:+ newline ∧
    last_char (file_content all_pgn) = Some (Ascii.ascii_of_nat 10) ∧
    ∀ c, last_char body = Some c → isspace c = false.
Proof.
  exists (rstrip (join (newline +:+ newline) all_pgn)).
  split; [done|]. split.
  - apply last_char_app.
  - intros c. apply rstrip_last.
Qed.

(** X19: the progress line of the loop counts the months from 1 in the
    order of the requests, gives the number of months listed, and names
    the last two pieces of the archive address. *)
Theorem progress_line_counts_and_names_month
    username st o1 o2 o3 o4 response archives rs j base year month :
  mkdir (outside st) output_dir = (o1, Ok ()) →
  requests_get o1 (archives_url username) = (o2, Ok response) →
  response_archives response = Ok archives →
  forallb has_slash archives = true →
  fetch o2 (rev archives) = (o3, Ok rs) →
  write_file o3 (output_file username) (file_content (kept_texts rs)) = (o4, Ok ()) →
  rev archives !! j = Some (base +:+ "/" +:+ year +:+ "/" +:+ month) →
  slash_free year = true →
  slash_free month = true →
  ∃ st',
    download_pgn username st = (st', Ok ()) ∧
    printed st' !! (List.length (printed st) + j)%nat
    = Some ("[" +:+ pretty (S j) +:+ "/" +:+ pretty (List.length archives)
              +:+ "] Downloading " +:+ year +:+ "/" +:+ month +:+ "...").
Proof.
  intros Hmkdir Hget Harchives Hslash Hfetch Hwrite Hj Hyear Hmonth.
  eexists. split.
  - exact (download_pgn_run _ _ _ _ _ _ _ _ _ Hmkdir Hget Harchives Hslash Hfetch Hwrite).
  - cbn [printed]. rewrite lookup_app_r by lia.
    replace (List.length (printed st) + j - List.length (printed st))%nat with j by lia.
    rewrite lookup_app_l.
    2: { rewrite length_month_lines. by apply lookup_lt_Some in Hj. }
    rewrite month_lines_lookup, Hj. cbn [fmap option_fmap option_map Nat.add].
    unfold month_line.
    change (base +:+ "/" +:+ year +:+ "/" +:+ month)
      with (base +:+ String slash (year +:+ String slash month)).
    by rewrite (month_of_archive_url base year month Hyear Hmonth).
Qed.

(** X20: when the request for a month fails, the call raises that
    exception and nothing is written: the months already downloaded are
    dropped, the directory stays. *)
Theorem failed_month_leaves_no_file
    username st o1 o2 o3 response archives x :
  mkdir (outside st) output_dir = (o1, Ok ()) →
  requests_get o1 (archives_url username) = (o2, Ok response) →
  response_archives response = Ok archives →
  forallb has_slash archives = true →
  fetch o2 (rev archives) = (o3, Raise x) →
  ∃ st' k,
    download_pgn username st = (st', Raise x) ∧
    outside st' = o3 ∧
    events st'
    = events st ++ Mkdir output_dir :: Get (archives_url username)
        :: month_requests (take k (rev archives)).
Proof.
  intros Hmkdir Hget Harchives Hslash Hfetch.
  rewrite (download_pgn_reaches_loop _ _ _ _ _ _ Hmkdir Hget Harchives).
  assert (forallb has_slash (rev archives) = true) as Hslash'.
  { apply forallb_forall. intros a Ha. apply in_rev in Ha.
    by apply (proj1 (forallb_forall _ _) Hslash). }
  destruct (for_archives_get_raises (List.length archives) (rev archives) 1 []
              {| outside := o2; printed := printed st;
                 events := events st ++ [Mkdir output_dir; Get (archives_url username)] |}
              o3 x Hslash' Hfetch) as (st' & Hrun & Hout & k & Hev).
  exists st', k. unfold mbind at 1, D_bind at 1. rewrite Hrun.
  split; [done|]. split; [done|]. rewrite Hev. cbn [events].
  by rewrite <- app_assoc.
Qed.

(** X21: an archive address without a slash stops the call with an
    IndexError when its turn comes: it is not requested, the months
    before it were, and nothing is written. *)
Theorem archive_without_slash_raises_index_error
    username st o1 o2 o3 response archives pre a post rs :
  mkdir (outside st) output_dir = (o1, Ok ()) →
  requests_get o1 (archives_url username) = (o2, Ok response) →
  response_archives response = Ok archives →
  rev archives = pre ++ a :: post →
  forallb has_slash pre = true →
  has_slash a = false →
  fetch o2 pre = (o3, Ok rs) →
  download_pgn username st
  = ({| outside := o3;
        printed := printed st ++ month_lines (List.length archives) 1 pre;
        events := events st ++ Mkdir output_dir :: Get (archives_url username)
                    :: month_requests pre |},
     Raise (IndexError "list index out of range")).
Proof.
  intros Hmkdir Hget Harchives Hrev Hpre Ha Hfetch.
  rewrite (download_pgn_reaches_loop _ _ _ _ _ _ Hmkdir Hget Harchives).
  unfold mbind at 1, D_bind at 1. rewrite Hrev.
  rewrite (for_archives_no_slash _ pre a post 1 []
             {| outside := o2; printed := printed st;
                events := events st ++ [Mkdir output_dir; Get (archives_url username)] |}
             o3 rs Hpre Ha Hfetch).
  cbn [outside printed events]. by rewrite <- app_assoc.
Qed.

(** X22: when the answer to the first request holds no archive list, the
    call raises what reading it raised, after making the directory and
    that one request; nothing is printed or written. *)
Theorem unreadable_archive_list_raises
    username st o1 o2 response x :
  mkdir (outside st) output_dir = (o1, Ok ()) →
  requests_get o1 (archives_url username) = (o2, Ok response) →
  response_archives response = Raise x →
  download_pgn username st
  = ({| outside := o2;
        printed := printed st;
        events := events st ++ [Mkdir output_dir; Get (archives_url username)] |},
     Raise x).
Proof.
  intros Hmkdir Hget Harchives.
  unfold download_pgn. unfold mbind at 1, D_bind at 1. unfold effect at 1.
  fold output_dir. rewrite Hmkdir. cbn [outside printed events].
  unfold mbind at 1, D_bind at 1. unfold get, effect at 1.
  fold (archives_url username). cbn [outside printed events]. rewrite Hget.
  unfold mbind at 1, D_bind at 1. unfold lift at 1. rewrite Harchives.
  by rewrite <- app_assoc.
Qed.

(** X23: when no month has games (or no month is listed), the file is
    still written, and holds one newline. *)
Theorem no_games_file_is_one_newline
    username st o1 o2 o3 o4 response archives rs :
  mkdir (outside st) output_dir = (o1, Ok ()) →
  requests_get o1 (archives_url username) = (o2, Ok response) →
  response_archives response = Ok archives →
  forallb has_slash archives = true →
  fetch o2 (rev archives) = (o3, Ok rs) →
  forallb (λ r, is_blank (response_text r)) rs = true →
  write_file o3 (output_file username) newline = (o4, Ok ()) →
  ∃ st',
    download_pgn username st = (st', Ok ()) ∧
    List.filter is_Write (events st')
    = List.filter is_Write (events st) ++ [Write (output_file username) newline].
Proof.
  intros Hmkdir Hget Harchives Hslash Hfetch Hblank Hwrite.
  assert (kept_texts rs = []) as Hkept.
  { unfold kept_texts. clear Hfetch. induction rs as [|r rs IH]; [done|].
    cbn in Hblank |- *. apply andb_true_iff in Hblank as [Hr Hrs].
    rewrite Hr. cbn. by apply IH. }
  assert (file_content (kept_texts rs) = newline) as Hcontent by (by rewrite Hkept).
  rewrite <- Hcontent in Hwrite.
  eexists. split.
  - exact (download_pgn_run _ _ _ _ _ _ _ _ _ Hmkdir Hget Harchives Hslash Hfetch Hwrite).
  - cbn [events]. rewrite Hcontent, !List.filter_app. f_equal.
    unfold month_requests. rewrite no_write_month_requests. done.
Qed.

(** X24: the stem of the file [download_pgn] writes, computed from the
    user name it lowered on entry, is the stem the pipeline script
    computes from the user name it passed; it has at most 8 characters. *)
Theorem download_and_pipeline_agree_on_stem (username : string) :
  file_stem (str_lower username) = pipeline_stem username ∧
  (String.length (pipeline_stem username) ≤ 8)%nat.
Proof.
  split.
  - unfold file_stem, pipeline_stem. by rewrite str_lower_idemp.
  - unfold pipeline_stem. destruct (8 <? String.length (str_lower username))%nat eqn:Hlen.
    + rewrite length_substring_0. lia.
    + apply Nat.ltb_ge in Hlen. lia.
Qed.

(** X25: two user names longer than 8 characters that agree, letter case
    aside, on their first 8 characters are downloaded to the same file. *)
Theorem long_usernames_share_a_file (username1 username2 : string) :
  (8 < String.length username1)%nat →
  (8 < String.length username2)%nat →
  String.substring 0 8 (str_lower username1) = String.substring 0 8 (str_lower username2) →
  output_file username1 = output_file username2.
Proof.
  intros Hlen1 Hlen2 Hprefix. unfold output_file, file_stem.
  rewrite !str_lower_idemp, !length_str_lower.
  apply Nat.ltb_lt in Hlen1, Hlen2. by rewrite Hlen1, Hlen2, Hprefix.
Qed.

End Facts.

(** ** The properties on the stand-ins *)

Import DownloadDoubles.

Lemma months_requested_most_recent_first_witness :
  ∃ st',
    download_pgn (H := services site) "Magnus" (start (services site) 0%nat)
    = (st', Ok ()) ∧
    requested (events st')
    = [ARCHIVES_URL; MARCH +:+ "/pgn"; FEBRUARY +:+ "/pgn"; JANUARY +:+ "/pgn"].
Proof.
  exact (months_requested_most_recent_first (H := services site)
           "Magnus" (start (services site) 0%nat) 1%nat 2%nat 5%nat 6%nat
           ("", Ok [JANUARY; FEBRUARY; MARCH]) [JANUARY; FEBRUARY; MARCH]
           [("1. d4 d5 0-1" +:+ newline +:+ newline, Raise (ValueError "no JSON"));
            ("  " +:+ newline, Raise (ValueError "no JSON"));
            ("1. e4 e5 1-0" +:+ newline, Raise (ValueError "no JSON"))]
           eq_refl eq_refl eq_refl eq_refl eq_refl eq_refl).
Defined.

Lemma one_file_written_at_the_end_witness :
  ∃ st' evs,
    download_pgn (H := services site) "Magnus" (start (services site) 0%nat)
    = (st', Ok ()) ∧
    events st'
    = [] ++ evs
        ++ [Write (H := services site)
                  [""; "srv"; "chess"; "Data"; "Bronze"; "magnus.pgn"]
                  ("1. d4 d5 0-1" +:+ newline +:+ newline +:+ newline +:+ newline
                     +:+ "1. e4 e5 1-0" +:+ newline)] ∧
    List.filter is_Write evs = [] ∧
    last (printed st') = Some "Saved to /srv/chess/Data/Bronze/magnus.pgn".
Proof.
  exact (one_file_written_at_the_end (H := services site)
           "Magnus" (start (services site) 0%nat) 1%nat 2%nat 5%nat 6%nat
           ("", Ok [JANUARY; FEBRUARY; MARCH]) [JANUARY; FEBRUARY; MARCH]
           [("1. d4 d5 0-1" +:+ newline +:+ newline, Raise (ValueError "no JSON"));
            ("  " +:+ newline, Raise (ValueError "no JSON"));
            ("1. e4 e5 1-0" +:+ newline, Raise (ValueError "no JSON"))]
           eq_refl eq_refl eq_refl eq_refl eq_refl eq_refl).
Defined.

Lemma progress_line_counts_and_names_month_witness :
  ∃ st',
    download_pgn (H := services site) "Magnus" (start (services site) 0%nat)
    = (st', Ok ()) ∧
    printed st' !! 1%nat = Some "[2/3] Downloading 2024/02...".
Proof.
  exact (progress_line_counts_and_names_month (H := services site)
           "Magnus" (start (services site) 0%nat) 1%nat 2%nat 5%nat 6%nat
           ("", Ok [JANUARY; FEBRUARY; MARCH]) [JANUARY; FEBRUARY; MARCH]
           [("1. d4 d5 0-1" +:+ newline +:+ newline, Raise (ValueError "no JSON"));
            ("  " +:+ newline, Raise (ValueError "no JSON"));
            ("1. e4 e5 1-0" +:+ newline, Raise (ValueError "no JSON"))]
           1%nat "https://api.chess.com/pub/player/magnus/games" "2024" "02"
           eq_refl eq_refl eq_refl eq_refl eq_refl eq_refl eq_refl eq_refl eq_refl).
Defined.

Lemma failed_month_leaves_no_file_witness :
  ∃ st' k,
    download_pgn (H := services flaky_site) "Magnus" (start (services flaky_site) 0%nat)
    = (st', Raise ConnectionError) ∧
    outside st' = 3%nat ∧
    events st'
    = [] ++ Mkdir (H := services flaky_site) [""; "srv"; "chess"; "Data"; "Bronze"]
        :: Get ARCHIVES_URL
        :: month_requests (take k [MARCH; FEBRUARY; JANUARY]).
Proof.
  exact (failed_month_leaves_no_file (H := services flaky_site)
           "Magnus" (start (services flaky_site) 0%nat) 1%nat 2%nat 3%nat
           ("", Ok [JANUARY; FEBRUARY; MARCH]) [JANUARY; FEBRUARY; MARCH]
           ConnectionError
           eq_refl eq_refl eq_refl eq_refl eq_refl).
Defined.

Lemma archive_without_slash_raises_index_error_witness :
  download_pgn (H := services odd_site) "Magnus" (start (services odd_site) 0%nat)
  = (Build_State (H := services odd_site) 3%nat
       ["[1/2] Downloading 2024/01..."]
       [Mkdir (H := services odd_site) [""; "srv"; "chess"; "Data"; "Bronze"];
        Get ARCHIVES_URL; Get (JANUARY +:+ "/pgn")],
     Raise (IndexError "list index out of range")).
Proof.
  exact (archive_without_slash_raises_index_error (H := services odd_site)
           "Magnus" (start (services odd_site) 0%nat) 1%nat 2%nat 3%nat
           ("", Ok ["latest"; JANUARY]) ["latest"; JANUARY]
           [JANUARY] "latest" []
           [("1. e4 e5 1-0" +:+ newline, Raise (ValueError "no JSON"))]
           eq_refl eq_refl eq_refl eq_refl eq_refl eq_refl eq_refl).
Defined.

Lemma unreadable_archive_list_raises_witness :
  download_pgn (H := services empty_site) "Magnus" (start (services empty_site) 0%nat)
  = (Build_State (H := services empty_site) 2%nat []
       [Mkdir (H := services empty_site) [""; "srv"; "chess"; "Data"; "Bronze"];
        Get ARCHIVES_URL],
     Raise (KeyError "archives")).
Proof.
  exact (unreadable_archive_list_raises (H := services empty_site)
           "Magnus" (start (services empty_site) 0%nat) 1%nat 2%nat
           ("", Raise (KeyError "archives")) (KeyError "archives")
           eq_refl eq_refl eq_refl).
Defined.

Lemma no_games_file_is_one_newline_witness :
  ∃ st',
    download_pgn (H := services new_player_site) "Magnus"
      (start (services new_player_site) 0%nat)
    = (st', Ok ()) ∧
    List.filter is_Write (events st')
    = [Write (H := services new_player_site)
             [""; "srv"; "chess"; "Data"; "Bronze"; "magnus.pgn"] newline].
Proof.
  exact (no_games_file_is_one_newline (H := services new_player_site)
           "Magnus" (start (services new_player_site) 0%nat) 1%nat 2%nat 2%nat 3%nat
           ("", Ok []) [] []
           eq_refl eq_refl eq_refl eq_refl eq_refl eq_refl eq_refl).
Defined.

Lemma long_usernames_share_a_file_witness :
  output_file (H := services site) "bkchessmaster2"
  = output_file (H := services site) "BKChessMaster3".
Proof.
  apply (long_usernames_share_a_file (H := services site)
           "bkchessmaster2" "BKChessMaster3"); [cbn; lia | cbn; lia | reflexivity].
Defined.

End DownloadPgnFacts.
